(** * SyllabusAI: exam synthesis and answer grading

    A shallow embedding of the exam generation pipeline of
    [server/gemini.ts] (course-title extraction, mock synthesis, the
    AI-backed path with its JSON fallback) and of the grading routes of
    [server/routes.ts] over the storage of [server/storage.ts].  The
    topic extraction, the syllabus and exam routes with the cascading
    deletion, and the checks and handlers of the client pages (the file
    uploader, the timer display, the answer map of the exam page and the
    count of the simple exam page) follow.

    JavaScript strings are modelled as [string] (sequences of 8-bit
    characters).  In module [JS] the built-ins [toLowerCase], [toUpperCase],
    [trim] and the regular-expression classes [\s], [\d] and [[a-z0-9\s]]
    act on the ASCII range; characters outside it are left alone and are
    neither whitespace nor letters.  Module [Runtime] is the interface of
    these built-ins for every text, with the ASCII built-ins as one
    instance, and module [Native] holds the grader and the title extraction
    over that interface.  JavaScript numbers that the code uses as counters
    and identifiers are modelled as [Z]; the question count, which the
    configuration schema does not ask to be whole, is a rational number in
    module [Schema]. *)

From Stdlib Require Import ZArith Ascii String DecimalString Lia Bool.
From Stdlib Require DecimalZ.
From Stdlib Require QArith Qround.
From stdpp Require Import base list gmap strings.

Set Warnings "-abstract-large-number".

(* ================================================================== *)
(** * Definitions *)
(* ================================================================== *)

(** ** JavaScript string built-ins used by the server *)

Module JS.

(** The double-quote character, for text that contains quotation marks. *)
Definition dq : string := String "034"%char "".

(** [s] between double quotes. *)
Definition quoted (s : string) : string := dq +:+ s +:+ dq.

Definition isUpper (c : ascii) : bool :=
  let n := N_of_ascii c in (65 <=? n)%N && (n <=? 90)%N.

Definition isLower (c : ascii) : bool :=
  let n := N_of_ascii c in (97 <=? n)%N && (n <=? 122)%N.

Definition isDigit (c : ascii) : bool :=
  let n := N_of_ascii c in (48 <=? n)%N && (n <=? 57)%N.

(** [\s]: tab, line feed, vertical tab, form feed, carriage return, space. *)
Definition isSpace (c : ascii) : bool :=
  let n := N_of_ascii c in ((9 <=? n)%N && (n <=? 13)%N) || (n =? 32)%N.

Definition lowerChar (c : ascii) : ascii :=
  if isUpper c then ascii_of_N (N_of_ascii c + 32) else c.

Definition upperChar (c : ascii) : ascii :=
  if isLower c then ascii_of_N (N_of_ascii c - 32) else c.

Fixpoint mapChars (f : ascii -> ascii) (s : string) : string :=
  match s with
  | EmptyString => EmptyString
  | String c r => String (f c) (mapChars f r)
  end.

(** [s.toLowerCase()] and [s.toUpperCase()]. *)
Definition toLowerCase : string -> string := mapChars lowerChar.
Definition toUpperCase : string -> string := mapChars upperChar.

Definition isEmpty (s : string) : bool :=
  match s with EmptyString => true | String _ _ => false end.

Fixpoint trimStart (s : string) : string :=
  match s with
  | EmptyString => EmptyString
  | String c r => if isSpace c then trimStart r else s
  end.

Fixpoint trimEnd (s : string) : string :=
  match s with
  | EmptyString => EmptyString
  | String c r =>
      let r' := trimEnd r in
      if isSpace c && isEmpty r' then EmptyString else String c r'
  end.

(** [s.trim()]. *)
Definition trim (s : string) : string := trimEnd (trimStart s).

(** [s.startsWith(p)]. *)
Fixpoint startsWith (s p : string) : bool :=
  match p, s with
  | EmptyString, _ => true
  | String _ _, EmptyString => false
  | String a p', String b s' => Ascii.eqb a b && startsWith s' p'
  end.

(** [s.includes(sub)]: [sub] occurs in [s] at some position. *)
Fixpoint includes (s sub : string) : bool :=
  startsWith s sub ||
  match s with
  | EmptyString => false
  | String _ r => includes r sub
  end.

(** [s.substring(0, n)] for a non-negative integer [n]. *)
Fixpoint substring0 (n : nat) (s : string) : string :=
  match n, s with
  | S n', String c r => String c (substring0 n' r)
  | _, _ => EmptyString
  end.

(** [s.slice(1)]. *)
Definition slice1 (s : string) : string :=
  match s with EmptyString => EmptyString | String _ r => r end.

(** [s.charAt(0)]. *)
Definition charAt0 (s : string) : string :=
  match s with EmptyString => EmptyString | String c _ => String c "" end.

(** [s.split('\n')]: the pieces between line feeds; never empty. *)
Fixpoint split (sep : ascii) (s : string) : list string :=
  match s with
  | EmptyString => [EmptyString]
  | String c r =>
      if Ascii.eqb c sep then EmptyString :: split sep r
      else match split sep r with
           | [] => [String c ""]
           | l :: ls => String c l :: ls
           end
  end.

Definition newline : ascii := "010"%char.

(** [a.join(sep)]. *)
Fixpoint join (sep : string) (a : list string) : string :=
  match a with
  | [] => EmptyString
  | [x] => x
  | x :: rest => x +:+ sep +:+ join sep rest
  end.

(** [String(n)] for an integer [n]. *)
Definition numberToString (n : Z) : string :=
  NilEmpty.string_of_int (Z.to_int n).

(** *** The regular expressions of the server, as matchers *)

(** [[a-z0-9\s]] under the [i] flag. *)
Definition isTitleChar (c : ascii) : bool :=
  isLower c || isUpper c || isDigit c || isSpace c.

Fixpoint takeWhile (p : ascii -> bool) (s : string) : string :=
  match s with
  | EmptyString => EmptyString
  | String c r => if p c then String c (takeWhile p r) else EmptyString
  end.

(** The literal [label] under the [i] flag at the start of [s]; the rest
    of [s] after it. *)
Fixpoint dropLabel (label s : string) : option string :=
  match label, s with
  | EmptyString, _ => Some s
  | String _ _, EmptyString => None
  | String a l', String b s' =>
      if Ascii.eqb (lowerChar a) (lowerChar b) then dropLabel l' s' else None
  end.

(** [([a-z0-9\s]+)] at the start of [s]: the longest run, which must not
    be empty. *)
Definition captureRun (s : string) : option string :=
  let run := takeWhile isTitleChar s in
  if isEmpty run then None else Some run.

(** [\s*([a-z0-9\s]+)] at the start of [s].  The star is greedy: it takes
    a whitespace character when there is one and gives it back only when
    the rest cannot match. *)
Fixpoint spacesThenCapture (s : string) : option string :=
  match s with
  | EmptyString => captureRun s
  | String c r =>
      if isSpace c then
        match spacesThenCapture r with
        | Some cap => Some cap
        | None => captureRun s
        end
      else captureRun s
  end.

(** [:?\s*([a-z0-9\s]+)] at the start of [s]: the colon is taken when it
    is there, and skipped as a second choice. *)
Definition colonThenCapture (s : string) : option string :=
  match s with
  | String ":" r =>
      match spacesThenCapture r with
      | Some cap => Some cap
      | None => spacesThenCapture s
      end
  | _ => spacesThenCapture s
  end.

(** [/label:?\s*([a-z0-9\s]+)/i] anchored at the start of [s]. *)
Definition matchLabelHere (label s : string) : option string :=
  match dropLabel label s with
  | Some r => colonThenCapture r
  | None => None
  end.

(** [s.match(/label:?\s*([a-z0-9\s]+)/i)]: capture group 1 of the
    leftmost match, [None] for [null]. *)
Fixpoint matchLabel (label s : string) : option string :=
  match matchLabelHere label s with
  | Some cap => Some cap
  | None =>
      match s with
      | EmptyString => None
      | String _ r => matchLabel label r
      end
  end.

Fixpoint dropWhile (p : ascii -> bool) (s : string) : string :=
  match s with
  | EmptyString => EmptyString
  | String c r => if p c then dropWhile p r else s
  end.

(** [line.match(/^\d+\./)] as a truth value: one or more digits at the
    start of the line, then a dot. *)
Definition matchNumbered (line : string) : bool :=
  negb (isEmpty (takeWhile isDigit line)) &&
  startsWith (dropWhile isDigit line) ".".

(** [/\.(pdf|docx|txt)$/i] anchored at the start of [s]: [s] is one of
    the three extensions, in any letter case. *)
Definition isExtension (s : string) : bool :=
  let l := toLowerCase s in
  String.eqb l ".pdf" || String.eqb l ".docx" || String.eqb l ".txt".

(** [s.replace(/\.(pdf|docx|txt)$/i, '')]: the leftmost match is removed. *)
Fixpoint stripExtension (s : string) : string :=
  if isExtension s then EmptyString
  else match s with
       | EmptyString => EmptyString
       | String c r => String c (stripExtension r)
       end.

(** [s.replace(/_/g, ' ')]. *)
Definition underscoresToSpaces : string -> string :=
  mapChars (fun c => if Ascii.eqb c "_" then " "%char else c).

(** The longest prefix of [s] that ends in a closing brace. *)
Fixpoint uptoLastBrace (s : string) : option string :=
  match s with
  | EmptyString => None
  | String c r =>
      match uptoLastBrace r with
      | Some p => Some (String c p)
      | None => if Ascii.eqb c "}" then Some (String c "") else None
      end
  end.

(** [s.match(/\{[\s\S]*\}/)]: element 0 of the leftmost match, from an
    opening brace to the last closing brace after it. *)
Fixpoint matchBraces (s : string) : option string :=
  match s with
  | EmptyString => None
  | String c r =>
      if Ascii.eqb c "{" then
        match uptoLastBrace r with
        | Some p => Some (String c p)
        | None => matchBraces r
        end
      else matchBraces r
  end.

End JS.

(** ** Results of calls that may throw *)

Inductive Outcome (A : Type) : Type :=
| Returns (a : A)
| Throws (error : string).
Arguments Returns {A} a.
Arguments Throws {A} error.

(** [try { body } catch (e) { handler(e) }]. *)
Definition tryCatch {A : Type} (body : Outcome A) (handler : string -> Outcome A)
  : Outcome A :=
  match body with
  | Returns a => Returns a
  | Throws e => handler e
  end.

Definition bindOutcome {A B : Type} (m : Outcome A) (k : A -> Outcome B)
  : Outcome B :=
  match m with
  | Returns a => k a
  | Throws e => Throws e
  end.

(** ** Exam synthesis: [server/gemini.ts] *)

Module Gemini.
Import JS.

Inductive ExamType := MultipleChoice | ShortAnswer.
Inductive Difficulty := Easy | Medium | Hard | Mixed.

Definition typeName (t : ExamType) : string :=
  match t with
  | MultipleChoice => "multiple-choice"
  | ShortAnswer => "short-answer"
  end.

Definition difficultyName (d : Difficulty) : string :=
  match d with
  | Easy => "easy" | Medium => "medium" | Hard => "hard" | Mixed => "mixed"
  end.

Record ExamConfig := {
  type : ExamType;
  questionCount : Z;
  difficulty : Difficulty;
  topics : list string;
  timeLimit : option Z
}.

Record Option := { id : string; text : string }.

Record MultipleChoiceQuestion := {
  mc_content : string;
  mc_options : list Option;
  mc_correctAnswer : string;
  mc_topic : string;
  mc_difficulty : string
}.

Record ShortAnswerQuestion := {
  sa_content : string;
  sa_correctAnswer : string;
  sa_topic : string;
  sa_difficulty : string
}.

Inductive Question :=
| MC (q : MultipleChoiceQuestion)
| SA (q : ShortAnswerQuestion).

Definition questionType (q : Question) : string :=
  match q with MC _ => "multiple-choice" | SA _ => "short-answer" end.

Definition content (q : Question) : string :=
  match q with MC m => mc_content m | SA s => sa_content s end.

Definition correctAnswer (q : Question) : string :=
  match q with MC m => mc_correctAnswer m | SA s => sa_correctAnswer s end.

Definition topic (q : Question) : string :=
  match q with MC m => mc_topic m | SA s => sa_topic s end.

Definition questionDifficulty (q : Question) : string :=
  match q with MC m => mc_difficulty m | SA s => sa_difficulty s end.

Record Exam := { title : string; questions : list Question }.

(** Values of type [any]: what [JSON.parse] returns and what an object
    literal denotes.  An object lists its properties in insertion order; a
    number is kept as the text that denotes it. *)
#[warnings="-register-all"]
Inductive JsValue :=
| JsNull
| JsBool (b : bool)
| JsNumber (literal : string)
| JsString (s : string)
| JsArray (items : list JsValue)
| JsObject (properties : list (string * JsValue)).

Definition optionToJs (o : Option) : JsValue :=
  JsObject [("id", JsString (id o)); ("text", JsString (text o))].

Definition questionToJs (q : Question) : JsValue :=
  match q with
  | MC m =>
      JsObject [("content", JsString (mc_content m));
                ("questionType", JsString "multiple-choice");
                ("options", JsArray (map optionToJs (mc_options m)));
                ("correctAnswer", JsString (mc_correctAnswer m));
                ("topic", JsString (mc_topic m));
                ("difficulty", JsString (mc_difficulty m))]
  | SA s =>
      JsObject [("content", JsString (sa_content s));
                ("questionType", JsString "short-answer");
                ("correctAnswer", JsString (sa_correctAnswer s));
                ("topic", JsString (sa_topic s));
                ("difficulty", JsString (sa_difficulty s))]
  end.

(** The object that the literal [{ title, questions }] denotes. *)
Definition examToJs (e : Exam) : JsValue :=
  JsObject [("title", JsString (title e));
            ("questions", JsArray (map questionToJs (questions e)))].

(** [extractCourseTitle]: a title from the first lines, else from the
    file name. *)
Definition firstLines (content : string) : string :=
  join " " (take 10 (split newline content)).

Definition courseMatch (content : string) : option string :=
  match matchLabel "course" (firstLines content) with
  | Some cap => Some cap
  | None =>
      match matchLabel "title" (firstLines content) with
      | Some cap => Some cap
      | None => matchLabel "syllabus" (firstLines content)
      end
  end.

Definition filenameTitle (filename : string) : string :=
  underscoresToSpaces (stripExtension filename).

Definition extractCourseTitle (content filename : string) : string :=
  match courseMatch content with
  | Some cap =>
      if isEmpty (trim cap) then filenameTitle filename else trim cap
  | None => filenameTitle filename
  end.

(** [generateMockExam]. *)
Definition isTopicLine (line : string) : bool :=
  includes line "Topic" ||
  includes line "Learning" ||
  includes line "Objective" ||
  includes line "Study" ||
  matchNumbered line.

Definition syllabusLines (syllabusContent : string) : list string :=
  split newline syllabusContent.

Definition topicLines (syllabusContent : string) : list string :=
  List.filter isTopicLine (syllabusLines syllabusContent).

Definition relevantLines (syllabusContent : string) : list string :=
  if (10 <? length (topicLines syllabusContent))%nat
  then take 10 (topicLines syllabusContent)
  else take (Nat.min (length (syllabusLines syllabusContent)) 20)
            (syllabusLines syllabusContent).

Definition subjectAreas : list string :=
  [ "Fundamental Concepts";
    "Key Principles";
    "Theoretical Frameworks";
    "Application Methods";
    "Historical Context";
    "Practical Skills";
    "Core Terminology";
    "Analysis Techniques" ].

Definition baseText (lines : list string) (i : nat) : string :=
  if (i <? length lines)%nat
  then nth i lines ""
  else nth (i mod length subjectAreas) subjectAreas "".

Definition topicOf (base : string) : string :=
  if (30 <? String.length base)%nat
  then trim (substring0 30 base) +:+ "..."
  else trim base.

Definition mockDifficulty (d : Difficulty) (i : nat) : string :=
  match d with
  | Mixed => nth (i mod 3) ["easy"; "medium"; "hard"] ""
  | _ => difficultyName d
  end.

(** The body of the loop at index [i]: the question that is pushed. *)
Definition mockQuestion (lines : list string) (config : ExamConfig) (i : nat)
  : Question :=
  let topic := topicOf (baseText lines i) in
  let difficulty := mockDifficulty (difficulty config) i in
  let number := numberToString (Z.of_nat i + 1) in
  match type config with
  | MultipleChoice =>
      MC {| mc_content :=
              "Question " +:+ number +:+
              ": Which of the following best describes " +:+
              quoted topic +:+ "?";
            mc_options :=
              [ {| id := "a";
                   text := "The primary framework for understanding " +:+ topic |};
                {| id := "b";
                   text := "A secondary concept related to " +:+ topic |};
                {| id := "c";
                   text := "An application method for " +:+ topic |};
                {| id := "d";
                   text := "The historical development of " +:+ topic |} ];
            mc_correctAnswer := "a";
            mc_topic := topic;
            mc_difficulty := difficulty |}
  | ShortAnswer =>
      SA {| sa_content :=
              "Question " +:+ number +:+
              ": Briefly explain the concept of " +:+
              quoted topic +:+ " and its significance.";
            sa_correctAnswer :=
              topic +:+ " is a fundamental concept that involves understanding the core principles and applying them appropriately in context.";
            sa_topic := topic;
            sa_difficulty := difficulty |}
  end.

(** [for (let i = 0; i < config.questionCount; i++)]: the indices that
    the loop visits, for an integer bound. *)
Definition loopIndices (bound : Z) : list nat := seq 0 (Z.to_nat bound).

Definition mockTitle (courseTitle : string) (d : Difficulty) : string :=
  courseTitle +:+ " - " +:+
  toUpperCase (charAt0 (difficultyName d)) +:+ slice1 (difficultyName d) +:+
  " Difficulty Exam".

Definition generateMockExam
  (syllabusContent : string) (config : ExamConfig) (courseTitle : string)
  : Exam :=
  let lines := relevantLines syllabusContent in
  {| title := mockTitle courseTitle (difficulty config);
     questions :=
       map (mockQuestion lines config) (loopIndices (questionCount config)) |}.

(** The generation request.  [prompt] is the template literal of
    [generateExam], line by line. *)
Definition timeLimitLine (config : ExamConfig) : string :=
  match timeLimit config with
  | Some t =>
      if (t =? 0)%Z then ""
      else "- Time limit: " +:+ numberToString t +:+ " minutes"
  | None => ""
  end.

Definition jsonShapeLines : list string :=
  [ "      {";
    "        " +:+ quoted "title" +:+ ": " +:+
      quoted "Exam title based on the course" +:+ ", ";
    "        " +:+ quoted "questions" +:+ ": [";
    "          // For multiple-choice questions:";
    "          {";
    "            " +:+ quoted "content" +:+ ": " +:+ quoted "Question text" +:+ ",";
    "            " +:+ quoted "questionType" +:+ ": " +:+
      quoted "multiple-choice" +:+ ",";
    "            " +:+ quoted "options" +:+ ": [{" +:+ quoted "id" +:+ ": " +:+
      quoted "a" +:+ ", " +:+ quoted "text" +:+ ": " +:+
      quoted "option text" +:+ "}, ...],";
    "            " +:+ quoted "correctAnswer" +:+ ": " +:+ quoted "a" +:+
      ", // The ID of the correct option";
    "            " +:+ quoted "topic" +:+ ": " +:+ quoted "Topic name" +:+ ",";
    "            " +:+ quoted "difficulty" +:+ ": " +:+ quoted "easy|medium|hard";
    "          },";
    "          // For short-answer questions:";
    "          {";
    "            " +:+ quoted "content" +:+ ": " +:+ quoted "Question text" +:+ ",";
    "            " +:+ quoted "questionType" +:+ ": " +:+
      quoted "short-answer" +:+ ",";
    "            " +:+ quoted "correctAnswer" +:+ ": " +:+
      quoted "Model answer" +:+ ",";
    "            " +:+ quoted "topic" +:+ ": " +:+ quoted "Topic name" +:+ ",";
    "            " +:+ quoted "difficulty" +:+ ": " +:+ quoted "easy|medium|hard";
    "          }";
    "        ]";
    "      }" ].

Definition promptLines (excerpt : string) (config : ExamConfig) : list string :=
  [ "";
    "      You are an expert educator creating exam questions based on course content.";
    "      ";
    "      Course syllabus content:";
    "      " +:+ excerpt +:+ " // Limit content to avoid token limits";
    "      ";
    "      Exam configuration:";
    "      - Type: " +:+ typeName (type config);
    "      - Number of questions: " +:+ numberToString (questionCount config);
    "      - Difficulty: " +:+ difficultyName (difficulty config);
    "      " +:+ timeLimitLine config;
    "      ";
    "      Create an exam with " +:+ numberToString (questionCount config) +:+
      " " +:+ typeName (type config) +:+
      " questions based on the syllabus content.";
    "      ";
    "      Guidelines:";
    "      - Create questions that test understanding, not just memorization";
    "      - For multiple-choice, create 4 options per question with only one correct answer";
    "      - For short-answer, provide a concise model answer";
    "      - Make sure all questions are directly based on the syllabus content";
    "      - Cover a broad range of content from the syllabus";
    "      - For " +:+ difficultyName (difficulty config) +:+
      " difficulty level, adjust complexity accordingly";
    "      ";
    "      Return a JSON object with the following structure:" ]
  ++ jsonShapeLines ++
  [ "      ";
    "      Return ONLY the JSON object without any other text or explanation.";
    "    " ].

Definition prompt (syllabusContent : string) (config : ExamConfig) : string :=
  join (String newline "")
       (promptLines (substring0 15000 syllabusContent) config).

Section Synthesis.

(** [JSON.parse], which returns a value or throws a [SyntaxError]. *)
Variable JSON_parse : string -> Outcome JsValue.

(** [model.generateContent(prompt)] followed by [result.response.text()]:
    the response text, or the error that either call throws. *)
Variable generateContent : string -> Outcome string.

(** [safeJsonParse], applied to a string. *)
Definition safeJsonParse (jsonString : string) : JsValue :=
  if isEmpty jsonString then JsObject []
  else match JSON_parse jsonString with
       | Returns v => v
       | Throws _ => JsObject []
       end.

(** [jsonMatch ? jsonMatch[0] : "{}"]. *)
Definition jsonContent (responseText : string) : string :=
  match matchBraces responseText with
  | Some m => m
  | None => "{}"
  end.

(** [generateExam]: the value that the promise resolves to, or the error
    that it rejects with. *)
Definition generateExam
  (syllabusContent : string) (config : ExamConfig) (filename : string)
  : Outcome JsValue :=
  tryCatch
    (let courseTitle := extractCourseTitle syllabusContent filename in
     tryCatch
       (bindOutcome (generateContent (prompt syllabusContent config))
          (fun responseText =>
             Returns (safeJsonParse (jsonContent responseText))))
       (fun aiError =>
          Returns (examToJs (generateMockExam syllabusContent config courseTitle))))
    (fun error =>
       let courseTitle := extractCourseTitle syllabusContent filename in
       Returns (examToJs (generateMockExam syllabusContent config courseTitle))).

End Synthesis.

End Gemini.

(** ** Grading: [server/routes.ts] over [server/storage.ts] *)

Module Routes.
Import JS.

(** Rows of the tables of [shared/schema.ts].  Timestamps are numbers. *)
Record Exam := {
  exam_id : Z;
  exam_title : string;
  exam_syllabusId : Z;
  exam_type : string;
  exam_difficulty : string;
  exam_questionCount : Z;
  exam_timeLimit : option Z;
  exam_topics : option (list string);
  exam_createdAt : Z
}.

Record Question := {
  question_id : Z;
  question_examId : Z;
  content : string;
  questionType : string;
  options : option (list Gemini.Option);
  correctAnswer : string;
  topic : option string;
  difficulty : option string
}.

Record ExamAttempt := {
  attempt_id : Z;
  attempt_examId : Z;
  startedAt : Z;
  completedAt : option Z;
  score : option Z;
  maxScore : Z
}.

Record Answer := {
  answer_id : Z;
  attemptId : Z;
  answer_questionId : Z;
  answer : string;
  isCorrect : option bool
}.

(** [isAnswerCorrect]. *)
Definition isAnswerCorrect (question : Question) (answer : string) : bool :=
  if String.eqb (questionType question) "multiple-choice" then
    String.eqb (toLowerCase answer) (toLowerCase (correctAnswer question))
  else if String.eqb (questionType question) "short-answer" then
    let cleanAnswer := trim (toLowerCase answer) in
    let cleanCorrect := trim (toLowerCase (correctAnswer question)) in
    String.eqb cleanAnswer cleanCorrect ||
    includes cleanCorrect cleanAnswer ||
    includes cleanAnswer cleanCorrect
  else false.

(** The database: the tables that the grading routes read and write, each
    in insertion order, and the next value of the two serial columns that
    these routes draw from. *)
Record Db := {
  exams : list Exam;
  questions : list Question;
  examAttempts : list ExamAttempt;
  answers : list Answer;
  nextAttemptId : Z;
  nextAnswerId : Z
}.

(** [DatabaseStorage], over a database that carries out every query. *)
Definition getExam (db : Db) (id : Z) : option Exam :=
  head (List.filter (fun e => (exam_id e =? id)%Z) (exams db)).

Definition getQuestionsByExamId (db : Db) (examId : Z) : list Question :=
  List.filter (fun q => (question_examId q =? examId)%Z) (questions db).

Definition getExamAttempt (db : Db) (id : Z) : option ExamAttempt :=
  head (List.filter (fun a => (attempt_id a =? id)%Z) (examAttempts db)).

Definition createExamAttempt (db : Db) (examId maxScore now : Z)
  : ExamAttempt * Db :=
  let attempt :=
    {| attempt_id := nextAttemptId db;
       attempt_examId := examId;
       startedAt := now;
       completedAt := None;
       score := None;
       maxScore := maxScore |} in
  (attempt,
   {| exams := exams db;
      questions := questions db;
      examAttempts := examAttempts db ++ [attempt];
      answers := answers db;
      nextAttemptId := nextAttemptId db + 1;
      nextAnswerId := nextAnswerId db |}).

Definition completeRow (id newScore now : Z) (a : ExamAttempt) : ExamAttempt :=
  if (attempt_id a =? id)%Z then
    {| attempt_id := attempt_id a;
       attempt_examId := attempt_examId a;
       startedAt := startedAt a;
       completedAt := Some now;
       score := Some newScore;
       maxScore := maxScore a |}
  else a.

Definition completeExamAttempt (db : Db) (id newScore now : Z)
  : Outcome ExamAttempt * Db :=
  let db' :=
    {| exams := exams db;
       questions := questions db;
       examAttempts := map (completeRow id newScore now) (examAttempts db);
       answers := answers db;
       nextAttemptId := nextAttemptId db;
       nextAnswerId := nextAnswerId db |} in
  match getExamAttempt db' id with
  | Some updatedAttempt => (Returns updatedAttempt, db')
  | None =>
      (Throws ("Exam attempt with id " +:+ numberToString id +:+ " not found"),
       db')
  end.

Definition createAnswer
  (db : Db) (attemptId questionId : Z) (answer : string) (isCorrect : bool)
  : Answer * Db :=
  let row :=
    {| answer_id := nextAnswerId db;
       attemptId := attemptId;
       answer_questionId := questionId;
       answer := answer;
       isCorrect := Some isCorrect |} in
  (row,
   {| exams := exams db;
      questions := questions db;
      examAttempts := examAttempts db;
      answers := answers db ++ [row];
      nextAttemptId := nextAttemptId db;
      nextAnswerId := nextAnswerId db + 1 |}).

Definition getAnswersByAttemptId (db : Db) (id : Z) : list Answer :=
  List.filter (fun a => (attemptId a =? id)%Z) (answers db).

(** Requests and responses.  An entry of the submitted batch:
    [submitted] is its [answer] field. *)
Record AnswerData := { questionId : Z; submitted : string }.

(** [req.body] under [answersSchema.parse]: the parsed batch, or the
    message of the [ZodError]. *)
Inductive Body :=
| InvalidBody (validationMessage : string)
| Batch (answers : list AnswerData).

Inductive Payload :=
| Message (message : string)
| AttemptCreated (attempt : ExamAttempt)
| Graded (attempt : ExamAttempt) (answers : list Answer) (score maxScore : Z).

Record Response := { status : Z; payload : Payload }.

(** [POST /api/exams/:id/attempts].  [id] is [parseInt(req.params.id)],
    [None] for [NaN]. *)
Definition startAttempt (db : Db) (id : option Z) (now : Z) : Response * Db :=
  match id with
  | None => ({| status := 400; payload := Message "Invalid exam ID" |}, db)
  | Some id =>
      match getExam db id with
      | None => ({| status := 404; payload := Message "Exam not found" |}, db)
      | Some exam =>
          let questions := getQuestionsByExamId db (exam_id exam) in
          let '(attempt, db') :=
            createExamAttempt db (exam_id exam) (Z.of_nat (length questions)) now in
          ({| status := 201; payload := AttemptCreated attempt |}, db')
      end
  end.

(** [new Map(questions.map(q => [q.id, q]))]: a later entry replaces an
    earlier one with the same key. *)
Definition questionsMap (questions : list Question) : gmap Z Question :=
  foldl (fun m q => <[question_id q := q]> m) ∅ questions.

(** The loop over the submitted answers, from the running [score]: the
    response of the early [return], or the final score.  The row handed to
    [insertAnswerSchema.parse] has its ids from the database and its answer
    from the validated body, so the parse accepts it. *)
Fixpoint processAnswers
  (attempt : ExamAttempt) (qmap : gmap Z Question)
  (answers : list AnswerData) (score : Z) (db : Db)
  : (Response + Z) * Db :=
  match answers with
  | [] => (inr score, db)
  | answerData :: rest =>
      match qmap !! questionId answerData with
      | None =>
          (inl {| status := 400;
                  payload :=
                    Message ("Question with ID " +:+
                             numberToString (questionId answerData) +:+
                             " not found in this exam") |},
           db)
      | Some question =>
          let isCorrect := isAnswerCorrect question (submitted answerData) in
          let score := if isCorrect then (score + 1)%Z else score in
          let '(_, db') :=
            createAnswer db (attempt_id attempt) (questionId answerData)
                         (submitted answerData) isCorrect in
          processAnswers attempt qmap rest score db'
      end
  end.

(** [POST /api/attempts/:id/answers]. *)
Definition submitAnswers (db : Db) (id : option Z) (body : Body) (now : Z)
  : Response * Db :=
  match id with
  | None => ({| status := 400; payload := Message "Invalid attempt ID" |}, db)
  | Some id =>
      match getExamAttempt db id with
      | None =>
          ({| status := 404; payload := Message "Exam attempt not found" |}, db)
      | Some attempt =>
          match completedAt attempt with
          | Some _ =>
              ({| status := 400;
                  payload := Message "Exam attempt already completed" |}, db)
          | None =>
              match body with
              | InvalidBody validationMessage =>
                  ({| status := 400; payload := Message validationMessage |}, db)
              | Batch answers =>
                  let questions := getQuestionsByExamId db (attempt_examId attempt) in
                  match processAnswers attempt (questionsMap questions)
                                       answers 0 db with
                  | (inl response, db1) => (response, db1)
                  | (inr score, db1) =>
                      match completeExamAttempt db1 (attempt_id attempt) score now with
                      | (Returns completedAttempt, db2) =>
                          ({| status := 200;
                              payload :=
                                Graded completedAttempt
                                       (getAnswersByAttemptId db2 (attempt_id attempt))
                                       score (maxScore attempt) |}, db2)
                      | (Throws _, db2) =>
                          ({| status := 500;
                              payload := Message "Failed to submit answers" |}, db2)
                      end
                  end
              end
          end
      end
  end.

End Routes.

(* ================================================================== *)
(** * Specification vocabulary *)
(* ================================================================== *)

(** [sub] occurs in [s]. *)
Definition Substring (sub s : string) : Prop :=
  exists pre post, s = pre +:+ sub +:+ post.

(** [s] is empty or holds whitespace only. *)
Fixpoint isBlank (s : string) : bool :=
  match s with
  | EmptyString => true
  | String c r => JS.isSpace c && isBlank r
  end.

(** Every character of [s] satisfies [p]. *)
Fixpoint allChars (p : ascii -> bool) (s : string) : bool :=
  match s with
  | EmptyString => true
  | String c r => p c && allChars p r
  end.

(** Some suffix of [s] is [e]. *)
Fixpoint endsWith (s e : string) : bool :=
  String.eqb s e ||
  match s with
  | EmptyString => false
  | String _ r => endsWith r e
  end.

(** [n] copies of the character [c]. *)
Fixpoint replicate (n : nat) (c : ascii) : string :=
  match n with
  | O => EmptyString
  | S n' => String c (replicate n' c)
  end.

(** ** Titles *)

Module TitleSpec.
Import JS Gemini.

Definition labelPatterns : list string := ["course"; "title"; "syllabus"].

(** [cap] is captured after an occurrence of [label] in [text]: the label
    in any letter case, an optional colon, whitespace, and then [cap], a
    non-empty run of letters, digits and whitespace. *)
Definition LabelOccurrence (label text cap : string) : Prop :=
  exists before found colon spaces after,
    text = before +:+ found +:+ colon +:+ spaces +:+ cap +:+ after /\
    toLowerCase found = toLowerCase label /\
    (colon = "" \/ colon = ":") /\
    isBlank spaces = true /\
    cap <> "" /\
    allChars isTitleChar cap = true.

(** The capture of the first label pattern that matches at all. *)
Definition firstMatch (text : string) : option string :=
  head (omap (fun label => matchLabel label text) labelPatterns).

(** The labels as the specification spells them, colon included. *)
Definition colonLabels : list string := ["course:"; "title:"; "syllabus:"].

(** The capture after the leftmost occurrence of [label], in any letter
    case, that is followed by one. *)
Fixpoint captureAfter (label text : string) : option string :=
  match
    match dropLabel label text with
    | Some r => spacesThenCapture r
    | None => None
    end
  with
  | Some cap => Some cap
  | None =>
      match text with
      | EmptyString => None
      | String _ r => captureAfter label r
      end
  end.

(** The first capture, over the labels in order, that is not empty once
    trimmed. *)
Definition firstNonEmptyCapture (text : string) : option string :=
  head (List.filter (fun t => negb (isEmpty t))
          (omap (fun label => option_map trim (captureAfter label text))
                colonLabels)).

Definition extensions : list string := [".pdf"; ".docx"; ".txt"].

(** The length of the extension that [filename] ends in, in any letter
    case; 0 when it ends in none. *)
Definition extensionLength (filename : string) : nat :=
  match List.find (endsWith (toLowerCase filename)) extensions with
  | Some e => String.length e
  | None => 0
  end.

(** [filename] without its extension, underscores turned into spaces. *)
Definition titleFromFilename (filename : string) : string :=
  underscoresToSpaces
    (substring0 (String.length filename - extensionLength filename) filename).

(** The title rule with "the first non-empty capture". *)
Definition firstNonEmptyCaptureTitle (content filename : string) : string :=
  match firstNonEmptyCapture (firstLines content) with
  | Some t => t
  | None => titleFromFilename filename
  end.

(** The title rule with "the capture of the first pattern that matches,
    unless it is blank". *)
Definition firstMatchTitle (content filename : string) : string :=
  match firstMatch (firstLines content) with
  | Some cap =>
      if isEmpty (trim cap) then titleFromFilename filename else trim cap
  | None => titleFromFilename filename
  end.

(** A syllabus whose [course] label captures a blank and whose [title]
    label names the course. *)
Definition blankCourseLabel : string :=
  "Course: (TBD)" +:+ String newline "Title: Algebra".

(** A syllabus that has the word "course" in its first line and no label. *)
Definition courseInProse : string :=
  "Introduction to the course" +:+ String newline "Biology 101".

End TitleSpec.

(** ** Truncation *)

Module TruncationSpec.
Import JS Gemini.

(** 15,000 characters on one line, and the same text with a second line. *)
Definition longLine : string := replicate 15000 "x".
Definition longLineExtended : string :=
  longLine +:+ String newline "course: Algebra".

Definition fiveMixed : ExamConfig :=
  {| type := MultipleChoice; questionCount := 5; difficulty := Mixed;
     topics := []; timeLimit := None |}.

Definition mockTopics (syllabusContent : string) (config : ExamConfig)
  (filename : string) : list string :=
  map topic
    (questions (generateMockExam syllabusContent config
                  (extractCourseTitle syllabusContent filename))).

(** Two texts with the same first twenty lines and no topic line. *)
Definition twentyLines : string :=
  join (String newline "") (List.repeat "week" 20).
Definition twentyLinesA : string := twentyLines +:+ String newline "appendix A".
Definition twentyLinesB : string := twentyLines +:+ String newline "appendix B".

End TruncationSpec.

(** ** Grading *)

Module GradingSpec.
Import JS Routes.

(** [answer] is the id of none of the question's options, in any letter
    case. *)
Definition unknownOptionId (question : Question) (answer : string) : Prop :=
  forall opts o,
    options question = Some opts -> In o opts ->
    toLowerCase (Gemini.id o) <> toLowerCase answer.

(** The key of the question is the id of one of its options. *)
Definition keyAmongOptions (question : Question) : Prop :=
  exists opts o,
    options question = Some opts /\ In o opts /\
    toLowerCase (Gemini.id o) = toLowerCase (correctAnswer question).

Definition fourOptions : list Gemini.Option :=
  [ {| Gemini.id := "a"; Gemini.text := "first" |};
    {| Gemini.id := "b"; Gemini.text := "second" |};
    {| Gemini.id := "c"; Gemini.text := "third" |};
    {| Gemini.id := "d"; Gemini.text := "fourth" |} ].

Definition mcQuestion (id : Z) (key : string) : Question :=
  {| question_id := id; question_examId := 1; content := "Which one?";
     questionType := "multiple-choice"; options := Some fourOptions;
     correctAnswer := key; topic := None; difficulty := None |}.

Definition saQuestion : Question :=
  {| question_id := 2; question_examId := 1; content := "Name the process.";
     questionType := "short-answer"; options := None;
     correctAnswer := "photosynthesis"; topic := None; difficulty := None |}.

(** Whether a batch entry is graded correct. *)
Definition gradedCorrect (qmap : gmap Z Question) (a : AnswerData) : bool :=
  match qmap !! questionId a with
  | Some question => isAnswerCorrect question (submitted a)
  | None => false
  end.

(** The number of batch entries graded correct. *)
Definition correctCount (qmap : gmap Z Question) (batch : list AnswerData) : Z :=
  Z.of_nat (length (List.filter (gradedCorrect qmap) batch)).

(** The rows that the loop inserts for a batch of known entries, the first
    with id [nextId]. *)
Fixpoint answerRows (attempt : ExamAttempt) (qmap : gmap Z Question)
  (batch : list AnswerData) (nextId : Z) : list Answer :=
  match batch with
  | [] => []
  | a :: rest =>
      {| answer_id := nextId;
         attemptId := attempt_id attempt;
         answer_questionId := questionId a;
         answer := submitted a;
         isCorrect := Some (gradedCorrect qmap a) |}
      :: answerRows attempt qmap rest (nextId + 1)
  end.

(** Every entry of the batch names a question of the map. *)
Definition allKnown (qmap : gmap Z Question) (batch : list AnswerData) : Prop :=
  Forall (fun a => is_Some (qmap !! questionId a)) batch.

(** The questions bound to an attempt. *)
Definition boundQuestions (db : Db) (attempt : ExamAttempt) : gmap Z Question :=
  questionsMap (getQuestionsByExamId db (attempt_examId attempt)).

(** A database with one exam of two questions and nothing else yet. *)
Definition anExam : Exam :=
  {| exam_id := 1; exam_title := "Biology - Easy Difficulty Exam";
     exam_syllabusId := 1; exam_type := "multiple-choice";
     exam_difficulty := "easy"; exam_questionCount := 2;
     exam_timeLimit := None; exam_topics := Some [];
     exam_createdAt := 1000 |}.

Definition freshDb : Db :=
  {| exams := [anExam];
     questions := [mcQuestion 1 "a"; saQuestion];
     examAttempts := [];
     answers := [];
     nextAttemptId := 1;
     nextAnswerId := 1 |}.

(** The same database once an attempt has been started. *)
Definition startedDb : Db := snd (startAttempt freshDb (Some 1%Z) 2000).

(** ... and once that attempt has been graded. *)
Definition gradedDb : Db :=
  snd (submitAnswers startedDb (Some 1%Z)
         (Batch [ {| questionId := 1; submitted := "A" |} ]) 3000).

End GradingSpec.

(** ** A parser for a fragment of JSON

    Objects, arrays, strings without escapes, integers and the three
    literals.  It stands in for [JSON.parse] where a concrete parser is
    needed; it rejects every text outside the fragment. *)

Module JsonFragment.
Import JS Gemini.

Definition isJsonSpace (c : ascii) : bool :=
  let n := N_of_ascii c in
  (n =? 32)%N || (n =? 9)%N || (n =? 10)%N || (n =? 13)%N.

Definition skipSpaces : string -> string := dropWhile isJsonSpace.

(** The characters of a string up to its closing quote, and what follows. *)
Fixpoint stringBody (s : string) : option (string * string) :=
  match s with
  | EmptyString => None
  | String c r =>
      if Ascii.eqb c "034" then Some (EmptyString, r)
      else if Ascii.eqb c "\" || (N_of_ascii c <? 32)%N then None
      else match stringBody r with
           | Some (body, rest) => Some (String c body, rest)
           | None => None
           end
  end.

(** An unsigned integer without a leading zero: its digits, and what
    follows. *)
Definition unsignedInteger (s : string) : option (string * string) :=
  let digits := takeWhile isDigit s in
  match digits with
  | EmptyString => None
  | String "0" (String _ _) => None
  | _ => Some (digits, dropWhile isDigit s)
  end.

Definition integer (s : string) : option (string * string) :=
  match s with
  | String "-" r =>
      match unsignedInteger r with
      | Some (digits, rest) => Some (String "-" digits, rest)
      | None => None
      end
  | _ => unsignedInteger s
  end.

Definition literal (word : string) (v : JsValue) (s : string)
  : option (JsValue * string) :=
  if startsWith s word
  then Some (v, String.substring (String.length word)
                   (String.length s - String.length word) s)
  else None.

(** [object[key] = v]: a repeated key keeps its place and takes the new
    value. *)
Fixpoint setProperty (key : string) (v : JsValue)
  (properties : list (string * JsValue)) : list (string * JsValue) :=
  match properties with
  | [] => [(key, v)]
  | (k, old) :: rest =>
      if String.eqb k key then (k, v) :: rest
      else (k, old) :: setProperty key v rest
  end.

Fixpoint value (fuel : nat) (s : string) {struct fuel}
  : option (JsValue * string) :=
  match fuel with
  | O => None
  | S fuel' =>
      match skipSpaces s with
      | EmptyString => None
      | String c r =>
          if Ascii.eqb c "{" then
            match skipSpaces r with
            | String "}" rest => Some (JsObject [], rest)
            | _ =>
                match members fuel' [] r with
                | Some (properties, rest) => Some (JsObject properties, rest)
                | None => None
                end
            end
          else if Ascii.eqb c "[" then
            match skipSpaces r with
            | String "]" rest => Some (JsArray [], rest)
            | _ =>
                match elements fuel' r with
                | Some (items, rest) => Some (JsArray items, rest)
                | None => None
                end
            end
          else if Ascii.eqb c "034" then
            match stringBody r with
            | Some (body, rest) => Some (JsString body, rest)
            | None => None
            end
          else if Ascii.eqb c "t" then literal "true" (JsBool true) (String c r)
          else if Ascii.eqb c "f" then literal "false" (JsBool false) (String c r)
          else if Ascii.eqb c "n" then literal "null" JsNull (String c r)
          else
            match integer (String c r) with
            | Some (digits, rest) => Some (JsNumber digits, rest)
            | None => None
            end
      end
  end
with members (fuel : nat) (seen : list (string * JsValue)) (s : string)
  {struct fuel} : option (list (string * JsValue) * string) :=
  match fuel with
  | O => None
  | S fuel' =>
      match skipSpaces s with
      | String "034" r =>
          match stringBody r with
          | Some (key, r1) =>
              match skipSpaces r1 with
              | String ":" r2 =>
                  match value fuel' r2 with
                  | Some (v, r3) =>
                      let seen' := setProperty key v seen in
                      match skipSpaces r3 with
                      | String "," r4 => members fuel' seen' r4
                      | String "}" r4 => Some (seen', r4)
                      | _ => None
                      end
                  | None => None
                  end
              | _ => None
              end
          | None => None
          end
      | _ => None
      end
  end
with elements (fuel : nat) (s : string) {struct fuel}
  : option (list JsValue * string) :=
  match fuel with
  | O => None
  | S fuel' =>
      match value fuel' s with
      | Some (v, r1) =>
          match skipSpaces r1 with
          | String "," r2 =>
              match elements fuel' r2 with
              | Some (items, rest) => Some (v :: items, rest)
              | None => None
              end
          | String "]" r2 => Some ([v], r2)
          | _ => None
          end
      | None => None
      end
  end.

(** The whole text must be one value.  A level of nesting consumes a
    character and at most two units of fuel. *)
Definition parse (text : string) : Outcome JsValue :=
  match value (2 * String.length text + 2) text with
  | Some (v, rest) =>
      if isEmpty (skipSpaces rest) then Returns v
      else Throws "SyntaxError: Unexpected non-whitespace character after JSON"
  | None => Throws "SyntaxError: Unexpected token"
  end.

(** A response that is prose with a brace region that is not JSON. *)
Definition apology : string := "Sorry, I cannot help with {that}.".

(** A response that wraps a JSON object in prose. *)
Definition wrapped : string :=
  "Here it is: {" +:+ quoted "title" +:+ ": " +:+ quoted "Quiz" +:+ ", " +:+
  quoted "questions" +:+ ": []} Good luck!".

End JsonFragment.

(** ** Property access on values of type [any] *)

Module Dynamic.
Import Gemini.

(** The own property [key] of an object, [None] for [undefined]. *)
Fixpoint ownProperty (key : string) (properties : list (string * JsValue))
  : option JsValue :=
  match properties with
  | [] => None
  | (k, v) :: rest => if String.eqb k key then Some v else ownProperty key rest
  end.

(** [v.key] for a key that no prototype defines and that is not [length]:
    a [TypeError] on [null], the own property of an object, [undefined] on
    every other value. *)
Definition propertyOf (key : string) (v : JsValue) : Outcome (option JsValue) :=
  match v with
  | JsNull =>
      Throws ("TypeError: Cannot read properties of null (reading '" +:+
              key +:+ "')")
  | JsObject properties => Returns (ownProperty key properties)
  | _ => Returns None
  end.

End Dynamic.

(** ** Topic extraction: [extractTopics] of [server/gemini.ts] *)

Module Topics.
Import JS Gemini Dynamic.

(** The template literal of [extractTopics], line by line. *)
Definition topicsPromptLines (excerpt : string) : list string :=
  [ "";
    "      You are an educational expert analyzing a course syllabus. ";
    "      Your task is to identify the main topics covered in this syllabus, along with their relative importance (on a scale of 1-10).";
    "      ";
    "      Syllabus:";
    "      " +:+ excerpt +:+ " // Limit content to avoid token limits";
    "      ";
    "      Create a JSON object with the following structure:";
    "      {";
    "        " +:+ quoted "topics" +:+ ": [";
    "          {";
    "            " +:+ quoted "name" +:+ ": " +:+ quoted "Topic name" +:+ ",";
    "            " +:+ quoted "importance" +:+ ": number (1-10)";
    "          }";
    "        ]";
    "      }";
    "      ";
    "      Identify between 5-15 distinct topics. Focus on academic content, not administrative details.";
    "      Return ONLY the JSON object without any other text or explanation.";
    "    " ].

Definition topicsPrompt (syllabusContent : string) : string :=
  join (String newline "")
       (topicsPromptLines (substring0 15000 syllabusContent)).

(** The object literal [{ name, importance }]. *)
Definition topicLiteral (name : string) (importance : Z) : JsValue :=
  JsObject [("name", JsString name);
            ("importance", JsNumber (numberToString importance))].

(** The default topics, returned at both places that give up on the model. *)
Definition defaultTopics : JsValue :=
  JsArray [ topicLiteral "Main Concepts" 10;
            topicLiteral "Key Definitions" 8;
            topicLiteral "Theoretical Frameworks" 7;
            topicLiteral "Applied Methodologies" 9;
            topicLiteral "Historical Context" 6;
            topicLiteral "Case Studies" 8;
            topicLiteral "Research Methods" 7 ].

(** [parsedResult.topics]. *)
Definition topicsProperty : JsValue -> Outcome (option JsValue) :=
  propertyOf "topics".

Section Extraction.

Variable JSON_parse : string -> Outcome JsValue.
Variable generateContent : string -> Outcome string.

(** Whether the number that a JSON number text denotes is zero. *)
Variable denotesZero : string -> bool.

(** The truth value of a value in a condition; [None] is [undefined]. *)
Definition truthy (v : option JsValue) : bool :=
  match v with
  | None => false
  | Some JsNull => false
  | Some (JsBool b) => b
  | Some (JsNumber literal) => negb (denotesZero literal)
  | Some (JsString s) => negb (isEmpty s)
  | Some (JsArray _) => true
  | Some (JsObject _) => true
  end.

(** [parsedResult.topics || []]. *)
Definition orEmptyArray (v : option JsValue) : JsValue :=
  match v with
  | Some topics => if truthy v then topics else JsArray []
  | None => JsArray []
  end.

(** [topics.length === 0], for a value that is not [null]: the length of
    an array or a string, the own [length] property of an object, and
    [undefined] on a number or a boolean. *)
Definition lengthIsZero (topics : JsValue) : bool :=
  match topics with
  | JsArray items => Nat.eqb (length items) 0
  | JsString s => Nat.eqb (String.length s) 0
  | JsObject properties =>
      match ownProperty "length" properties with
      | Some (JsNumber literal) => denotesZero literal
      | _ => false
      end
  | _ => false
  end.

(** [extractTopics]: the value that the promise resolves to, or the error
    that it rejects with. *)
Definition extractTopics (syllabusContent : string) : Outcome JsValue :=
  tryCatch
    (bindOutcome (generateContent (topicsPrompt syllabusContent))
       (fun responseText =>
          let parsedResult :=
            safeJsonParse JSON_parse (jsonContent responseText) in
          bindOutcome (topicsProperty parsedResult)
            (fun found =>
               let topics := orEmptyArray found in
               if lengthIsZero topics then Returns defaultTopics
               else Returns topics)))
    (fun error => Returns defaultTopics).

End Extraction.

End Topics.

(** ** The rest of the storage and of the routes *)

Module Storage.
Import JS Routes.

(** A row of the [syllabuses] table. *)
Record Syllabus := {
  syllabus_id : Z;
  filename : string;
  originalName : string;
  contentType : string;
  syllabus_content : string;
  uploadedAt : Z
}.

(** The whole database: the syllabuses, the tables of the grading routes,
    and the next value of the other serial columns. *)
Record Database := {
  syllabuses : list Syllabus;
  tables : Db;
  nextSyllabusId : Z;
  nextExamId : Z;
  nextQuestionId : Z
}.

Definition withTables (d : Database) (t : Db) : Database :=
  {| syllabuses := syllabuses d;
     tables := t;
     nextSyllabusId := nextSyllabusId d;
     nextExamId := nextExamId d;
     nextQuestionId := nextQuestionId d |}.

(** [orderBy(desc(key))]: rows with equal keys stay in table order. *)
Fixpoint insertDesc {A : Type} (key : A -> Z) (x : A) (sorted : list A)
  : list A :=
  match sorted with
  | [] => [x]
  | y :: rest =>
      if (key y <=? key x)%Z then x :: y :: rest
      else y :: insertDesc key x rest
  end.

Definition orderByDesc {A : Type} (key : A -> Z) (rows : list A) : list A :=
  foldr (insertDesc key) [] rows.

Definition createSyllabus (d : Database)
  (filename originalName contentType content : string) (now : Z)
  : Syllabus * Database :=
  let syllabus :=
    {| syllabus_id := nextSyllabusId d;
       filename := filename;
       originalName := originalName;
       contentType := contentType;
       syllabus_content := content;
       uploadedAt := now |} in
  (syllabus,
   {| syllabuses := syllabuses d ++ [syllabus];
      tables := tables d;
      nextSyllabusId := nextSyllabusId d + 1;
      nextExamId := nextExamId d;
      nextQuestionId := nextQuestionId d |}).

Definition getSyllabus (d : Database) (id : Z) : option Syllabus :=
  head (List.filter (fun s => (syllabus_id s =? id)%Z) (syllabuses d)).

Definition getAllSyllabuses (d : Database) : list Syllabus :=
  orderByDesc uploadedAt (syllabuses d).

Definition getExamsBySyllabusId (d : Database) (syllabusId : Z) : list Exam :=
  orderByDesc exam_createdAt
    (List.filter (fun e => (exam_syllabusId e =? syllabusId)%Z)
                 (exams (tables d))).

(** The first loop of the transaction of [deleteSyllabus]: the answers of
    each attempt in turn. *)
Definition deleteAnswersOf (attempts : list ExamAttempt) (rows : list Answer)
  : list Answer :=
  foldl (fun rows attemptObj =>
           List.filter (fun a => negb (attemptId a =? attempt_id attemptObj)%Z)
                       rows)
        rows attempts.

(** The body of the loop over the related exams: the answers of the
    attempts of the exam, then its attempts, then its questions. *)
Definition deleteExamData (t : Db) (exam : Exam) : Db :=
  let examAttemptsResult :=
    List.filter (fun a => (attempt_examId a =? exam_id exam)%Z)
                (examAttempts t) in
  {| exams := exams t;
     questions :=
       List.filter (fun q => negb (question_examId q =? exam_id exam)%Z)
                   (questions t);
     examAttempts :=
       List.filter (fun a => negb (attempt_examId a =? exam_id exam)%Z)
                   (examAttempts t);
     answers := deleteAnswersOf examAttemptsResult (answers t);
     nextAttemptId := nextAttemptId t;
     nextAnswerId := nextAnswerId t |}.

(** [deleteSyllabus]: whether a syllabus row was deleted, and the database
    after the transaction. *)
Definition deleteSyllabus (d : Database) (id : Z) : bool * Database :=
  let relatedExams := getExamsBySyllabusId d id in
  let t := foldl deleteExamData (tables d) relatedExams in
  let rowCount :=
    length (List.filter (fun s => (syllabus_id s =? id)%Z) (syllabuses d)) in
  ((0 <? rowCount)%nat,
   {| syllabuses :=
        List.filter (fun s => negb (syllabus_id s =? id)%Z) (syllabuses d);
      tables :=
        {| exams :=
             List.filter (fun e => negb (exam_syllabusId e =? id)%Z) (exams t);
           questions := questions t;
           examAttempts := examAttempts t;
           answers := answers t;
           nextAttemptId := nextAttemptId t;
           nextAnswerId := nextAnswerId t |};
      nextSyllabusId := nextSyllabusId d;
      nextExamId := nextExamId d;
      nextQuestionId := nextQuestionId d |}).

(** [createExam], on the row that the route builds from the title of the
    generated exam, the syllabus and the configuration. *)
Definition createExam (d : Database)
  (title : string) (syllabusId : Z) (config : Gemini.ExamConfig) (now : Z)
  : Exam * Database :=
  let exam :=
    {| exam_id := nextExamId d;
       exam_title := title;
       exam_syllabusId := syllabusId;
       exam_type := Gemini.typeName (Gemini.type config);
       exam_difficulty := Gemini.difficultyName (Gemini.difficulty config);
       exam_questionCount := Gemini.questionCount config;
       exam_timeLimit := Gemini.timeLimit config;
       exam_topics := Some (Gemini.topics config);
       exam_createdAt := now |} in
  let t := tables d in
  (exam,
   {| syllabuses := syllabuses d;
      tables :=
        {| exams := exams t ++ [exam];
           questions := questions t;
           examAttempts := examAttempts t;
           answers := answers t;
           nextAttemptId := nextAttemptId t;
           nextAnswerId := nextAnswerId t |};
      nextSyllabusId := nextSyllabusId d;
      nextExamId := nextExamId d + 1;
      nextQuestionId := nextQuestionId d |}).

(** The row that the route builds from a generated question. *)
Definition questionRow (id examId : Z) (questionData : Gemini.Question)
  : Question :=
  {| question_id := id;
     question_examId := examId;
     content := Gemini.content questionData;
     questionType := Gemini.questionType questionData;
     options :=
       match questionData with
       | Gemini.MC m => Some (Gemini.mc_options m)
       | Gemini.SA _ => None
       end;
     correctAnswer := Gemini.correctAnswer questionData;
     topic := Some (Gemini.topic questionData);
     difficulty := Some (Gemini.questionDifficulty questionData) |}.

(** [createQuestion], on that row. *)
Definition createQuestion (d : Database) (examId : Z)
  (questionData : Gemini.Question) : Question * Database :=
  let row := questionRow (nextQuestionId d) examId questionData in
  let t := tables d in
  (row,
   {| syllabuses := syllabuses d;
      tables :=
        {| exams := exams t;
           questions := questions t ++ [row];
           examAttempts := examAttempts t;
           answers := answers t;
           nextAttemptId := nextAttemptId t;
           nextAnswerId := nextAnswerId t |};
      nextSyllabusId := nextSyllabusId d;
      nextExamId := nextExamId d;
      nextQuestionId := nextQuestionId d + 1 |}).

(** Responses: a status with a message or with data. *)
Inductive Content (A : Type) : Type :=
| Notice (message : string)
| Data (data : A).
Arguments Notice {A} message.
Arguments Data {A} data.

Record Reply (A : Type) : Type := { code : Z; reply : Content A }.
Arguments code {A} r.
Arguments reply {A} r.

Definition notice {A : Type} (status : Z) (message : string) : Reply A :=
  {| code := status; reply := Notice message |}.

Definition success {A : Type} (status : Z) (data : A) : Reply A :=
  {| code := status; reply := Data data |}.

(** A syllabus without its content, as the upload and the listing send
    it. *)
Record SyllabusResponse := {
  response_id : Z;
  response_filename : string;
  response_originalName : string;
  response_contentType : string;
  response_uploadedAt : Z
}.

Definition withoutContent (s : Syllabus) : SyllabusResponse :=
  {| response_id := syllabus_id s;
     response_filename := filename s;
     response_originalName := originalName s;
     response_contentType := contentType s;
     response_uploadedAt := uploadedAt s |}.

(** [req.file]: the name under which the upload was stored, the name it
    had and its type. *)
Record UploadedFile := {
  file_filename : string;
  file_originalname : string;
  file_mimetype : string
}.

(** [POST /api/syllabuses].  [extracted] is the text read from the file,
    or the error of the reader. *)
Definition uploadSyllabus (d : Database) (file : option UploadedFile)
  (extracted : Outcome string) (now : Z)
  : Reply SyllabusResponse * Database :=
  match file with
  | None => (notice 400 "No file uploaded", d)
  | Some f =>
      match extracted with
      | Throws _ => (notice 500 "Failed to extract content from file", d)
      | Returns content =>
          let '(syllabus, d') :=
            createSyllabus d (file_filename f) (file_originalname f)
                           (file_mimetype f) content now in
          (success 201 (withoutContent syllabus), d')
      end
  end.

(** [GET /api/syllabuses]. *)
Definition listSyllabuses (d : Database) : Reply (list SyllabusResponse) :=
  success 200 (map withoutContent (getAllSyllabuses d)).

(** [GET /api/syllabuses/:id]. *)
Definition getSyllabusRoute (d : Database) (id : option Z) : Reply Syllabus :=
  match id with
  | None => notice 400 "Invalid syllabus ID"
  | Some id =>
      match getSyllabus d id with
      | None => notice 404 "Syllabus not found"
      | Some syllabus => success 200 syllabus
      end
  end.

(** [DELETE /api/syllabuses/:id].  The uploaded file is unlinked before the
    rows are deleted; a notice to unlink is logged and changes nothing. *)
Definition deleteSyllabusRoute (d : Database) (id : option Z)
  : Reply unit * Database :=
  match id with
  | None => (notice 400 "Invalid syllabus ID", d)
  | Some id =>
      match getSyllabus d id with
      | None => (notice 404 "Syllabus not found", d)
      | Some syllabus =>
          let '(deleted, d') := deleteSyllabus d id in
          if deleted
          then (notice 200 "Syllabus deleted successfully", d')
          else (notice 500 "Failed to delete syllabus", d')
      end
  end.

(** [GET /api/syllabuses/:id/exams]. *)
Definition getExamsRoute (d : Database) (id : option Z) : Reply (list Exam) :=
  match id with
  | None => notice 400 "Invalid syllabus ID"
  | Some id =>
      match getSyllabus d id with
      | None => notice 404 "Syllabus not found"
      | Some syllabus => success 200 (getExamsBySyllabusId d (syllabus_id syllabus))
      end
  end.

(** [GET /api/exams/:id]: the exam with its questions. *)
Definition getExamRoute (t : Db) (id : option Z)
  : Reply (Exam * list Question) :=
  match id with
  | None => notice 400 "Invalid exam ID"
  | Some id =>
      match getExam t id with
      | None => notice 404 "Exam not found"
      | Some exam => success 200 (exam, getQuestionsByExamId t (exam_id exam))
      end
  end.

(** The part of [POST /api/syllabuses/:id/exams] that saves a generated
    exam of the declared type [Exam]: the exam row, a question row for each
    generated question in turn, and the 201 response with the exam and the
    questions read back. *)
Definition saveQuestions (examId : Z) (generated : list Gemini.Question)
  (d : Database) : Database :=
  foldl (fun d questionData => snd (createQuestion d examId questionData))
        d generated.

Definition saveGeneratedExam (d : Database) (syllabus : Syllabus)
  (config : Gemini.ExamConfig) (generatedExam : Gemini.Exam) (now : Z)
  : Reply (Exam * list Question) * Database :=
  let '(exam, d1) :=
    createExam d (Gemini.title generatedExam) (syllabus_id syllabus) config now in
  let d2 := saveQuestions (exam_id exam) (Gemini.questions generatedExam) d1 in
  (success 201 (exam, getQuestionsByExamId (tables d2) (exam_id exam)), d2).

(** A detailed result: the question, the stored answer and its mark. *)
Record ResultEntry := {
  result_question : option Question;
  result_answer : Answer;
  result_isCorrect : option bool
}.

Record Results := {
  results_attempt : ExamAttempt;
  results : list ResultEntry;
  results_score : option Z;
  results_maxScore : Z
}.

(** [GET /api/attempts/:id/results]. *)
Definition getResults (t : Db) (id : option Z) : Reply Results :=
  match id with
  | None => notice 400 "Invalid attempt ID"
  | Some id =>
      match getExamAttempt t id with
      | None => notice 404 "Exam attempt not found"
      | Some attempt =>
          match completedAt attempt with
          | None => notice 400 "Exam attempt not yet completed"
          | Some _ =>
              let answers := getAnswersByAttemptId t (attempt_id attempt) in
              let qmap :=
                questionsMap (getQuestionsByExamId t (attempt_examId attempt)) in
              success 200
                {| results_attempt := attempt;
                   results :=
                     map (fun answer =>
                            {| result_question := qmap !! answer_questionId answer;
                               result_answer := answer;
                               result_isCorrect := isCorrect answer |})
                         answers;
                   results_score := score attempt;
                   results_maxScore := maxScore attempt |}
          end
      end
  end.

End Storage.

(** ** The pages of the client *)

Module Client.
Import JS.

(** *** The file uploader *)

(** [s.replace(".", "")]: the first occurrence is removed. *)
Fixpoint removeFirst (c : ascii) (s : string) : string :=
  match s with
  | EmptyString => EmptyString
  | String x r => if Ascii.eqb x c then r else String x (removeFirst c r)
  end.

(** The accepted extensions, from the attribute [accept]. *)
Definition acceptedTypes (accept : string) : list string :=
  map (fun type => toLowerCase (removeFirst "." (trim type)))
      (split "," accept).

(** [file.name.split(".").pop()?.toLowerCase() || ""]. *)
Definition fileExtension (name : string) : string :=
  match last (split "." name) with
  | Some extension => toLowerCase extension
  | None => EmptyString
  end.

(** [a.includes(x)] for an array of strings. *)
Definition arrayIncludes (a : list string) (x : string) : bool :=
  existsb (String.eqb x) a.

(** What [validateAndProcessFile] does with a file: one of the two
    notices, or the call of [onFileSelected]. *)
Inductive Verdict := InvalidFileType | FileTooLarge | FileSelected.

(** [validateAndProcessFile], for a file of [size] bytes and a limit of
    [maxSize] whole megabytes.  The division of the size by 1024 * 1024 is
    exact, so the comparison is the one of the integers. *)
Definition validateAndProcessFile
  (accept : string) (maxSize : Z) (name : string) (size : Z) : Verdict :=
  if negb (arrayIncludes (acceptedTypes accept) (fileExtension name))
  then InvalidFileType
  else if (maxSize * (1024 * 1024) <? size)%Z then FileTooLarge
  else FileSelected.

Definition defaultAccept : string := ".pdf,.docx,.txt".
Definition defaultMaxSize : Z := 10.

(** *** The exam page *)

Fixpoint padding (n : nat) (fill : ascii) : string :=
  match n with
  | O => EmptyString
  | S n' => String fill (padding n' fill)
  end.

(** [s.padStart(targetLength, fill)] for a fill of one character. *)
Definition padStart (targetLength : nat) (fill : ascii) (s : string) : string :=
  padding (targetLength - String.length s) fill +:+ s.

(** [formatTime], for a whole number of seconds. *)
Definition formatTime (seconds : Z) : string :=
  let minutes := (seconds / 60)%Z in
  let remainingSeconds := Z.rem seconds 60 in
  numberToString minutes +:+ ":" +:+
  padStart 2 "0" (numberToString remainingSeconds).

(** [Map<number, string>]: the entries in insertion order. *)
Definition AnswerMap : Type := list (Z * string).

(** [m.set(key, value)]: the value of a key that is there is replaced in
    its place, a new key is added at the end. *)
Fixpoint mapSet (m : AnswerMap) (key : Z) (value : string) : AnswerMap :=
  match m with
  | [] => [(key, value)]
  | (k, v) :: rest =>
      if (k =? key)%Z then (k, value) :: rest
      else (k, v) :: mapSet rest key value
  end.

Definition handleMultipleChoiceAnswer
  (userAnswers : AnswerMap) (questionId : Z) (optionId : string) : AnswerMap :=
  mapSet userAnswers questionId optionId.

Definition handleShortAnswerInput
  (userAnswers : AnswerMap) (questionId : Z) (value : string) : AnswerMap :=
  mapSet userAnswers questionId value.

(** The body that the page posts to the answers route. *)
Definition answersArray (userAnswers : AnswerMap) : list Routes.AnswerData :=
  map (fun entry =>
         {| Routes.questionId := fst entry; Routes.submitted := snd entry |})
      userAnswers.

(** *** The simple exam page *)

(** The test of the loop of [handleSubmit]; [answer] is [answers[index]],
    which is undefined for a question that was not answered. *)
Definition isCounted (question : Gemini.Question) (answer : option string)
  : bool :=
  String.eqb (Gemini.questionType question) "multiple-choice" &&
  match answer with
  | Some a => String.eqb a (Gemini.correctAnswer question)
  | None => false
  end.

(** The loop of [handleSubmit] from position [index]: the value of
    [correctAnswers] after it. *)
Fixpoint countFrom (index : nat) (questions : list Gemini.Question)
  (answers : gmap nat string) (correctAnswers : nat) : nat :=
  match questions with
  | [] => correctAnswers
  | question :: rest =>
      countFrom (S index) rest answers
        (if isCounted question (answers !! index)
         then S correctAnswers else correctAnswers)
  end.

Definition correctAnswersOf (questions : list Gemini.Question)
  (answers : gmap nat string) : nat :=
  countFrom 0 questions answers 0.

End Client.

(** ** Vocabulary for the further properties *)

Module TextSpec.
Import JS.

(** The last character of [s] is not whitespace. *)
Fixpoint endsNonSpace (s : string) : bool :=
  match s with
  | EmptyString => false
  | String c EmptyString => negb (isSpace c)
  | String _ r => endsNonSpace r
  end.

(** The first character of [s] is not whitespace. *)
Definition startsNonSpace (s : string) : bool :=
  match s with
  | EmptyString => false
  | String c _ => negb (isSpace c)
  end.

(** [c] does not occur in [s]. *)
Definition noChar (c : ascii) (s : string) : bool :=
  allChars (fun x => negb (Ascii.eqb x c)) s.

End TextSpec.

Module TopicsSpec.
Import JS Gemini.

(** A response that wraps one topic, with an importance outside 1 to 10,
    in prose. *)
Definition oneTopic : string :=
  "Sure: {" +:+ quoted "topics" +:+ ": [{" +:+ quoted "name" +:+ ": " +:+
  quoted "Cells" +:+ ", " +:+ quoted "importance" +:+ ": 42}]}".

(** Whether an integer text denotes zero. *)
Definition integerIsZero (literal : string) : bool :=
  String.eqb literal "0" || String.eqb literal "-0".

End TopicsSpec.

Module RouteSpec.
Import Routes GradingSpec.

(** The entries of a batch before the first one that names no question of
    the map. *)
Fixpoint knownPrefix (qmap : gmap Z Question) (batch : list AnswerData)
  : list AnswerData :=
  match batch with
  | [] => []
  | a :: rest =>
      match qmap !! questionId a with
      | Some _ => a :: knownPrefix qmap rest
      | None => []
      end
  end.

(** The ids drawn from the two serial columns are below the next value of
    the column and are not repeated. *)
Definition SerialsFresh (db : Db) : Prop :=
  Forall (fun a => (attempt_id a < nextAttemptId db)%Z) (examAttempts db) /\
  Forall (fun a => (answer_id a < nextAnswerId db)%Z) (answers db) /\
  NoDup (map attempt_id (examAttempts db)) /\
  NoDup (map answer_id (answers db)).

(** An attempt once it is completed with a score. *)
Definition completedWith (attempt : ExamAttempt) (points now : Z) : ExamAttempt :=
  {| attempt_id := attempt_id attempt;
     attempt_examId := attempt_examId attempt;
     startedAt := startedAt attempt;
     completedAt := Some now;
     score := Some points;
     maxScore := maxScore attempt |}.

(** The number of rows marked correct. *)
Definition markedCorrect (rows : list Answer) : Z :=
  Z.of_nat (length (List.filter
                      (fun a => match isCorrect a with
                                | Some true => true
                                | _ => false
                                end) rows)).

End RouteSpec.

Module DeleteSpec.
Import Routes Storage.

Definition memberZ (x : Z) (l : list Z) : bool :=
  existsb (fun y => (x =? y)%Z) l.

(** The ids of the exams of a syllabus. *)
Definition relatedExamIds (d : Database) (id : Z) : list Z :=
  map exam_id
      (List.filter (fun e => (exam_syllabusId e =? id)%Z) (exams (tables d))).

(** The ids of the attempts on the exams of a syllabus. *)
Definition relatedAttemptIds (d : Database) (id : Z) : list Z :=
  map attempt_id
      (List.filter
         (fun a => memberZ (attempt_examId a) (relatedExamIds d id))
         (examAttempts (tables d))).

(** The tables without the questions and the attempts of the exams with
    the given ids, and without the answers of those attempts. *)
Definition withoutExams (t : Db) (ids : list Z) : Db :=
  {| exams := exams t;
     questions :=
       List.filter (fun q => negb (memberZ (question_examId q) ids))
                   (questions t);
     examAttempts :=
       List.filter (fun a => negb (memberZ (attempt_examId a) ids))
                   (examAttempts t);
     answers :=
       List.filter
         (fun r =>
            negb (memberZ (attemptId r)
                    (map attempt_id
                       (List.filter
                          (fun a => memberZ (attempt_examId a) ids)
                          (examAttempts t)))))
         (answers t);
     nextAttemptId := nextAttemptId t;
     nextAnswerId := nextAnswerId t |}.

(** Every row that refers to a row of another table finds one there. *)
Definition Referential (d : Database) : Prop :=
  (forall e, In e (exams (tables d)) ->
     exists s, In s (syllabuses d) /\ syllabus_id s = exam_syllabusId e) /\
  (forall q, In q (questions (tables d)) ->
     exists e, In e (exams (tables d)) /\ exam_id e = question_examId q) /\
  (forall a, In a (examAttempts (tables d)) ->
     exists e, In e (exams (tables d)) /\ exam_id e = attempt_examId a) /\
  (forall r, In r (answers (tables d)) ->
     exists a, In a (examAttempts (tables d)) /\ attempt_id a = attemptId r).

(** Two syllabuses; the first has the exam of [GradingSpec.gradedDb] with
    its questions, its attempt and its answer. *)
Definition biology : Syllabus :=
  {| syllabus_id := 1; filename := "3f2a.pdf"; originalName := "bio_101.pdf";
     contentType := "application/pdf"; syllabus_content := "Course: Biology";
     uploadedAt := 500 |}.

Definition algebra : Syllabus :=
  {| syllabus_id := 2; filename := "77c1.txt"; originalName := "algebra.txt";
     contentType := "text/plain"; syllabus_content := "Course: Algebra";
     uploadedAt := 600 |}.

Definition twoSyllabuses : Database :=
  {| syllabuses := [biology; algebra];
     tables := GradingSpec.gradedDb;
     nextSyllabusId := 3;
     nextExamId := 2;
     nextQuestionId := 3 |}.

End DeleteSpec.

Module ExamSpec.
Import JS Routes Storage.

(** The rows that the loop of the route inserts for the generated
    questions, the first with id [nextId]. *)
Fixpoint savedRows (examId nextId : Z) (generated : list Gemini.Question)
  : list Question :=
  match generated with
  | [] => []
  | questionData :: rest =>
      questionRow nextId examId questionData
      :: savedRows examId (nextId + 1) rest
  end.

(** The id that the next exam gets is not in use: no stored exam has it
    and no stored question refers to it. *)
Definition NextExamUnused (d : Database) : Prop :=
  Forall (fun e => exam_id e <> nextExamId d) (exams (tables d)) /\
  Forall (fun q => question_examId q <> nextExamId d) (questions (tables d)).

(** The id that the next syllabus gets is not in use. *)
Definition NextSyllabusUnused (d : Database) : Prop :=
  Forall (fun s => syllabus_id s <> nextSyllabusId d) (syllabuses d).

(** The id that the next attempt gets is not in use. *)
Definition NextAttemptUnused (t : Db) : Prop :=
  Forall (fun a => attempt_id a <> nextAttemptId t) (examAttempts t).

(** A batch with the same answer to each of the questions. *)
Definition answerAll (rows : list Question) (text : string)
  : list AnswerData :=
  map (fun q => {| questionId := question_id q; submitted := text |}) rows.

(** An answer for the questions of a mock exam: the first option, in upper
    case, for multiple choice and nothing for a short answer. *)
Definition mockKey (t : Gemini.ExamType) : string :=
  match t with
  | Gemini.MultipleChoice => "A"
  | Gemini.ShortAnswer => ""
  end.

(** An upload and a configuration for the examples. *)
Definition chemistryFile : UploadedFile :=
  {| file_filename := "9b1e.txt"; file_originalname := "chem_201.txt";
     file_mimetype := "text/plain" |}.

Definition threeEasy : Gemini.ExamConfig :=
  {| Gemini.type := Gemini.MultipleChoice; Gemini.questionCount := 3;
     Gemini.difficulty := Gemini.Easy; Gemini.topics := [];
     Gemini.timeLimit := None |}.

End ExamSpec.

Module ClientSpec.
Import JS Client.

(** What a candidate does on the exam page: choose an option or type an
    answer. *)
Inductive AnswerEvent :=
| Chose (questionId : Z) (optionId : string)
| Typed (questionId : Z) (value : string).

Definition eventQuestion (e : AnswerEvent) : Z :=
  match e with Chose q _ => q | Typed q _ => q end.

Definition eventAnswer (e : AnswerEvent) : string :=
  match e with Chose _ a => a | Typed _ a => a end.

Definition handle (userAnswers : AnswerMap) (e : AnswerEvent) : AnswerMap :=
  match e with
  | Chose q optionId => handleMultipleChoiceAnswer userAnswers q optionId
  | Typed q value => handleShortAnswerInput userAnswers q value
  end.

(** The answers of the page after a sequence of events, from the empty
    map. *)
Definition afterEvents (events : list AnswerEvent) : AnswerMap :=
  foldl handle [] events.

(** The answer of the latest event for a question. *)
Definition lastAnswer (events : list AnswerEvent) (questionId : Z)
  : option string :=
  option_map eventAnswer
    (List.find (fun e => (eventQuestion e =? questionId)%Z) (rev events)).

(** [m.get(key)]. *)
Fixpoint mapGet (m : AnswerMap) (key : Z) : option string :=
  match m with
  | [] => None
  | (k, v) :: rest => if (k =? key)%Z then Some v else mapGet rest key
  end.

(** Exactly two decimal digits. *)
Definition isTwoDigits (s : string) : bool :=
  match s with
  | String a (String b EmptyString) => isDigit a && isDigit b
  | _ => false
  end.

(** The number of seconds that a text of the form minutes:seconds
    denotes. *)
Definition shownSeconds (shown : string) : option Z :=
  match split ":" shown with
  | [m; s] =>
      match NilEmpty.int_of_string m, NilEmpty.int_of_string s with
      | Some a, Some b => Some (Z.of_int a * 60 + Z.of_int b)%Z
      | _, _ => None
      end
  | _ => None
  end.

(** The number of multiple-choice questions. *)
Definition multipleChoiceCount (questions : list Gemini.Question) : nat :=
  length (List.filter
            (fun q => String.eqb (Gemini.questionType q) "multiple-choice")
            questions).

End ClientSpec.

(** ** The built-ins of the language, for every text *)

(** [JS.toLowerCase], [JS.toUpperCase] and [JS.isSpace] are the built-ins
    on the ASCII range.  Outside it the language maps letters by the
    Unicode tables, some of them by their context and some to more than
    one character, and it takes further characters as white space.  The
    definitions of this part read the built-ins from an interface that
    holds what ECMA-262 fixes of them and that the proofs use; the ASCII
    built-ins are one instance of it, and every theorem over the interface
    holds for the built-ins of the language as well. *)

Module Runtime.

(** A character of the ASCII range, and a text of such characters. *)
Definition isAscii (c : ascii) : bool := (N_of_ascii c <? 128)%N.

Fixpoint isAsciiText (s : string) : bool :=
  match s with
  | EmptyString => true
  | String c r => isAscii c && isAsciiText r
  end.

(** [isWhiteSpace]: the characters WhiteSpace and LineTerminator, which
    [trim] removes and the class [\s] matches.  [toLowerCase] and
    [toUpperCase]: the methods of [String.prototype].  On ASCII text they
    are the ASCII built-ins, and the lower case of a text that is not
    empty is not empty. *)
Record Builtins := {
  isWhiteSpace : ascii -> bool;
  toLowerCase : string -> string;
  toUpperCase : string -> string;
  isWhiteSpace_ascii :
    forall c, isAscii c = true -> isWhiteSpace c = JS.isSpace c;
  toLowerCase_ascii :
    forall s, isAsciiText s = true -> toLowerCase s = JS.toLowerCase s;
  toUpperCase_ascii :
    forall s, isAsciiText s = true -> toUpperCase s = JS.toUpperCase s;
  toLowerCase_empty :
    forall s, toLowerCase s = EmptyString -> s = EmptyString
}.

(** The ASCII built-ins. *)
Definition asciiBuiltins : Builtins :=
  {| isWhiteSpace := JS.isSpace;
     toLowerCase := JS.toLowerCase;
     toUpperCase := JS.toUpperCase;
     isWhiteSpace_ascii := fun c _ => eq_refl;
     toLowerCase_ascii := fun s _ => eq_refl;
     toUpperCase_ascii := fun s _ => eq_refl;
     toLowerCase_empty :=
       fun s =>
         match s with
         | EmptyString => fun _ => eq_refl
         | String c r =>
             fun H : JS.toLowerCase (String c r) = EmptyString =>
               match
                 H in (_ = t)
                 return (match t with
                         | EmptyString => String c r = EmptyString
                         | String _ _ => True
                         end)
               with
               | eq_refl => I
               end
         end |}.

End Runtime.

(** ** The grader and the title over the built-ins of the language *)

Module Native.
Import JS.

Section WithBuiltins.
Context (B : Runtime.Builtins).

(** [s.trim()]. *)
Fixpoint trimStart (s : string) : string :=
  match s with
  | EmptyString => EmptyString
  | String c r => if Runtime.isWhiteSpace B c then trimStart r else s
  end.

Fixpoint trimEnd (s : string) : string :=
  match s with
  | EmptyString => EmptyString
  | String c r =>
      let r' := trimEnd r in
      if Runtime.isWhiteSpace B c && isEmpty r' then EmptyString
      else String c r'
  end.

Definition trim (s : string) : string := trimEnd (trimStart s).

(** [[a-z0-9\s]] under the [i] flag.  The flag adds the upper-case ASCII
    letters and no other character: a character outside ASCII is not
    taken for an ASCII letter. *)
Definition isTitleChar (c : ascii) : bool :=
  isLower c || isUpper c || isDigit c || Runtime.isWhiteSpace B c.

(** [([a-z0-9\s]+)] at the start of [s]: the longest run, which must not
    be empty. *)
Definition captureRun (s : string) : option string :=
  let run := takeWhile isTitleChar s in
  if isEmpty run then None else Some run.

(** [\s*([a-z0-9\s]+)] at the start of [s].  The star is greedy: it takes
    a whitespace character when there is one and gives it back only when
    the rest cannot match. *)
Fixpoint spacesThenCapture (s : string) : option string :=
  match s with
  | EmptyString => captureRun s
  | String c r =>
      if Runtime.isWhiteSpace B c then
        match spacesThenCapture r with
        | Some cap => Some cap
        | None => captureRun s
        end
      else captureRun s
  end.

(** [:?\s*([a-z0-9\s]+)] at the start of [s]: the colon is taken when it
    is there, and skipped as a second choice. *)
Definition colonThenCapture (s : string) : option string :=
  match s with
  | String ":" r =>
      match spacesThenCapture r with
      | Some cap => Some cap
      | None => spacesThenCapture s
      end
  | _ => spacesThenCapture s
  end.

(** [/label:?\s*([a-z0-9\s]+)/i] anchored at the start of [s]. *)
Definition matchLabelHere (label s : string) : option string :=
  match dropLabel label s with
  | Some r => colonThenCapture r
  | None => None
  end.

(** [s.match(/label:?\s*([a-z0-9\s]+)/i)]: capture group 1 of the
    leftmost match, [None] for [null]. *)
Fixpoint matchLabel (label s : string) : option string :=
  match matchLabelHere label s with
  | Some cap => Some cap
  | None =>
      match s with
      | EmptyString => None
      | String _ r => matchLabel label r
      end
  end.

(** [extractCourseTitle]. *)
Definition courseMatch (content : string) : option string :=
  match matchLabel "course" (Gemini.firstLines content) with
  | Some cap => Some cap
  | None =>
      match matchLabel "title" (Gemini.firstLines content) with
      | Some cap => Some cap
      | None => matchLabel "syllabus" (Gemini.firstLines content)
      end
  end.

Definition extractCourseTitle (content filename : string) : string :=
  match courseMatch content with
  | Some cap =>
      if isEmpty (trim cap) then Gemini.filenameTitle filename else trim cap
  | None => Gemini.filenameTitle filename
  end.

(** [isAnswerCorrect]. *)
Definition isAnswerCorrect (question : Routes.Question) (answer : string)
  : bool :=
  if String.eqb (Routes.questionType question) "multiple-choice" then
    String.eqb (Runtime.toLowerCase B answer)
               (Runtime.toLowerCase B (Routes.correctAnswer question))
  else if String.eqb (Routes.questionType question) "short-answer" then
    let cleanAnswer := trim (Runtime.toLowerCase B answer) in
    let cleanCorrect :=
      trim (Runtime.toLowerCase B (Routes.correctAnswer question)) in
    String.eqb cleanAnswer cleanCorrect ||
    includes cleanCorrect cleanAnswer ||
    includes cleanAnswer cleanCorrect
  else false.

End WithBuiltins.

End Native.

(** ** The configuration as the schema admits it *)

(** [examConfigSchema] asks of [questionCount] a number from 5 to 50 and
    not that it is whole, and the loop of [generateMockExam] compares its
    counter with that number.  Here the count is a rational number;
    [Gemini.ExamConfig] is the configuration whose numbers are whole. *)

Module Schema.
Import QArith_base Qround.

Record ExamConfig := {
  type : Gemini.ExamType;
  questionCount : Q;
  difficulty : Gemini.Difficulty;
  topics : list string;
  timeLimit : option Q
}.

(** What [examConfigSchema] demands of the count: [z.number().min(5).max(50)]. *)
Definition examConfigSchema (config : ExamConfig) : bool :=
  Qle_bool 5 (questionCount config) && Qle_bool (questionCount config) 50.

(** [i < bound]. *)
Definition lessThan (i : nat) (bound : Q) : bool :=
  negb (Qle_bool bound (inject_Z (Z.of_nat i))).

(** [for (; i < bound; i++)]: the values of [i] for which the body runs,
    in at most [steps] rounds. *)
Fixpoint loopFrom (steps i : nat) (bound : Q) : list nat :=
  match steps with
  | O => []
  | S steps' =>
      if lessThan i bound then i :: loopFrom steps' (S i) bound else []
  end.

(** [for (let i = 0; i < bound; i++)].  The rounds are as many as the
    least whole number that is not below the bound. *)
Definition loopIndices (bound : Q) : list nat :=
  loopFrom (Z.to_nat (Qceiling bound)) 0%nat bound.

(** The body of the loop of [generateMockExam] at index [i]. *)
Definition mockQuestion (lines : list string) (config : ExamConfig) (i : nat)
  : Gemini.Question :=
  let topic := Gemini.topicOf (Gemini.baseText lines i) in
  let difficulty := Gemini.mockDifficulty (difficulty config) i in
  let number := JS.numberToString (Z.of_nat i + 1) in
  match type config with
  | Gemini.MultipleChoice =>
      Gemini.MC
        {| Gemini.mc_content :=
             "Question " +:+ number +:+
             ": Which of the following best describes " +:+
             JS.quoted topic +:+ "?";
           Gemini.mc_options :=
             [ {| Gemini.id := "a";
                  Gemini.text :=
                    "The primary framework for understanding " +:+ topic |};
               {| Gemini.id := "b";
                  Gemini.text := "A secondary concept related to " +:+ topic |};
               {| Gemini.id := "c";
                  Gemini.text := "An application method for " +:+ topic |};
               {| Gemini.id := "d";
                  Gemini.text :=
                    "The historical development of " +:+ topic |} ];
           Gemini.mc_correctAnswer := "a";
           Gemini.mc_topic := topic;
           Gemini.mc_difficulty := difficulty |}
  | Gemini.ShortAnswer =>
      Gemini.SA
        {| Gemini.sa_content :=
             "Question " +:+ number +:+
             ": Briefly explain the concept of " +:+
             JS.quoted topic +:+ " and its significance.";
           Gemini.sa_correctAnswer :=
             topic +:+ " is a fundamental concept that involves understanding the core principles and applying them appropriately in context.";
           Gemini.sa_topic := topic;
           Gemini.sa_difficulty := difficulty |}
  end.

(** [generateMockExam]. *)
Definition generateMockExam
  (syllabusContent : string) (config : ExamConfig) (courseTitle : string)
  : Gemini.Exam :=
  let lines := Gemini.relevantLines syllabusContent in
  {| Gemini.title := Gemini.mockTitle courseTitle (difficulty config);
     Gemini.questions :=
       map (mockQuestion lines config) (loopIndices (questionCount config)) |}.

(** [whole] is [config] with its numbers, which are whole, as integers:
    the configuration that the integer columns of the exams table can
    hold. *)
Definition Whole (config : ExamConfig) (whole : Gemini.ExamConfig) : Prop :=
  type config = Gemini.type whole /\
  questionCount config == inject_Z (Gemini.questionCount whole) /\
  difficulty config = Gemini.difficulty whole /\
  topics config = Gemini.topics whole /\
  match timeLimit config, Gemini.timeLimit whole with
  | Some t, Some z => t == inject_Z z
  | None, None => True
  | _, _ => False
  end.

(** The words for the two types and for the difficulties that are not
    mixed, and the difficulty by position of a mixed exam. *)
Definition typeWord (t : Gemini.ExamType) : string :=
  match t with
  | Gemini.MultipleChoice => "multiple-choice"
  | Gemini.ShortAnswer => "short-answer"
  end.

Definition difficultyWord (d : Gemini.Difficulty) (i : nat) : string :=
  match d with
  | Gemini.Easy => "easy"
  | Gemini.Medium => "medium"
  | Gemini.Hard => "hard"
  | Gemini.Mixed =>
      match (i mod 3)%nat with
      | O => "easy"
      | S O => "medium"
      | _ => "hard"
      end
  end.

(** A count that the schema admits and that is not whole. *)
Definition fiveAndAHalf : ExamConfig :=
  {| type := Gemini.MultipleChoice; questionCount := 11 # 2;
     difficulty := Gemini.Mixed; topics := []; timeLimit := None |}.

(** The least configuration that the schema admits, in both forms. *)
Definition fiveEasy : ExamConfig :=
  {| type := Gemini.MultipleChoice; questionCount := 5;
     difficulty := Gemini.Easy; topics := []; timeLimit := None |}.

Definition fiveEasyWhole : Gemini.ExamConfig :=
  {| Gemini.type := Gemini.MultipleChoice; Gemini.questionCount := 5;
     Gemini.difficulty := Gemini.Easy; Gemini.topics := [];
     Gemini.timeLimit := None |}.

End Schema.

(** ** Vocabulary for the grading and title rules *)

Module TextRule.

(** Characters by their codes. *)
Definition letterCode (n : N) : bool :=
  ((65 <=? n) && (n <=? 90) || (97 <=? n) && (n <=? 122))%N.

Definition digitCode (n : N) : bool := ((48 <=? n) && (n <=? 57))%N.

(** The code of the lower-case letter for the codes of A to Z, the code
    itself otherwise. *)
Definition lowerCode (n : N) : N :=
  if ((65 <=? n) && (n <=? 90))%N then (n + 32)%N else n.

(** Tab, line feed, vertical tab, form feed, carriage return and space:
    the white space of the ASCII range. *)
Definition asciiWhiteSpace (c : ascii) : bool :=
  existsb (N.eqb (N_of_ascii c)) [9; 10; 11; 12; 13; 32]%N.

(** [t] is [s] with its ASCII letters in lower case. *)
Fixpoint lowered (s t : string) : bool :=
  match s, t with
  | EmptyString, EmptyString => true
  | String c s', String d t' =>
      (N_of_ascii d =? lowerCode (N_of_ascii c))%N && lowered s' t'
  | _, _ => false
  end.

(** [s] and [t] are equal up to the case of their ASCII letters. *)
Fixpoint sameLetters (s t : string) : bool :=
  match s, t with
  | EmptyString, EmptyString => true
  | String c s', String d t' =>
      (lowerCode (N_of_ascii c) =? lowerCode (N_of_ascii d))%N &&
      sameLetters s' t'
  | _, _ => false
  end.

(** The first, the last character of [s] satisfies [p]. *)
Definition firstIs (p : ascii -> bool) (s : string) : bool :=
  match s with
  | EmptyString => false
  | String c _ => p c
  end.

Fixpoint lastIs (p : ascii -> bool) (s : string) : bool :=
  match s with
  | EmptyString => false
  | String c EmptyString => p c
  | String _ r => lastIs p r
  end.

(** The pieces with [sep] between them. *)
Fixpoint glued (sep : string) (pieces : list string) : string :=
  match pieces with
  | [] => EmptyString
  | [p] => p
  | p :: rest => p +:+ sep +:+ glued sep rest
  end.

(** [lines] are the lines of [content]: the pieces without a line feed
    that give [content] with line feeds between them. *)
Definition Lines (content : string) (lines : list string) : Prop :=
  lines <> [] /\
  Forall (fun line => TextSpec.noChar "010" line = true) lines /\
  content = glued (String "010" EmptyString) lines.

(** [t] is [s] with a space for each underscore. *)
Fixpoint spaced (s t : string) : bool :=
  match s, t with
  | EmptyString, EmptyString => true
  | String c s', String d t' =>
      (if Ascii.eqb c "_" then Ascii.eqb d " " else Ascii.eqb d c) &&
      spaced s' t'
  | _, _ => false
  end.

(** [t] is [s] without the white space at its two ends. *)
Definition Trimmed (ws : ascii -> bool) (s t : string) : Prop :=
  exists l r,
    s = l +:+ t +:+ r /\
    allChars ws l = true /\ allChars ws r = true /\
    firstIs ws t = false /\ lastIs ws t = false.

End TextRule.

Module GradingRule.
Import TextRule.

(** [clean] is [s] in lower case and trimmed, by the built-ins. *)
Definition Cleaned (B : Runtime.Builtins) (s clean : string) : Prop :=
  Trimmed (Runtime.isWhiteSpace B) (Runtime.toLowerCase B s) clean.

(** [clean] is the ASCII text [s] with its letters in lower case and
    without the white space at its two ends. *)
Definition CleanedAscii (s clean : string) : Prop :=
  exists low, lowered s low = true /\ Trimmed asciiWhiteSpace low clean.

(** The cleaned answer is the cleaned key, or one occurs in the other. *)
Definition Matches (cleanAnswer cleanCorrect : string) : Prop :=
  cleanAnswer = cleanCorrect \/
  Substring cleanAnswer cleanCorrect \/
  Substring cleanCorrect cleanAnswer.

(** [answer] is the id of none of the question's options, in any letter
    case. *)
Definition unknownOptionId (B : Runtime.Builtins)
  (question : Routes.Question) (answer : string) : Prop :=
  forall opts o,
    Routes.options question = Some opts -> In o opts ->
    Runtime.toLowerCase B (Gemini.id o) <> Runtime.toLowerCase B answer.

(** The key of the question is the id of one of its options, in any
    letter case. *)
Definition keyAmongOptions (B : Runtime.Builtins)
  (question : Routes.Question) : Prop :=
  exists opts o,
    Routes.options question = Some opts /\ In o opts /\
    Runtime.toLowerCase B (Gemini.id o) =
    Runtime.toLowerCase B (Routes.correctAnswer question).

(** A short-answer question whose key has an upper-case letter and white
    space around it. *)
Definition paddedKey : Routes.Question :=
  {| Routes.question_id := 3; Routes.question_examId := 1;
     Routes.content := "Name the organelle.";
     Routes.questionType := "short-answer"; Routes.options := None;
     Routes.correctAnswer := " Chloroplast ";
     Routes.topic := None; Routes.difficulty := None |}.

End GradingRule.

Module TitleRule.
Import TextRule.

(** One of the extensions .pdf, .docx and .txt, in any letter case. *)
Definition extensionWord (ext : string) : bool :=
  sameLetters ext ".pdf" || sameLetters ext ".docx" || sameLetters ext ".txt".

(** The title from the file name: the name before the extension that it
    ends in, the whole name when it ends in none, with a space for each
    underscore. *)
Definition FileTitle (filename title : string) : Prop :=
  exists base ext,
    filename = base +:+ ext /\
    spaced base title = true /\
    (extensionWord ext = true \/
     ext = "" /\
     forall b e, filename = b +:+ e -> extensionWord e = false).

Section Rule.
Context (ws : ascii -> bool).

(** A character of the class [[a-z0-9\s]] under the [i] flag. *)
Definition titleChar (c : ascii) : bool :=
  letterCode (N_of_ascii c) || digitCode (N_of_ascii c) || ws c.

(** [\s*([a-z0-9\s]+)] at the start of [s] captures [cap]: [s] starts
    with white space and the capture, a run of title characters that is
    not empty.  The capture ends where the run ends.  The white space
    before it is as long as it can be: the capture starts with white space
    only when it is a single character, which the star has given back
    because nothing else was left to capture. *)
Definition CaptureAt (s cap : string) : Prop :=
  exists spaces rest,
    s = spaces +:+ cap +:+ rest /\
    allChars ws spaces = true /\
    cap <> "" /\ allChars titleChar cap = true /\
    firstIs titleChar rest = false /\
    (firstIs ws cap = false \/ String.length cap = 1).

(** The pattern [/label:?\s*([a-z0-9\s]+)/i] matches at the start of [s]
    and captures [cap]: [s] starts with the label in any letter case and a
    colon or none, and [cap] is captured after them. *)
Definition MatchAt (label s cap : string) : Prop :=
  exists found colon after,
    s = found +:+ colon +:+ after /\
    sameLetters found label = true /\
    (colon = ":" \/ colon = "") /\
    CaptureAt after cap.

(** [cap] is the capture of the leftmost match of the pattern in
    [text]. *)
Definition LeftmostMatch (label text cap : string) : Prop :=
  exists before s,
    text = before +:+ s /\ MatchAt label s cap /\
    forall before' s' cap',
      text = before' +:+ s' ->
      String.length before' < String.length before ->
      ~ MatchAt label s' cap'.

(** The pattern matches nowhere in [text]. *)
Definition NoMatch (label text : string) : Prop :=
  forall before s cap, text = before +:+ s -> ~ MatchAt label s cap.

(** The chain [course || title || syllabus]: the capture of the first of
    the three patterns that matches at all, [None] when none does. *)
Definition Decides (text : string) (result : option string) : Prop :=
  match result with
  | Some cap =>
      LeftmostMatch "course" text cap \/
      (NoMatch "course" text /\ LeftmostMatch "title" text cap) \/
      (NoMatch "course" text /\ NoMatch "title" text /\
       LeftmostMatch "syllabus" text cap)
  | None =>
      NoMatch "course" text /\ NoMatch "title" text /\
      NoMatch "syllabus" text
  end.

(** The title rule: the first ten lines are joined by spaces; the
    title is the capture of the deciding pattern without the white space
    at its ends when something is left of it, and the title from the file
    name otherwise. *)
Definition TitleOf (content filename title : string) : Prop :=
  exists lines result,
    Lines content lines /\
    Decides (glued " " (firstn 10 lines)) result /\
    match result with
    | Some cap =>
        exists t,
          Trimmed ws cap t /\
          match t with
          | EmptyString => FileTitle filename title
          | String _ _ => title = t
          end
    | None => FileTitle filename title
    end.

End Rule.

End TitleRule.

(* ================================================================== *)
(** * Facts about the string built-ins *)
(* ================================================================== *)

Section StringFacts.
Import JS.

Lemma append_cons c s t : String c s +:+ t = String c (s +:+ t).
Proof. reflexivity. Qed.

Lemma append_empty_r s : s +:+ "" = s.
Proof.
  induction s as [|c s IH]; [reflexivity|].
  rewrite append_cons, IH. reflexivity.
Qed.

Lemma startsWith_iff s p : startsWith s p = true <-> exists r, s = p +:+ r.
Proof.
  revert s. induction p as [|a p IH]; intros s.
  - destruct s; simpl; split; eauto.
  - destruct s as [|b s]; simpl.
    + split; [discriminate|]. intros [r Hr]. discriminate Hr.
    + rewrite andb_true_iff, Ascii.eqb_eq, IH. split.
      * intros [-> [r ->]]. exists r. reflexivity.
      * intros [r Hr]. rewrite append_cons in Hr. injection Hr as -> ->. eauto.
Qed.

Lemma includes_iff s sub : includes s sub = true <-> Substring sub s.
Proof.
  unfold Substring. induction s as [|c s IH].
  - cbn [includes]. rewrite orb_false_r, startsWith_iff. split.
    + intros [r Hr]. exists "", r. exact Hr.
    + intros [pre [post H]]. destruct pre as [|c pre]; [|discriminate H].
      exists post. exact H.
  - cbn [includes]. rewrite orb_true_iff, startsWith_iff, IH. split.
    + intros [[r Hr] | [pre [post H]]].
      * exists "", r. exact Hr.
      * exists (String c pre), post. rewrite append_cons, H. reflexivity.
    + intros [pre [post H]]. destruct pre as [|c' pre].
      * left. exists post. exact H.
      * right. rewrite append_cons in H. injection H as -> ->. eauto.
Qed.

Lemma includes_empty s : includes s "" = true.
Proof. destruct s; reflexivity. Qed.

Lemma isSpace_not_upper c : isSpace c = true -> isUpper c = false.
Proof.
  unfold isSpace, isUpper. intros H.
  apply andb_false_iff.
  rewrite orb_true_iff, andb_true_iff, !N.leb_le, N.eqb_eq in H.
  rewrite !N.leb_gt. lia.
Qed.

Lemma lowerChar_space c : isSpace c = true -> lowerChar c = c.
Proof.
  intros H. unfold lowerChar. rewrite (isSpace_not_upper c H). reflexivity.
Qed.

Lemma toLowerCase_blank s : isBlank s = true -> toLowerCase s = s.
Proof.
  induction s as [|c s IH]; [reflexivity|]. simpl.
  rewrite andb_true_iff. intros [Hc Hs].
  unfold toLowerCase in *. simpl.
  rewrite (lowerChar_space c Hc), (IH Hs). reflexivity.
Qed.

Lemma trimStart_blank s : isBlank s = true -> trimStart s = "".
Proof.
  induction s as [|c s IH]; [reflexivity|]. simpl.
  rewrite andb_true_iff. intros [Hc Hs]. rewrite Hc. auto.
Qed.

Lemma trim_blank s : isBlank s = true -> trim s = "".
Proof. intros H. unfold trim. rewrite (trimStart_blank s H). reflexivity. Qed.

Lemma toLowerCase_length s : String.length (toLowerCase s) = String.length s.
Proof.
  induction s as [|c s IH]; [reflexivity|].
  unfold toLowerCase in *. simpl. rewrite IH. reflexivity.
Qed.

Lemma toLowerCase_empty s : toLowerCase s = "" -> s = "".
Proof. destruct s; [reflexivity|discriminate]. Qed.

End StringFacts.

(* ================================================================== *)
(** * Answer grading *)
(* ================================================================== *)

Section GradingFacts.
Import JS Routes GradingSpec.

Lemma isAnswerCorrect_multiple_choice q a :
  questionType q = "multiple-choice" ->
  isAnswerCorrect q a =
  String.eqb (toLowerCase a) (toLowerCase (correctAnswer q)).
Proof. intros Hty. unfold isAnswerCorrect. rewrite Hty. reflexivity. Qed.

Lemma isAnswerCorrect_short_answer q a :
  questionType q = "short-answer" ->
  isAnswerCorrect q a =
  String.eqb (trim (toLowerCase a)) (trim (toLowerCase (correctAnswer q))) ||
  includes (trim (toLowerCase (correctAnswer q))) (trim (toLowerCase a)) ||
  includes (trim (toLowerCase a)) (trim (toLowerCase (correctAnswer q))).
Proof. intros Hty. unfold isAnswerCorrect. rewrite Hty. reflexivity. Qed.

(** The examples of the specification. *)
Example grade_photosynthesis :
  isAnswerCorrect saQuestion "Photosynthesis" = true /\
  isAnswerCorrect saQuestion "the process of photosynthesis" = true /\
  isAnswerCorrect saQuestion "respiration" = false.
Proof. repeat split; reflexivity. Qed.

Example grade_option_ids :
  isAnswerCorrect (mcQuestion 1 "a") "A" = true /\
  isAnswerCorrect (mcQuestion 1 "a") "a" = true /\
  isAnswerCorrect (mcQuestion 1 "a") "b" = false.
Proof. repeat split; reflexivity. Qed.

(** C9. A short-answer question grades every blank answer, empty or
    whitespace only, as correct: the empty string occurs in every key. *)
Theorem blank_short_answer_is_correct (q : Question) (a : string) :
  questionType q = "short-answer" ->
  isBlank a = true ->
  isAnswerCorrect q a = true.
Proof.
  intros Hty Hblank.
  rewrite (isAnswerCorrect_short_answer q a Hty).
  rewrite (toLowerCase_blank a Hblank), (trim_blank a Hblank), includes_empty.
  apply orb_true_iff. left. apply orb_true_r.
Qed.

Lemma blank_short_answer_is_correct_witness :
  isAnswerCorrect saQuestion "   " = true.
Proof.
  apply (blank_short_answer_is_correct saQuestion "   "); reflexivity.
Defined.

(** C4, as stated, fails: a question whose key is the id of none of its
    options grades that unknown id as correct. *)
Lemma unknown_option_id_graded_correct :
  questionType (mcQuestion 1 "e") = "multiple-choice" /\
  correctAnswer (mcQuestion 1 "e") <> "" /\
  unknownOptionId (mcQuestion 1 "e") "E" /\
  isAnswerCorrect (mcQuestion 1 "e") "E" <> false.
Proof.
  split; [reflexivity|]. split; [discriminate|]. split.
  - intros opts o Hopts Hin. injection Hopts as <-.
    simpl in Hin. destruct Hin as [<-|[<-|[<-|[<-|[]]]]]; discriminate.
  - discriminate.
Qed.

End GradingFacts.

(* ================================================================== *)
(** * The label patterns of the title *)
(* ================================================================== *)

Section MatcherFacts.
Import JS TitleSpec.

Lemma takeWhile_sound p s :
  exists rest, s = takeWhile p s +:+ rest /\ allChars p (takeWhile p s) = true.
Proof.
  induction s as [|c s [rest [Hs Hall]]]; simpl.
  - exists "". split; reflexivity.
  - destruct (p c) eqn:E.
    + exists rest. rewrite append_cons. simpl. rewrite E, Hall, <- Hs.
      split; reflexivity.
    + exists (String c s). split; reflexivity.
Qed.

Lemma captureRun_sound s cap :
  captureRun s = Some cap ->
  exists after,
    s = cap +:+ after /\ cap <> "" /\ allChars isTitleChar cap = true.
Proof.
  unfold captureRun. destruct (takeWhile_sound isTitleChar s) as [rest [Hs Hall]].
  destruct (takeWhile isTitleChar s) as [|c run] eqn:E; simpl; [discriminate|].
  intros [= <-]. exists rest. split; [exact Hs|]. split; [discriminate|exact Hall].
Qed.

Lemma spacesThenCapture_sound s cap :
  spacesThenCapture s = Some cap ->
  exists spaces after,
    s = spaces +:+ cap +:+ after /\ isBlank spaces = true /\
    cap <> "" /\ allChars isTitleChar cap = true.
Proof.
  revert cap. induction s as [|c s IH]; intros cap; cbn [spacesThenCapture].
  - intros H. apply captureRun_sound in H as (after & Hs & Hne & Hall).
    exists "", after. auto.
  - destruct (isSpace c) eqn:Hc.
    + destruct (spacesThenCapture s) as [cap'|] eqn:E.
      * intros [= <-].
        destruct (IH cap' eq_refl) as (spaces & after & Hs & Hb & Hne & Hall).
        exists (String c spaces), after. rewrite append_cons, <- Hs.
        simpl. rewrite Hc, Hb. auto.
      * intros H. apply captureRun_sound in H as (after & Hs & Hne & Hall).
        exists "", after. auto.
    + intros H. apply captureRun_sound in H as (after & Hs & Hne & Hall).
      exists "", after. auto.
Qed.

Lemma colonThenCapture_sound s cap :
  colonThenCapture s = Some cap ->
  exists colon spaces after,
    s = colon +:+ spaces +:+ cap +:+ after /\
    (colon = "" \/ colon = ":") /\ isBlank spaces = true /\
    cap <> "" /\ allChars isTitleChar cap = true.
Proof.
  assert (Hplain : spacesThenCapture s = Some cap ->
    exists colon spaces after,
      s = colon +:+ spaces +:+ cap +:+ after /\
      (colon = "" \/ colon = ":") /\ isBlank spaces = true /\
      cap <> "" /\ allChars isTitleChar cap = true).
  { intros H. apply spacesThenCapture_sound in H
      as (spaces & after & Hs & Hb & Hne & Hall).
    exists "", spaces, after. auto. }
  unfold colonThenCapture. destruct s as [|c r]; [exact Hplain|].
  destruct (Ascii.eqb c ":") eqn:Hc.
  - apply Ascii.eqb_eq in Hc. subst c.
    destruct (spacesThenCapture r) as [cap'|] eqn:E; [|exact Hplain].
    intros [= <-]. apply spacesThenCapture_sound in E
      as (spaces & after & Hs & Hb & Hne & Hall).
    exists ":", spaces, after. rewrite Hs. auto.
  - assert (Hskip : match c with
                    | ":"%char =>
                        match spacesThenCapture r with
                        | Some cap0 => Some cap0
                        | None => spacesThenCapture (String c r)
                        end
                    | _ => spacesThenCapture (String c r)
                    end = spacesThenCapture (String c r)).
    { destruct c as [[] [] [] [] [] [] [] []]; try reflexivity.
      discriminate Hc. }
    rewrite Hskip. exact Hplain.
Qed.

Lemma dropLabel_sound label s r :
  dropLabel label s = Some r ->
  exists found, s = found +:+ r /\ toLowerCase found = toLowerCase label.
Proof.
  revert s. induction label as [|a label IH]; intros s; simpl.
  - intros [= <-]. exists "". split; reflexivity.
  - destruct s as [|b s]; [discriminate|].
    destruct (Ascii.eqb (lowerChar a) (lowerChar b)) eqn:E; [|discriminate].
    apply Ascii.eqb_eq in E. intros H.
    destruct (IH s H) as (found & Hs & Hlow).
    exists (String b found). rewrite append_cons, <- Hs.
    unfold toLowerCase in *. simpl. rewrite Hlow, E. split; reflexivity.
Qed.

(** A match of [/label:?\s*([a-z0-9\s]+)/i] is the label in any letter
    case, an optional colon, whitespace, and a capture that is a non-empty
    run of letters, digits and whitespace. *)
Lemma matchLabel_sound label text cap :
  matchLabel label text = Some cap -> LabelOccurrence label text cap.
Proof.
  induction text as [|c text IH]; cbn [matchLabel].
  - destruct (matchLabelHere label "") as [cap'|] eqn:E; [|discriminate].
    intros [= <-]. unfold matchLabelHere in E.
    destruct (dropLabel label "") as [r|] eqn:D; [|discriminate].
    apply dropLabel_sound in D as (found & Hs & Hlow).
    apply colonThenCapture_sound in E
      as (colon & spaces & after & Hr & Hcolon & Hb & Hne & Hall).
    exists "", found, colon, spaces, after. rewrite Hr in Hs.
    split; [exact Hs|auto].
  - destruct (matchLabelHere label (String c text)) as [cap'|] eqn:E.
    + intros [= <-]. unfold matchLabelHere in E.
      destruct (dropLabel label (String c text)) as [r|] eqn:D; [|discriminate].
      apply dropLabel_sound in D as (found & Hs & Hlow).
      apply colonThenCapture_sound in E
        as (colon & spaces & after & Hr & Hcolon & Hb & Hne & Hall).
      exists "", found, colon, spaces, after. rewrite Hr in Hs.
    split; [exact Hs|auto].
    + intros H. destruct (IH H)
        as (before & found & colon & spaces & after & Hs & Hrest).
      exists (String c before), found, colon, spaces, after.
      rewrite append_cons, <- Hs. auto.
Qed.


Lemma toLowerCase_cons_inv found a label :
  toLowerCase found = toLowerCase (String a label) ->
  exists b found',
    found = String b found' /\ lowerChar b = lowerChar a /\
    toLowerCase found' = toLowerCase label.
Proof.
  destruct found as [|b found']; [discriminate|].
  unfold toLowerCase. simpl. intros [= Hc Hs]. eauto.
Qed.

Lemma dropLabel_complete label found r :
  toLowerCase found = toLowerCase label ->
  dropLabel label (found +:+ r) = Some r.
Proof.
  revert found. induction label as [|a label IH]; intros found H.
  - destruct found; [reflexivity|discriminate H].
  - apply toLowerCase_cons_inv in H as (b & found' & -> & Hc & Hs).
    rewrite append_cons. cbn [dropLabel]. rewrite Hc, Ascii.eqb_refl.
    apply IH. exact Hs.
Qed.

Lemma isSpace_isTitleChar c : isSpace c = true -> isTitleChar c = true.
Proof. intros H. unfold isTitleChar. rewrite H. apply orb_true_r. Qed.

Lemma captureRun_some c r :
  isTitleChar c = true -> exists cap, captureRun (String c r) = Some cap.
Proof.
  intros H. unfold captureRun. cbn [takeWhile]. rewrite H. simpl. eauto.
Qed.

Lemma spacesThenCapture_some c r :
  isTitleChar c = true -> exists cap, spacesThenCapture (String c r) = Some cap.
Proof.
  intros H. cbn [spacesThenCapture].
  destruct (isSpace c); [|apply captureRun_some; exact H].
  destruct (spacesThenCapture r); [eauto|apply captureRun_some; exact H].
Qed.

(** Whitespace, then a non-empty run of title characters: the text starts
    with a title character. *)
Lemma starts_with_title_char spaces cap after :
  isBlank spaces = true -> cap <> "" -> allChars isTitleChar cap = true ->
  exists c r, spaces +:+ cap +:+ after = String c r /\ isTitleChar c = true.
Proof.
  intros Hb Hne Hall. destruct spaces as [|c spaces].
  - destruct cap as [|c cap]; [contradiction|].
    simpl in Hall. apply andb_true_iff in Hall as [Hc _].
    exists c, (cap +:+ after). split; [reflexivity|exact Hc].
  - simpl in Hb. apply andb_true_iff in Hb as [Hc _].
    exists c, (spaces +:+ cap +:+ after).
    split; [reflexivity|apply isSpace_isTitleChar; exact Hc].
Qed.

Lemma colonThenCapture_some colon spaces cap after :
  colon = "" \/ colon = ":" ->
  isBlank spaces = true -> cap <> "" -> allChars isTitleChar cap = true ->
  exists cap', colonThenCapture (colon +:+ spaces +:+ cap +:+ after) = Some cap'.
Proof.
  intros Hcolon Hb Hne Hall.
  destruct (starts_with_title_char spaces cap after Hb Hne Hall)
    as (c & r & Hs & Hc).
  rewrite Hs. destruct Hcolon as [-> | ->].
  - change ("" +:+ String c r) with (String c r).
    destruct (spacesThenCapture_some c r Hc) as [cap' Hcap].
    exists cap'. rewrite <- Hcap. unfold colonThenCapture.
    destruct c as [[] [] [] [] [] [] [] []]; try reflexivity.
    discriminate Hc.
  - change (":" +:+ String c r) with (String ":" (String c r)).
    destruct (spacesThenCapture_some c r Hc) as [cap' Hcap].
    exists cap'. unfold colonThenCapture. rewrite Hcap. reflexivity.
Qed.

(** Where the label occurs, followed by a capture, the search finds a
    match. *)
Lemma matchLabel_complete label text cap :
  LabelOccurrence label text cap ->
  exists cap', matchLabel label text = Some cap'.
Proof.
  intros (before & found & colon & spaces & after & -> & Hlow & Hcolon &
          Hb & Hne & Hall).
  induction before as [|c before IH].
  - change ("" +:+ found +:+ colon +:+ spaces +:+ cap +:+ after)
      with (found +:+ colon +:+ spaces +:+ cap +:+ after).
    destruct (colonThenCapture_some colon spaces cap after Hcolon Hb Hne Hall)
      as [cap' Hcap].
    exists cap'.
    assert (Hhere : matchLabelHere label
                      (found +:+ colon +:+ spaces +:+ cap +:+ after) =
                    Some cap').
    { unfold matchLabelHere. rewrite (dropLabel_complete label found _ Hlow).
      exact Hcap. }
    destruct (found +:+ colon +:+ spaces +:+ cap +:+ after);
      cbn [matchLabel]; rewrite Hhere; reflexivity.
  - rewrite append_cons. cbn [matchLabel].
    destruct (matchLabelHere label
                (String c (before +:+ found +:+ colon +:+ spaces +:+ cap +:+ after)));
      [eauto|exact IH].
Qed.

Lemma matchLabel_none label text :
  matchLabel label text = None <-> ~ exists cap, LabelOccurrence label text cap.
Proof.
  split.
  - intros Hnone [cap Hocc].
    destruct (matchLabel_complete label text cap Hocc) as [cap' Hcap].
    congruence.
  - intros Hno. destruct (matchLabel label text) as [cap|] eqn:E; [|reflexivity].
    exfalso. apply Hno. exists cap. apply matchLabel_sound. exact E.
Qed.

End MatcherFacts.

(* ================================================================== *)
(** * The grading routes *)
(* ================================================================== *)

Section RouteFacts.
Import JS Routes GradingSpec.

(** The loop writes to the answers table and to nothing else. *)
Lemma processAnswers_tables attempt qmap batch s db :
  let db' := snd (processAnswers attempt qmap batch s db) in
  exams db' = exams db /\
  questions db' = questions db /\
  examAttempts db' = examAttempts db /\
  nextAttemptId db' = nextAttemptId db.
Proof.
  revert s db. induction batch as [|a batch IH]; intros s db; simpl.
  - repeat split.
  - destruct (qmap !! questionId a) as [question|]; simpl.
    + match goal with
      | |- context [processAnswers _ _ _ ?s' ?d'] =>
          destruct (IH s' d') as (He & Hq & Ha & Hn)
      end.
      simpl in *. repeat split; assumption.
    + repeat split.
Qed.

Lemma correctCount_cons qmap a batch :
  correctCount qmap (a :: batch) =
  ((if gradedCorrect qmap a then 1 else 0) + correctCount qmap batch)%Z.
Proof.
  unfold correctCount. simpl. destruct (gradedCorrect qmap a); simpl; lia.
Qed.

(** When every entry names a question of the exam, the loop runs to its
    end and adds one point per entry graded correct. *)
Lemma processAnswers_known attempt qmap batch s db :
  allKnown qmap batch ->
  fst (processAnswers attempt qmap batch s db) =
  inr (s + correctCount qmap batch)%Z.
Proof.
  intros Hknown. revert s db.
  induction Hknown as [|a batch [question Hq] _ IH]; intros s db.
  - simpl. unfold correctCount. simpl. f_equal. lia.
  - rewrite correctCount_cons. unfold gradedCorrect.
    cbn [processAnswers]. rewrite Hq. cbn [createAnswer].
    rewrite IH. f_equal. destruct (isAnswerCorrect question (submitted a)); lia.
Qed.

(** At the first entry that names no question of the exam, the loop
    returns its 400 response; the entries before it are already stored. *)
Lemma processAnswers_unknown attempt qmap before bad after s db :
  allKnown qmap before ->
  qmap !! questionId bad = None ->
  let result := processAnswers attempt qmap (before ++ bad :: after) s db in
  fst result =
    inl {| status := 400;
           payload := Message ("Question with ID " +:+
                               numberToString (questionId bad) +:+
                               " not found in this exam") |} /\
  answers (snd result) =
    answers db ++ answerRows attempt qmap before (nextAnswerId db).
Proof.
  intros Hknown Hbad. revert s db.
  induction Hknown as [|a before [question Hq] _ IH]; intros s db.
  - simpl. rewrite Hbad. simpl. split; [reflexivity|].
    symmetry. apply app_nil_r.
  - cbn [app processAnswers]. rewrite Hq. cbn [createAnswer].
    destruct (IH (if isAnswerCorrect question (submitted a)
                  then (s + 1)%Z else s)
                 {| exams := exams db; questions := questions db;
                    examAttempts := examAttempts db;
                    answers := answers db ++
                      [{| answer_id := nextAnswerId db;
                          attemptId := attempt_id attempt;
                          answer_questionId := questionId a;
                          answer := submitted a;
                          isCorrect :=
                            Some (isAnswerCorrect question (submitted a)) |}];
                    nextAttemptId := nextAttemptId db;
                    nextAnswerId := (nextAnswerId db + 1)%Z |})
      as [Hfst Hans].
    split; [exact Hfst|].
    rewrite Hans. cbn [answers nextAnswerId answerRows].
    unfold gradedCorrect. rewrite Hq. rewrite <- app_assoc. reflexivity.
Qed.

Lemma getExamAttempt_id db id attempt :
  getExamAttempt db id = Some attempt -> attempt_id attempt = id.
Proof.
  unfold getExamAttempt. induction (examAttempts db) as [|a l IH]; simpl.
  - discriminate.
  - destruct (attempt_id a =? id)%Z eqn:E; simpl.
    + intros [= <-]. apply Z.eqb_eq. exact E.
    + exact IH.
Qed.

Lemma completeRow_id id newScore now a :
  attempt_id (completeRow id newScore now a) = attempt_id a.
Proof. unfold completeRow. destruct (attempt_id a =? id)%Z; reflexivity. Qed.

Lemma head_filter_completeRow id newScore now (l : list ExamAttempt) a :
  head (List.filter (fun a => (attempt_id a =? id)%Z) l) = Some a ->
  head (List.filter (fun a => (attempt_id a =? id)%Z)
          (map (completeRow id newScore now) l)) =
  Some (completeRow id newScore now a).
Proof.
  induction l as [|x l IH]; simpl; [discriminate|].
  rewrite completeRow_id.
  destruct (attempt_id x =? id)%Z; simpl.
  - intros [= ->]. reflexivity.
  - exact IH.
Qed.

(** Completing a stored attempt finds it again, with the score and the
    completion time set and every other column as it was. *)
Lemma completeExamAttempt_stored db id attempt newScore now :
  getExamAttempt db id = Some attempt ->
  exists db',
    completeExamAttempt db id newScore now =
      (Returns {| attempt_id := attempt_id attempt;
                  attempt_examId := attempt_examId attempt;
                  startedAt := startedAt attempt;
                  completedAt := Some now;
                  score := Some newScore;
                  maxScore := maxScore attempt |}, db') /\
    answers db' = answers db.
Proof.
  intros Hget. unfold completeExamAttempt.
  pose proof (getExamAttempt_id db id attempt Hget) as Hid.
  unfold getExamAttempt in *. cbn [examAttempts].
  rewrite (head_filter_completeRow id newScore now _ attempt Hget).
  unfold completeRow. rewrite Hid, Z.eqb_refl.
  eexists. split; reflexivity.
Qed.

Lemma questionsMap_size_from (qs : list Question) (m : gmap Z Question) :
  size (foldl (fun m q => <[question_id q := q]> m) m qs) <= size m + length qs.
Proof.
  revert m. induction qs as [|q qs IH]; intros m; simpl; [lia|].
  etransitivity; [apply IH|].
  rewrite map_size_insert. destruct (m !! question_id q); simpl; lia.
Qed.

Lemma questionsMap_size (qs : list Question) :
  size (questionsMap qs) <= length qs.
Proof.
  unfold questionsMap.
  etransitivity; [apply questionsMap_size_from|].
  rewrite map_size_empty. lia.
Qed.

(** A batch of known entries without a repeated question is no longer
    than the list of questions. *)
Lemma distinct_batch_length (qs : list Question) (batch : list AnswerData) :
  allKnown (questionsMap qs) batch ->
  NoDup (map questionId batch) ->
  length batch <= length qs.
Proof.
  intros Hknown Hnodup.
  etransitivity; [|apply questionsMap_size].
  rewrite <- (length_map questionId batch).
  rewrite <- (size_dom (D := gset Z)).
  unfold size, set_size. simpl.
  apply submseteq_length, NoDup_submseteq; [exact Hnodup|].
  intros x Hx. apply elem_of_elements, elem_of_dom.
  apply list_elem_of_fmap in Hx as [a [-> Ha]].
  unfold allKnown in Hknown. rewrite Forall_forall in Hknown.
  apply Hknown. exact Ha.
Qed.

Lemma correctCount_bounds qmap batch :
  (0 <= correctCount qmap batch <= Z.of_nat (length batch))%Z.
Proof.
  unfold correctCount.
  pose proof (filter_length_le (gradedCorrect qmap) batch). lia.
Qed.


(** What the route does with a batch that names an unknown question: it
    answers 400 for the first such entry, leaves the attempts table alone
    and has stored a row for every entry before it. *)
Lemma submitAnswers_unknown_question db id attempt before bad after now :
  getExamAttempt db id = Some attempt ->
  completedAt attempt = None ->
  allKnown (boundQuestions db attempt) before ->
  boundQuestions db attempt !! questionId bad = None ->
  let result := submitAnswers db (Some id) (Batch (before ++ bad :: after)) now in
  fst result =
    {| status := 400;
       payload := Message ("Question with ID " +:+
                           numberToString (questionId bad) +:+
                           " not found in this exam") |} /\
  examAttempts (snd result) = examAttempts db /\
  answers (snd result) =
    answers db ++
    answerRows attempt (boundQuestions db attempt) before (nextAnswerId db).
Proof.
  intros Hget Hopen Hknown Hbad. unfold submitAnswers.
  rewrite Hget, Hopen. fold (boundQuestions db attempt).
  pose proof (processAnswers_unknown attempt (boundQuestions db attempt)
                before bad after 0 db Hknown Hbad) as [Hfst Hans].
  pose proof (processAnswers_tables attempt (boundQuestions db attempt)
                (before ++ bad :: after) 0 db) as (_ & _ & Hatt & _).
  destruct (processAnswers attempt (boundQuestions db attempt)
              (before ++ bad :: after) 0 db) as [[response|s] db1].
  - simpl in *. injection Hfst as ->. repeat split; assumption.
  - simpl in Hfst. discriminate Hfst.
Qed.

(** C2, at the failing input: a batch whose second entry names question
    99, which the exam does not have.  The route answers 400 and leaves the
    attempt open and unscored, but the row for the first entry is in the
    answers table. *)
Theorem rejected_batch_keeps_earlier_answers :
  let batch := [ {| questionId := 1; submitted := "A" |};
                 {| questionId := 99; submitted := "b" |} ] in
  let result := submitAnswers startedDb (Some 1%Z) (Batch batch) 3000 in
  fst result =
    {| status := 400;
       payload := Message "Question with ID 99 not found in this exam" |} /\
  examAttempts (snd result) = examAttempts startedDb /\
  answers startedDb = [] /\
  answers (snd result) =
    [ {| answer_id := 1; attemptId := 1; answer_questionId := 1;
         answer := "A"; isCorrect := Some true |} ].
Proof. vm_compute. repeat split; reflexivity. Qed.

(** C10. Submitting to an attempt that is already completed answers 400
    before the body is looked at, and changes nothing in the database:
    score, maxScore and stored answers stay as they are. *)
Theorem completed_attempt_is_not_regraded
  db id attempt completionTime body now :
  getExamAttempt db id = Some attempt ->
  completedAt attempt = Some completionTime ->
  submitAnswers db (Some id) body now =
    ({| status := 400; payload := Message "Exam attempt already completed" |},
     db).
Proof.
  intros Hget Hdone. unfold submitAnswers. rewrite Hget, Hdone. reflexivity.
Qed.

Lemma completed_attempt_is_not_regraded_witness :
  submitAnswers gradedDb (Some 1%Z)
    (Batch [ {| questionId := 2; submitted := "photosynthesis" |} ]) 4000 =
    ({| status := 400; payload := Message "Exam attempt already completed" |},
     gradedDb).
Proof.
  apply (completed_attempt_is_not_regraded gradedDb 1
           {| attempt_id := 1; attempt_examId := 1; startedAt := 2000;
              completedAt := Some 3000%Z; score := Some 1%Z; maxScore := 2 |}
           3000).
  - vm_compute. reflexivity.
  - reflexivity.
Defined.

(** C5, as stated, fails: three entries for the same question of an exam
    with two questions score 3 against a maxScore of 2. *)
Lemma repeated_entry_exceeds_maxScore :
  let created := startAttempt freshDb (Some 1%Z) 2000 in
  let entry := {| questionId := 1; submitted := "a" |} in
  let graded :=
    submitAnswers (snd created) (Some 1%Z) (Batch [entry; entry; entry]) 3000 in
  exists attempt completed rows score maxScore,
    fst created = {| status := 201; payload := AttemptCreated attempt |} /\
    fst graded =
      {| status := 200; payload := Graded completed rows score maxScore |} /\
    maxScore = Z.of_nat (length (getQuestionsByExamId freshDb 1)) /\
    (maxScore < score)%Z.
Proof.
  vm_compute. do 5 eexists. repeat split; reflexivity.
Qed.

Lemma startAttempt_records_question_count db examId exam now :
  getExam db examId = Some exam ->
  exists attempt db',
    startAttempt db (Some examId) now =
      ({| status := 201; payload := AttemptCreated attempt |}, db') /\
    maxScore attempt =
      Z.of_nat (length (getQuestionsByExamId db (exam_id exam))) /\
    attempt_examId attempt = exam_id exam /\
    completedAt attempt = None /\
    score attempt = None.
Proof.
  intros Hexam. unfold startAttempt. rewrite Hexam. cbn [createExamAttempt].
  do 2 eexists. split; [reflexivity|]. repeat split.
Qed.

Lemma submitAnswers_known db id attempt batch now :
  getExamAttempt db id = Some attempt ->
  completedAt attempt = None ->
  allKnown (boundQuestions db attempt) batch ->
  exists completed rows db',
    submitAnswers db (Some id) (Batch batch) now =
      ({| status := 200;
          payload := Graded completed rows
                       (correctCount (boundQuestions db attempt) batch)
                       (maxScore attempt) |}, db') /\
    score completed = Some (correctCount (boundQuestions db attempt) batch) /\
    maxScore completed = maxScore attempt.
Proof.
  intros Hget Hopen Hknown. unfold submitAnswers.
  rewrite Hget, Hopen. fold (boundQuestions db attempt).
  pose proof (processAnswers_known attempt (boundQuestions db attempt)
                batch 0 db Hknown) as Hfst.
  pose proof (processAnswers_tables attempt (boundQuestions db attempt)
                batch 0 db) as (_ & _ & Hatt & _).
  destruct (processAnswers attempt (boundQuestions db attempt) batch 0 db)
    as [[response|s] db1]; simpl in Hfst; [discriminate Hfst|].
  injection Hfst as ->. simpl in Hatt.
  assert (Hget1 : getExamAttempt db1 id = Some attempt).
  { unfold getExamAttempt in *. rewrite Hatt. exact Hget. }
  rewrite (getExamAttempt_id db id attempt Hget).
  destruct (completeExamAttempt_stored db1 id attempt
              (0 + correctCount (boundQuestions db attempt) batch) now Hget1)
    as [db2 [Hcomplete _]].
  rewrite Hcomplete. rewrite Z.add_0_l.
  do 3 eexists. split; [reflexivity|]. split; reflexivity.
Qed.

(** C5, amended. An attempt is created with maxScore equal to the number
    of questions that the exam has at that moment.  Grading a batch of
    entries that all name questions of the exam reports that stored
    maxScore, whatever the size of the batch, and a score equal to the
    number of entries graded correct, which lies between 0 and the size of
    the batch.  The score is at most maxScore when the batch repeats no
    question and the exam still has the questions counted at creation. *)
Theorem graded_batch_score :
  (forall db examId exam now,
     getExam db examId = Some exam ->
     exists attempt db',
       startAttempt db (Some examId) now =
         ({| status := 201; payload := AttemptCreated attempt |}, db') /\
       maxScore attempt =
         Z.of_nat (length (getQuestionsByExamId db (exam_id exam))) /\
       attempt_examId attempt = exam_id exam /\
       completedAt attempt = None /\
       score attempt = None) /\
  (forall db id attempt batch now,
     getExamAttempt db id = Some attempt ->
     completedAt attempt = None ->
     allKnown (boundQuestions db attempt) batch ->
     let points := correctCount (boundQuestions db attempt) batch in
     exists completed rows db',
       submitAnswers db (Some id) (Batch batch) now =
         ({| status := 200;
             payload := Graded completed rows points (maxScore attempt) |},
          db') /\
       score completed = Some points /\
       maxScore completed = maxScore attempt /\
       (0 <= points <= Z.of_nat (length batch))%Z /\
       (NoDup (map questionId batch) ->
        maxScore attempt =
          Z.of_nat (length (getQuestionsByExamId db (attempt_examId attempt))) ->
        (points <= maxScore attempt)%Z)).
Proof.
  split.
  - exact startAttempt_records_question_count.
  - intros db id attempt batch now Hget Hopen Hknown points.
    destruct (submitAnswers_known db id attempt batch now Hget Hopen Hknown)
      as (completed & rows & db' & Hsubmit & Hscore & Hmax).
    exists completed, rows, db'. fold points in Hsubmit, Hscore.
    pose proof (correctCount_bounds (boundQuestions db attempt) batch) as Hb.
    fold points in Hb.
    repeat split; try assumption; try lia.
    intros Hnodup Hcount. rewrite Hcount.
    pose proof (distinct_batch_length
                  (getQuestionsByExamId db (attempt_examId attempt))
                  batch Hknown Hnodup).
    lia.
Qed.

Lemma graded_batch_score_witness :
  (exists attempt db',
     startAttempt freshDb (Some 1%Z) 2000 =
       ({| status := 201; payload := AttemptCreated attempt |}, db') /\
     maxScore attempt = 2%Z) /\
  (exists completed rows db',
     submitAnswers startedDb (Some 1%Z)
       (Batch [ {| questionId := 1; submitted := "A" |} ]) 3000 =
       ({| status := 200; payload := Graded completed rows 1 2 |}, db') /\
     score completed = Some 1%Z).
Proof.
  destruct graded_batch_score as [Hcreate Hgrade]. split.
  - destruct (Hcreate freshDb 1%Z anExam 2000%Z eq_refl)
      as (attempt & db' & Hstart & Hmax & _).
    exists attempt, db'. split; [exact Hstart|exact Hmax].
  - destruct (Hgrade startedDb 1%Z
                {| attempt_id := 1; attempt_examId := 1; startedAt := 2000;
                   completedAt := None; score := None; maxScore := 2 |}
                [ {| questionId := 1; submitted := "A" |} ] 3000%Z
                eq_refl eq_refl)
      as (completed & rows & db' & Hsubmit & Hscore & _).
    + repeat constructor. exists (mcQuestion 1 "a"). vm_compute. reflexivity.
    + exists completed, rows, db'. split; [exact Hsubmit|exact Hscore].
Defined.

End RouteFacts.

(* ================================================================== *)
(** * Mock synthesis *)
(* ================================================================== *)

Section MockFacts.
Import JS Gemini TruncationSpec.

Lemma mockQuestion_type lines config i :
  questionType (mockQuestion lines config i) = typeName (type config).
Proof. unfold mockQuestion. destruct (type config); reflexivity. Qed.

Lemma mockQuestion_difficulty lines config i :
  questionDifficulty (mockQuestion lines config i) =
  mockDifficulty (difficulty config) i.
Proof. unfold mockQuestion. destruct (type config); reflexivity. Qed.

Lemma mockQuestion_topic lines config i :
  topic (mockQuestion lines config i) = topicOf (baseText lines i).
Proof. unfold mockQuestion. destruct (type config); reflexivity. Qed.

Lemma mockQuestion_multiple_choice lines config i m :
  mockQuestion lines config i = MC m ->
  mc_correctAnswer m = "a" /\
  mc_options m =
    [ {| id := "a";
         text := "The primary framework for understanding " +:+ mc_topic m |};
      {| id := "b"; text := "A secondary concept related to " +:+ mc_topic m |};
      {| id := "c"; text := "An application method for " +:+ mc_topic m |};
      {| id := "d";
         text := "The historical development of " +:+ mc_topic m |} ].
Proof.
  unfold mockQuestion. destruct (type config); [|discriminate].
  intros [= <-]. split; reflexivity.
Qed.

(** The question at position [i] is the one that the loop pushes at index
    [i], and [i] is below the bound. *)
Lemma generateMockExam_lookup content config courseTitle i q :
  questions (generateMockExam content config courseTitle) !! i = Some q ->
  q = mockQuestion (relevantLines content) config i /\
  i < Z.to_nat (questionCount config).
Proof.
  cbn [generateMockExam questions]. unfold loopIndices.
  rewrite list_lookup_fmap. intros H.
  apply fmap_Some in H as [k [Hk ->]].
  apply lookup_seq in Hk as [-> Hlt]. split; [reflexivity|exact Hlt].
Qed.

(** ** What the title and the mock exam read of the syllabus *)

Lemma take_min_length {A : Type} (l : list A) (n : nat) :
  take (Nat.min (length l) n) l = take n l.
Proof.
  destruct (Nat.le_ge_cases (length l) n) as [H|H].
  - rewrite Nat.min_l by exact H. rewrite !take_ge; [reflexivity| |]; lia.
  - rewrite Nat.min_r by exact H. reflexivity.
Qed.

Lemma more_than_ten {A : Type} (l : list A) :
  (10 <? length l) = (10 <? length (take 11 l)).
Proof.
  rewrite length_take.
  destruct (10 <? length l) eqn:E.
  - apply Nat.ltb_lt in E. symmetry. apply Nat.ltb_lt. lia.
  - apply Nat.ltb_ge in E. symmetry. apply Nat.ltb_ge. lia.
Qed.

Lemma relevantLines_depends s1 s2 :
  take 20 (syllabusLines s1) = take 20 (syllabusLines s2) ->
  take 11 (topicLines s1) = take 11 (topicLines s2) ->
  relevantLines s1 = relevantLines s2.
Proof.
  intros Hlines Htopics. unfold relevantLines.
  rewrite !take_min_length, Hlines.
  rewrite (more_than_ten (topicLines s1)), (more_than_ten (topicLines s2)).
  rewrite Htopics.
  replace (take 10 (topicLines s1)) with (take 10 (take 11 (topicLines s1)))
    by (rewrite take_take; reflexivity).
  replace (take 10 (topicLines s2)) with (take 10 (take 11 (topicLines s2)))
    by (rewrite take_take; reflexivity).
  rewrite Htopics. reflexivity.
Qed.

Lemma firstLines_depends s1 s2 :
  take 20 (syllabusLines s1) = take 20 (syllabusLines s2) ->
  firstLines s1 = firstLines s2.
Proof.
  intros Hlines. unfold firstLines, syllabusLines in *.
  replace (take 10 (split newline s1))
    with (take 10 (take 20 (split newline s1)))
    by (rewrite take_take; reflexivity).
  replace (take 10 (split newline s2))
    with (take 10 (take 20 (split newline s2)))
    by (rewrite take_take; reflexivity).
  rewrite Hlines. reflexivity.
Qed.

(** The request sent to the model reads the first 15,000 characters only. *)
Lemma prompt_depends_on_prefix s1 s2 config :
  substring0 15000 s1 = substring0 15000 s2 ->
  prompt s1 config = prompt s2 config.
Proof. intros H. unfold prompt. rewrite H. reflexivity. Qed.

(** C7, as stated, fails: a second line after 15,000 characters changes the
    title and the topic of the second mock question. *)
Lemma text_past_the_prefix_changes_title_and_topics :
  String.length longLine = 15000 /\
  substring0 15000 longLine = substring0 15000 longLineExtended /\
  extractCourseTitle longLine "notes.txt" = "notes" /\
  extractCourseTitle longLineExtended "notes.txt" = "Algebra" /\
  mockTopics longLine fiveMixed "notes.txt" <>
  mockTopics longLineExtended fiveMixed "notes.txt".
Proof.
  split; [vm_compute; reflexivity|].
  split; [vm_compute; reflexivity|].
  split; [vm_compute; reflexivity|].
  split; [vm_compute; reflexivity|].
  vm_compute. discriminate.
Qed.

(** C7, amended. Two syllabus texts with the same first twenty lines and
    the same first eleven topic lines give, with the same configuration and
    file name, the same title, the same mock topics and the same mock
    exam. *)
Theorem title_and_mock_exam_read_leading_lines s1 s2 config filename :
  take 20 (syllabusLines s1) = take 20 (syllabusLines s2) ->
  take 11 (topicLines s1) = take 11 (topicLines s2) ->
  extractCourseTitle s1 filename = extractCourseTitle s2 filename /\
  mockTopics s1 config filename = mockTopics s2 config filename /\
  generateMockExam s1 config (extractCourseTitle s1 filename) =
  generateMockExam s2 config (extractCourseTitle s2 filename).
Proof.
  intros Hlines Htopics.
  assert (Htitle : extractCourseTitle s1 filename = extractCourseTitle s2 filename).
  { unfold extractCourseTitle, courseMatch.
    rewrite (firstLines_depends s1 s2 Hlines). reflexivity. }
  assert (Hexam : generateMockExam s1 config (extractCourseTitle s1 filename) =
                  generateMockExam s2 config (extractCourseTitle s2 filename)).
  { unfold generateMockExam.
    rewrite (relevantLines_depends s1 s2 Hlines Htopics), Htitle. reflexivity. }
  split; [exact Htitle|]. split; [|exact Hexam].
  unfold mockTopics. rewrite Hexam. reflexivity.
Qed.

Lemma title_and_mock_exam_read_leading_lines_witness :
  extractCourseTitle twentyLinesA "bio_101.pdf" =
  extractCourseTitle twentyLinesB "bio_101.pdf" /\
  mockTopics twentyLinesA fiveMixed "bio_101.pdf" =
  mockTopics twentyLinesB fiveMixed "bio_101.pdf" /\
  generateMockExam twentyLinesA fiveMixed
    (extractCourseTitle twentyLinesA "bio_101.pdf") =
  generateMockExam twentyLinesB fiveMixed
    (extractCourseTitle twentyLinesB "bio_101.pdf").
Proof.
  apply (title_and_mock_exam_read_leading_lines
           twentyLinesA twentyLinesB fiveMixed "bio_101.pdf").
  - vm_compute. reflexivity.
  - vm_compute. reflexivity.
Defined.

End MockFacts.

(* ================================================================== *)
(** * The course title *)
(* ================================================================== *)

Section TitleFacts.
Import JS Gemini TitleSpec.

Lemma eqb_length s e : String.eqb s e = true -> String.length s = String.length e.
Proof. intros H. apply String.eqb_eq in H. rewrite H. reflexivity. Qed.

Lemma endsWith_length s e :
  endsWith s e = true -> String.length e <= String.length s.
Proof.
  induction s as [|c s IH]; cbn [endsWith]; rewrite orb_true_iff.
  - intros [H|H]; [|discriminate H]. apply eqb_length in H. lia.
  - intros [H|H].
    + apply eqb_length in H. lia.
    + apply IH in H. simpl. lia.
Qed.

Lemma extensionLength_le filename :
  extensionLength filename <= String.length filename.
Proof.
  unfold extensionLength.
  destruct (List.find (endsWith (toLowerCase filename)) extensions)
    as [e|] eqn:E; [|lia].
  apply find_some in E as [_ E]. apply endsWith_length in E.
  rewrite toLowerCase_length in E. exact E.
Qed.

Lemma isExtension_cases s :
  isExtension s = true ->
  toLowerCase s = ".pdf" \/ toLowerCase s = ".docx" \/ toLowerCase s = ".txt".
Proof.
  unfold isExtension. rewrite !orb_true_iff, !String.eqb_eq. tauto.
Qed.

Lemma isExtension_extensionLength s :
  isExtension s = true -> extensionLength s = String.length s.
Proof.
  intros H. rewrite <- (toLowerCase_length s). unfold extensionLength.
  destruct (isExtension_cases s H) as [-> | [-> | ->]]; reflexivity.
Qed.

Lemma not_isExtension_extensionLength c r :
  isExtension (String c r) = false ->
  extensionLength (String c r) = extensionLength r.
Proof.
  unfold isExtension. rewrite !orb_false_iff. intros [[Hpdf Hdocx] Htxt].
  unfold extensionLength, extensions.
  change (toLowerCase (String c r))
    with (String (lowerChar c) (toLowerCase r)) in *.
  cbn [List.find endsWith]. rewrite Hpdf, Hdocx, Htxt. reflexivity.
Qed.

Lemma stripExtension_cons c r :
  stripExtension (String c r) =
  if isExtension (String c r) then "" else String c (stripExtension r).
Proof. reflexivity. Qed.

(** Removing the leftmost match of [/\.(pdf|docx|txt)$/i] cuts the file
    name before the extension that it ends in. *)
Lemma stripExtension_spec filename :
  stripExtension filename =
  substring0 (String.length filename - extensionLength filename) filename.
Proof.
  induction filename as [|c r IH]; [reflexivity|].
  rewrite stripExtension_cons.
  destruct (isExtension (String c r)) eqn:E.
  - rewrite (isExtension_extensionLength _ E), Nat.sub_diag. reflexivity.
  - rewrite (not_isExtension_extensionLength c r E).
    pose proof (extensionLength_le r) as Hle.
    cbn [String.length].
    replace (S (String.length r) - extensionLength r)
      with (S (String.length r - extensionLength r)) by lia.
    cbn [substring0]. rewrite IH. reflexivity.
Qed.

Lemma filenameTitle_spec filename :
  filenameTitle filename = titleFromFilename filename.
Proof.
  unfold filenameTitle, titleFromFilename.
  rewrite stripExtension_spec. reflexivity.
Qed.

Lemma courseMatch_spec content :
  courseMatch content = firstMatch (firstLines content).
Proof.
  unfold courseMatch, firstMatch, labelPatterns. cbn [omap list_omap].
  destruct (matchLabel "course" (firstLines content)); [reflexivity|].
  destruct (matchLabel "title" (firstLines content)); [reflexivity|].
  destruct (matchLabel "syllabus" (firstLines content)); reflexivity.
Qed.

(** The first pattern that matches decides: its capture occurs after its
    label, and no earlier pattern has an occurrence at all. *)
Lemma firstMatch_sound text cap :
  firstMatch text = Some cap ->
  exists earlier label later,
    labelPatterns = earlier ++ label :: later /\
    LabelOccurrence label text cap /\
    forall l, In l earlier -> ~ exists c, LabelOccurrence l text c.
Proof.
  unfold firstMatch, labelPatterns. cbn [omap list_omap].
  destruct (matchLabel "course" text) as [c1|] eqn:E1.
  { intros [= <-]. exists [], "course", ["title"; "syllabus"].
    split; [reflexivity|]. split; [apply matchLabel_sound; exact E1|].
    intros l []. }
  destruct (matchLabel "title" text) as [c2|] eqn:E2.
  { intros [= <-]. exists ["course"], "title", ["syllabus"].
    split; [reflexivity|]. split; [apply matchLabel_sound; exact E2|].
    intros l [<-|[]]. apply matchLabel_none. exact E1. }
  destruct (matchLabel "syllabus" text) as [c3|] eqn:E3; [|discriminate].
  intros [= <-]. exists ["course"; "title"], "syllabus", [].
  split; [reflexivity|]. split; [apply matchLabel_sound; exact E3|].
  intros l [<-|[<-|[]]]; apply matchLabel_none; assumption.
Qed.

Lemma firstMatch_none text :
  firstMatch text = None <->
  forall label, In label labelPatterns ->
    ~ exists cap, LabelOccurrence label text cap.
Proof.
  unfold firstMatch, labelPatterns. cbn [omap list_omap]. split.
  - intros H label Hin.
    destruct (matchLabel "course" text) eqn:E1; [discriminate H|].
    destruct (matchLabel "title" text) eqn:E2; [discriminate H|].
    destruct (matchLabel "syllabus" text) eqn:E3; [discriminate H|].
    destruct Hin as [<-|[<-|[<-|[]]]]; apply matchLabel_none; assumption.
  - intros H.
    assert (H1 : matchLabel "course" text = None)
      by (apply matchLabel_none, H; simpl; auto).
    assert (H2 : matchLabel "title" text = None)
      by (apply matchLabel_none, H; simpl; auto).
    assert (H3 : matchLabel "syllabus" text = None)
      by (apply matchLabel_none, H; simpl; auto).
    rewrite H1, H2, H3. reflexivity.
Qed.

(** C8, as stated, fails twice.  With a [course] label whose capture is
    blank, the code takes the file name although the [title] label captures
    "Algebra"; and with the word "course" in prose, without a colon, the
    code takes the words after it although no label is there. *)
Lemma title_is_not_first_non_empty_label_capture :
  (extractCourseTitle blankCourseLabel "my_notes.pdf" = "my notes" /\
   firstNonEmptyCaptureTitle blankCourseLabel "my_notes.pdf" = "Algebra") /\
  (extractCourseTitle courseInProse "bio_101.pdf" = "Biology 101" /\
   firstNonEmptyCaptureTitle courseInProse "bio_101.pdf" = "bio 101").
Proof. repeat split; vm_compute; reflexivity. Qed.

End TitleFacts.

(* ================================================================== *)
(** * The AI-backed path and its fallback *)
(* ================================================================== *)

Section SynthesisFacts.
Import JS Gemini JsonFragment.

Variable JSON_parse : string -> Outcome JsValue.
Variable generateContent : string -> Outcome string.

(** [generateExam] always resolves. *)
Lemma generateExam_never_throws content config filename :
  exists v,
    generateExam JSON_parse generateContent content config filename = Returns v.
Proof.
  unfold generateExam.
  destruct (generateContent (prompt content config)); simpl; eauto.
Qed.

(** When the call to the model throws, the result is the mock exam. *)
Lemma generateExam_backend_failure content config filename e :
  generateContent (prompt content config) = Throws e ->
  generateExam JSON_parse generateContent content config filename =
  Returns (examToJs (generateMockExam content config
                       (extractCourseTitle content filename))).
Proof. intros H. unfold generateExam. rewrite H. reflexivity. Qed.

(** When the model answers, the result is what [safeJsonParse] makes of
    the brace region of the answer. *)
Lemma generateExam_response content config filename responseText :
  generateContent (prompt content config) = Returns responseText ->
  generateExam JSON_parse generateContent content config filename =
  Returns (safeJsonParse JSON_parse (jsonContent responseText)).
Proof. intros H. unfold generateExam. rewrite H. reflexivity. Qed.

Lemma empty_object_is_no_exam e : JsObject [] <> examToJs e.
Proof. unfold examToJs. discriminate. Qed.

End SynthesisFacts.

Section SynthesisFailure.
Import JS Gemini JsonFragment.

(** C1, at the failing input: the model answers with prose whose brace
    region is not JSON.  [JSON.parse] throws on the region, [safeJsonParse]
    turns that into the empty object, and [generateExam] resolves to it: no
    error reaches the caller, but the result is not the mock exam. *)
Theorem unparseable_response_yields_empty_object
  (JSON_parse : string -> Outcome JsValue) content config filename e :
  JSON_parse "{that}" = Throws e ->
  generateExam JSON_parse (fun _ => Returns apology) content config filename =
    Returns (JsObject []) /\
  JsObject [] <>
    examToJs (generateMockExam content config
                (extractCourseTitle content filename)).
Proof.
  intros Hparse. split; [|apply empty_object_is_no_exam].
  rewrite (generateExam_response JSON_parse _ content config filename apology
             eq_refl).
  unfold safeJsonParse.
  change (jsonContent apology) with "{that}".
  rewrite Hparse. reflexivity.
Qed.

Lemma unparseable_response_yields_empty_object_witness :
  generateExam parse (fun _ => Returns apology)
    "Course: Biology" TruncationSpec.fiveMixed "bio.pdf" =
  Returns (JsObject []).
Proof.
  apply (unparseable_response_yields_empty_object parse
           "Course: Biology" TruncationSpec.fiveMixed "bio.pdf"
           "SyntaxError: Unexpected token").
  vm_compute. reflexivity.
Defined.

End SynthesisFailure.

(* ================================================================== *)
(** * Further facts about trimming and letter case *)
(* ================================================================== *)

Section TrimFacts.
Import JS TextSpec.

Lemma append_assoc (a b c : string) : (a +:+ b) +:+ c = a +:+ b +:+ c.
Proof.
  induction a as [|x a IH]; [reflexivity|].
  rewrite !append_cons, IH. reflexivity.
Qed.

Lemma append_length (a b : string) :
  String.length (a +:+ b) = String.length a + String.length b.
Proof.
  induction a as [|x a IH]; [reflexivity|].
  rewrite append_cons. simpl. rewrite IH. reflexivity.
Qed.

Lemma toLowerCase_app a b :
  toLowerCase (a +:+ b) = toLowerCase a +:+ toLowerCase b.
Proof.
  induction a as [|x a IH]; [reflexivity|].
  rewrite append_cons. unfold toLowerCase in *. simpl.
  rewrite IH. reflexivity.
Qed.

Lemma lowerChar_upperChar c : lowerChar (upperChar c) = lowerChar c.
Proof. destruct c as [[] [] [] [] [] [] [] []]; reflexivity. Qed.

Lemma toLowerCase_toUpperCase s : toLowerCase (toUpperCase s) = toLowerCase s.
Proof.
  induction s as [|c s IH]; [reflexivity|].
  unfold toLowerCase, toUpperCase in *. simpl.
  rewrite lowerChar_upperChar, IH. reflexivity.
Qed.

Lemma isBlank_app a b : isBlank (a +:+ b) = isBlank a && isBlank b.
Proof.
  induction a as [|x a IH]; [reflexivity|].
  rewrite append_cons. simpl. rewrite IH, andb_assoc. reflexivity.
Qed.

Lemma toLowerCase_isBlank s : isBlank (toLowerCase s) = isBlank s.
Proof.
  induction s as [|c s IH]; [reflexivity|].
  unfold toLowerCase in *. simpl. rewrite IH. f_equal.
  destruct c as [[] [] [] [] [] [] [] []]; reflexivity.
Qed.

Lemma trimStart_length s : String.length (trimStart s) <= String.length s.
Proof.
  induction s as [|c s IH]; simpl; [lia|].
  destruct (isSpace c); simpl; lia.
Qed.

Lemma trimEnd_length s : String.length (trimEnd s) <= String.length s.
Proof.
  induction s as [|c s IH]; simpl; [lia|].
  destruct (isSpace c && isEmpty (trimEnd s)); simpl; lia.
Qed.

Lemma trim_length s : String.length (trim s) <= String.length s.
Proof.
  unfold trim. pose proof (trimEnd_length (trimStart s)).
  pose proof (trimStart_length s). lia.
Qed.

Lemma trimStart_shape s :
  trimStart s = "" \/ startsNonSpace (trimStart s) = true.
Proof.
  induction s as [|c s IH]; simpl; [auto|].
  destruct (isSpace c) eqn:E; [exact IH|]. right. simpl. rewrite E. reflexivity.
Qed.

Lemma trimEnd_shape s : trimEnd s = "" \/ endsNonSpace (trimEnd s) = true.
Proof.
  induction s as [|c s IH]; [auto|]. cbn [trimEnd]. cbv zeta.
  destruct (isSpace c) eqn:Ec; destruct (trimEnd s) as [|d r] eqn:Er;
    cbn [andb isEmpty]; auto.
  - right. destruct IH as [IH|IH]; [discriminate|]. exact IH.
  - right. simpl. rewrite Ec. reflexivity.
  - right. destruct IH as [IH|IH]; [discriminate|]. exact IH.
Qed.

Lemma trimEnd_head c r :
  isSpace c = false -> trimEnd (String c r) = String c (trimEnd r).
Proof. intros H. cbn [trimEnd]. rewrite H. reflexivity. Qed.

(** A trimmed string is empty, or starts and ends without whitespace. *)
Lemma trim_shape s :
  trim s = "" \/
  (startsNonSpace (trim s) = true /\ endsNonSpace (trim s) = true).
Proof.
  unfold trim. destruct (trimStart_shape s) as [E|E].
  - rewrite E. left. reflexivity.
  - destruct (trimStart s) as [|c r]; [discriminate|]. simpl in E.
    apply negb_true_iff in E. right. rewrite (trimEnd_head c r E).
    split; [simpl; rewrite E; reflexivity|].
    destruct (trimEnd_shape (String c r)) as [H|H];
      rewrite (trimEnd_head c r E) in H; [discriminate|exact H].
Qed.

Lemma trimStart_fixed s : startsNonSpace s = true -> trimStart s = s.
Proof.
  destruct s as [|c r]; [discriminate|]. simpl. intros H.
  apply negb_true_iff in H. rewrite H. reflexivity.
Qed.

Lemma trimEnd_fixed s : endsNonSpace s = true -> trimEnd s = s.
Proof.
  induction s as [|c r IH]; [discriminate|]. intros H.
  cbn [trimEnd]. cbv zeta. destruct r as [|d r'].
  - simpl in H. apply negb_true_iff in H. simpl. rewrite H. reflexivity.
  - assert (Hr : endsNonSpace (String d r') = true) by exact H.
    rewrite (IH Hr). cbn [isEmpty]. rewrite andb_false_r. reflexivity.
Qed.

Lemma trim_idempotent s : trim (trim s) = trim s.
Proof.
  destruct (trim_shape s) as [E|[Hs He]].
  - rewrite E. reflexivity.
  - unfold trim at 1. rewrite (trimStart_fixed _ Hs). apply trimEnd_fixed, He.
Qed.

Lemma trimStart_app_blank l s : isBlank l = true -> trimStart (l +:+ s) = trimStart s.
Proof.
  induction l as [|c l IH]; [reflexivity|]. simpl.
  rewrite andb_true_iff. intros [Hc Hl]. rewrite ?append_cons. simpl.
  rewrite Hc. apply IH, Hl.
Qed.

Lemma trimEnd_blank r : isBlank r = true -> trimEnd r = "".
Proof.
  induction r as [|c r IH]; [reflexivity|]. simpl.
  rewrite andb_true_iff. intros [Hc Hr]. rewrite (IH Hr), Hc. reflexivity.
Qed.

Lemma trimEnd_app_blank s r : isBlank r = true -> trimEnd (s +:+ r) = trimEnd s.
Proof.
  intros Hr. induction s as [|c s IH].
  - simpl. apply trimEnd_blank, Hr.
  - rewrite append_cons. cbn [trimEnd]. rewrite IH. reflexivity.
Qed.

Lemma trimStart_app s r :
  startsNonSpace (trimStart s) = true ->
  trimStart (s +:+ r) = trimStart s +:+ r.
Proof.
  induction s as [|c s IH]; [discriminate|].
  rewrite append_cons. cbn [trimStart].
  destruct (isSpace c); [exact IH|].
  intros _. rewrite append_cons. reflexivity.
Qed.

(** Whitespace around a string does not change what it trims to. *)
Lemma trim_padding l s r :
  isBlank l = true -> isBlank r = true -> trim (l +:+ s +:+ r) = trim s.
Proof.
  intros Hl Hr. unfold trim. rewrite (trimStart_app_blank l _ Hl).
  destruct (trimStart_shape s) as [E|E].
  - rewrite E.
    assert (Hs : isBlank s = true).
    { clear - E. induction s as [|c s IH]; [reflexivity|]. simpl in *.
      destruct (isSpace c); [apply IH, E|discriminate E]. }
    assert (Hb : isBlank (s +:+ r) = true)
      by (rewrite isBlank_app, Hs, Hr; reflexivity).
    rewrite (trimStart_blank _ Hb). reflexivity.
  - rewrite (trimStart_app s r E). apply trimEnd_app_blank, Hr.
Qed.

Lemma Substring_refl s : Substring s s.
Proof. exists "", "". simpl. rewrite append_empty_r. reflexivity. Qed.

Lemma Substring_cons c sub s : Substring sub s -> Substring sub (String c s).
Proof.
  intros [pre [post ->]]. exists (String c pre), post. reflexivity.
Qed.

Lemma Substring_app sub a b s :
  Substring sub s -> Substring sub (a +:+ s +:+ b).
Proof.
  intros [pre [post ->]]. exists (a +:+ pre), (post +:+ b).
  rewrite !append_assoc. reflexivity.
Qed.

Lemma Substring_empty s : Substring "" s.
Proof. exists "", s. reflexivity. Qed.

Lemma trimStart_Substring s : Substring (trimStart s) s.
Proof.
  induction s as [|c s IH]; simpl; [apply Substring_refl|].
  destruct (isSpace c); [apply Substring_cons, IH|apply Substring_refl].
Qed.

Lemma startsWith_trimEnd t y :
  endsNonSpace t = true -> startsWith y t = true ->
  startsWith (trimEnd y) t = true.
Proof.
  revert y. induction t as [|a t IH]; [discriminate|]. intros y Hend Hpre.
  destruct y as [|b y]; [discriminate Hpre|].
  simpl in Hpre. apply andb_true_iff in Hpre as [Hab Hpre].
  apply Ascii.eqb_eq in Hab. subst b.
  destruct t as [|a' t'].
  - simpl in Hend. apply negb_true_iff in Hend.
    rewrite (trimEnd_head a y Hend). cbn [startsWith].
    rewrite Ascii.eqb_refl. destruct (trimEnd y); reflexivity.
  - assert (Hend' : endsNonSpace (String a' t') = true) by exact Hend.
    specialize (IH y Hend' Hpre).
    cbn [trimEnd]. cbv zeta.
    destruct (trimEnd y) as [|d r] eqn:E; [discriminate IH|].
    cbn [isEmpty]. rewrite andb_false_r.
    cbn [startsWith]. rewrite Ascii.eqb_refl. exact IH.
Qed.

Lemma Substring_cons_inv t c s :
  Substring t (String c s) -> startsWith (String c s) t = true \/ Substring t s.
Proof.
  intros [pre [post H]]. destruct pre as [|x pre].
  - left. apply startsWith_iff. exists post. exact H.
  - right. rewrite append_cons in H. injection H as _ ->. exists pre, post.
    reflexivity.
Qed.

Lemma startsWith_Substring s t : startsWith s t = true -> Substring t s.
Proof. intros H. apply startsWith_iff in H as [r ->]. exists "", r. reflexivity. Qed.

Lemma Substring_trimEnd t y :
  endsNonSpace t = true -> Substring t y -> Substring t (trimEnd y).
Proof.
  intros Hend. induction y as [|c y IH]; intros Hsub.
  - exact Hsub.
  - destruct (Substring_cons_inv t c y Hsub) as [Hpre|Hin].
    + apply startsWith_Substring, startsWith_trimEnd; assumption.
    + specialize (IH Hin). cbn [trimEnd]. cbv zeta.
      destruct (trimEnd y) as [|d r] eqn:E.
      * destruct IH as [pre [post H]].
        destruct pre; [|discriminate H]. destruct t; [discriminate Hend|].
        discriminate H.
      * cbn [isEmpty]. rewrite andb_false_r. apply Substring_cons, IH.
Qed.

Lemma Substring_trimStart t y :
  startsNonSpace t = true -> Substring t y -> Substring t (trimStart y).
Proof.
  intros Hstart. induction y as [|c y IH]; intros Hsub; [exact Hsub|].
  simpl. destruct (isSpace c) eqn:Ec; [|exact Hsub].
  destruct (Substring_cons_inv t c y Hsub) as [Hpre|Hin]; [|apply IH, Hin].
  destruct t as [|a t]; [discriminate Hstart|].
  simpl in Hpre. apply andb_true_iff in Hpre as [Hac _].
  apply Ascii.eqb_eq in Hac. subst a. simpl in Hstart. rewrite Ec in Hstart.
  discriminate Hstart.
Qed.

(** What occurs in a string and has no whitespace at its ends still occurs
    after the string is trimmed. *)
Lemma Substring_trim t y :
  Substring (trim t) y -> Substring (trim t) (trim y).
Proof.
  intros Hsub. destruct (trim_shape t) as [E|[Hs He]].
  - rewrite E. apply Substring_empty.
  - unfold trim at 2. apply Substring_trimEnd; [exact He|].
    apply Substring_trimStart; assumption.
Qed.

Lemma trimEnd_prefix s : startsWith s (trimEnd s) = true.
Proof.
  induction s as [|a s IH]; [reflexivity|].
  cbn [trimEnd]. cbv zeta.
  destruct (isSpace a && isEmpty (trimEnd s)); [reflexivity|].
  simpl. rewrite Ascii.eqb_refl. exact IH.
Qed.

Lemma Substring_trans a b c : Substring a b -> Substring b c -> Substring a c.
Proof.
  intros Hab [pre [post ->]]. apply Substring_app. exact Hab.
Qed.

Lemma trim_Substring s : Substring (trim s) s.
Proof.
  unfold trim. apply (Substring_trans _ (trimStart s)).
  - apply startsWith_Substring, trimEnd_prefix.
  - apply trimStart_Substring.
Qed.

Lemma allChars_app p a b : allChars p (a +:+ b) = allChars p a && allChars p b.
Proof.
  induction a as [|x a IH]; [reflexivity|].
  rewrite append_cons. simpl. rewrite IH, andb_assoc. reflexivity.
Qed.

Lemma allChars_Substring p sub s :
  Substring sub s -> allChars p s = true -> allChars p sub = true.
Proof.
  intros [pre [post ->]]. rewrite !allChars_app, !andb_true_iff. tauto.
Qed.

End TrimFacts.

(* ================================================================== *)
(** * Further facts about grading *)
(* ================================================================== *)

Section GradingMore.
Import JS Routes TextSpec.

(** X3. Whitespace around the answer matters for a multiple-choice
    question and not for a short-answer question: a correct option id with
    anything appended or prepended is graded incorrect, while a short answer
    padded with whitespace gets the grade of the answer. *)
Theorem padding_and_grading (q : Question) (a : string) :
  (questionType q = "multiple-choice" ->
   isAnswerCorrect q a = true ->
   forall pad, pad <> "" ->
     isAnswerCorrect q (a +:+ pad) = false /\
     isAnswerCorrect q (pad +:+ a) = false) /\
  (questionType q = "short-answer" ->
   forall l r, isBlank l = true -> isBlank r = true ->
     isAnswerCorrect q (l +:+ a +:+ r) = isAnswerCorrect q a).
Proof.
  split.
  - intros Hty Hok pad Hpad.
    rewrite (isAnswerCorrect_multiple_choice q a Hty) in Hok.
    apply String.eqb_eq in Hok.
    assert (Hlen : forall x, String.length (toLowerCase x) =
                             String.length (toLowerCase a) ->
                             String.length x = String.length a).
    { intros x. rewrite !toLowerCase_length. auto. }
    assert (Hpadlen : 0 < String.length pad)
      by (destruct pad; [contradiction|simpl; lia]).
    rewrite !(isAnswerCorrect_multiple_choice q _ Hty).
    split; apply String.eqb_neq; intros Heq; rewrite <- Hok in Heq;
      apply (f_equal String.length) in Heq; apply Hlen in Heq;
      rewrite append_length in Heq; lia.
  - intros Hty l r Hl Hr.
    rewrite !(isAnswerCorrect_short_answer q _ Hty).
    rewrite !toLowerCase_app.
    rewrite (trim_padding (toLowerCase l) (toLowerCase a) (toLowerCase r));
      [reflexivity| |]; rewrite toLowerCase_isBlank; assumption.
Qed.

End GradingMore.

(* ================================================================== *)
(** * Further facts about mock synthesis and the title *)
(* ================================================================== *)

Section MockMore.
Import JS Gemini TextSpec.

Lemma substring0_length n s : String.length (substring0 n s) <= n.
Proof.
  revert s. induction n as [|n IH]; intros s; [destruct s; simpl; lia|].
  destruct s as [|c s]; simpl; [lia|]. specialize (IH s). lia.
Qed.

Lemma endsNonSpace_app a b :
  b <> "" -> endsNonSpace (a +:+ b) = endsNonSpace b.
Proof.
  intros Hb. induction a as [|c a IH]; [reflexivity|].
  rewrite append_cons. cbn [endsNonSpace].
  destruct (a +:+ b) eqn:E; [|exact IH].
  destruct a; [simpl in E; contradiction|discriminate E].
Qed.

Lemma trim_fixed s :
  startsNonSpace s = true -> endsNonSpace s = true -> trim s = s.
Proof.
  intros Hs He. unfold trim. rewrite (trimStart_fixed s Hs).
  apply trimEnd_fixed, He.
Qed.

(** A topic is at most 33 characters long and has no whitespace at its
    ends. *)
Lemma topicOf_short base :
  String.length (topicOf base) <= 33 /\ trim (topicOf base) = topicOf base.
Proof.
  unfold topicOf.
  destruct (30 <? String.length base)%nat eqn:E.
  - split.
    + rewrite append_length. pose proof (trim_length (substring0 30 base)).
      pose proof (substring0_length 30 base).
      change (String.length "...") with 3. lia.
    + apply trim_fixed.
      * destruct (trim_shape (substring0 30 base)) as [H|[H _]].
        -- rewrite H. reflexivity.
        -- destruct (trim (substring0 30 base)); [discriminate H|exact H].
      * rewrite endsNonSpace_app by discriminate. reflexivity.
  - apply Nat.ltb_ge in E. split.
    + pose proof (trim_length base). lia.
    + apply trim_idempotent.
Qed.

(** X4. Every topic of a mock exam is at most 33 characters long, 30 of
    the base line and the ellipsis, and has no whitespace at its ends. *)
Theorem mock_topics_are_short content config courseTitle :
  Forall (fun q => String.length (topic q) <= 33 /\ trim (topic q) = topic q)
         (questions (generateMockExam content config courseTitle)).
Proof.
  cbn [generateMockExam questions]. apply Forall_fmap, Forall_forall.
  intros i _. cbn. rewrite mockQuestion_topic. apply topicOf_short.
Qed.

Lemma filter_sublist {A : Type} (f : A -> bool) (l : list A) :
  sublist (List.filter f l) l.
Proof.
  induction l as [|x l IH]; simpl; [constructor|].
  destruct (f x); [apply sublist_skip|apply sublist_cons]; exact IH.
Qed.

Lemma relevantLines_length content : length (relevantLines content) <= 20.
Proof.
  unfold relevantLines.
  destruct (10 <? length (topicLines content))%nat; rewrite length_take; lia.
Qed.

(** X5. The lines that the mock exam is built on are lines of the
    syllabus, in their order, and at most 20; when the syllabus has more
    than 10 topic lines they are all topic lines. *)
Theorem relevant_lines_are_syllabus_lines content :
  sublist (relevantLines content) (syllabusLines content) /\
  length (relevantLines content) <= 20 /\
  ((10 < length (topicLines content))%nat ->
   length (relevantLines content) = 10 /\
   Forall (fun line => isTopicLine line = true) (relevantLines content)).
Proof.
  split; [|split].
  - unfold relevantLines.
    destruct (10 <? length (topicLines content))%nat.
    + transitivity (topicLines content); [apply sublist_take|].
      apply filter_sublist.
    + apply sublist_take.
  - apply relevantLines_length.
  - intros Hmore. unfold relevantLines.
    apply Nat.ltb_lt in Hmore as Hb. rewrite Hb.
    split; [rewrite length_take; lia|].
    apply Forall_take. unfold topicLines. apply Forall_forall.
    intros line Hin. apply list_elem_of_In, filter_In in Hin. apply Hin.
Qed.

Lemma topicOf_subjectArea i :
  topicOf (nth (i mod 8) subjectAreas "") = nth (i mod 8) subjectAreas "".
Proof.
  pose proof (Nat.mod_upper_bound i 8 ltac:(lia)) as Hlt.
  destruct (i mod 8) as [|[|[|[|[|[|[|[|n]]]]]]]]; try (vm_compute; reflexivity).
  lia.
Qed.

Lemma baseText_past lines i :
  length lines <= i -> baseText lines i = nth (i mod 8) subjectAreas "".
Proof.
  intros H. unfold baseText.
  apply Nat.ltb_ge in H. rewrite H. reflexivity.
Qed.

(** X6. From the position where the relevant lines run out, and so from
    position 20 at the latest, the topic of a mock question is the generic
    subject area at the position modulo 8, whatever the syllabus says. *)
Theorem mock_questions_past_the_lines_are_generic
  content config courseTitle i q :
  questions (generateMockExam content config courseTitle) !! i = Some q ->
  (length (relevantLines content) <= i \/ 20 <= i) ->
  topic q = nth (i mod 8) subjectAreas "".
Proof.
  intros Hq Hpast. apply generateMockExam_lookup in Hq as [-> _].
  rewrite mockQuestion_topic, baseText_past; [apply topicOf_subjectArea|].
  destruct Hpast as [H|H]; [exact H|].
  pose proof (relevantLines_length content). lia.
Qed.

Lemma mock_questions_past_the_lines_are_generic_witness :
  match
    questions (generateMockExam TitleSpec.courseInProse
                 TruncationSpec.fiveMixed "Biology") !! 4
  with
  | Some q => topic q = "Historical Context"
  | None => False
  end.
Proof.
  destruct (questions (generateMockExam TitleSpec.courseInProse
                         TruncationSpec.fiveMixed "Biology") !! 4)
    as [q|] eqn:E.
  - apply (mock_questions_past_the_lines_are_generic
             TitleSpec.courseInProse TruncationSpec.fiveMixed "Biology" 4 q).
    + exact E.
    + left. change (length (relevantLines TitleSpec.courseInProse)) with 2. lia.
  - vm_compute in E. discriminate E.
Defined.


End MockMore.

Section TitleMore.
Import JS Gemini TitleSpec TextSpec.

Lemma courseMatch_label content cap :
  courseMatch content = Some cap ->
  exists label, matchLabel label (firstLines content) = Some cap.
Proof.
  unfold courseMatch.
  destruct (matchLabel "course" (firstLines content)) eqn:E1;
    [intros [= <-]; eauto|].
  destruct (matchLabel "title" (firstLines content)) eqn:E2;
    [intros [= <-]; eauto|].
  intros H. eauto.
Qed.

Lemma LabelOccurrence_Substring label text cap :
  LabelOccurrence label text cap -> Substring cap text.
Proof.
  intros (before & found & colon & spaces & after & -> & _).
  exists (before +:+ found +:+ colon +:+ spaces), after.
  rewrite !append_assoc. reflexivity.
Qed.

(** X7. The title is the file-name title, or it is a piece of the first
    ten lines that is not empty, has no whitespace at its ends and holds
    letters, digits and whitespace only. *)
Theorem label_title_is_clean content filename :
  extractCourseTitle content filename = filenameTitle filename \/
  (extractCourseTitle content filename <> "" /\
   trim (extractCourseTitle content filename) =
     extractCourseTitle content filename /\
   allChars isTitleChar (extractCourseTitle content filename) = true /\
   Substring (extractCourseTitle content filename) (firstLines content)).
Proof.
  unfold extractCourseTitle.
  destruct (courseMatch content) as [cap|] eqn:E; [|left; reflexivity].
  destruct (isEmpty (trim cap)) eqn:Hempty; [left; reflexivity|].
  right. apply courseMatch_label in E as [label E].
  apply matchLabel_sound in E as Hocc.
  pose proof (LabelOccurrence_Substring _ _ _ Hocc) as Hsub.
  destruct Hocc as (_ & _ & _ & _ & _ & _ & _ & _ & _ & _ & Hall).
  split; [|split; [|split]].
  - intros H. rewrite H in Hempty. discriminate Hempty.
  - apply trim_idempotent.
  - apply (allChars_Substring _ _ cap); [apply trim_Substring|exact Hall].
  - apply (Substring_trans _ cap); [apply trim_Substring|exact Hsub].
Qed.

Lemma isExtension_length ext :
  isExtension ext = true -> String.length ext = 4 \/ String.length ext = 5.
Proof.
  intros H. rewrite <- (toLowerCase_length ext).
  destruct (isExtension_cases ext H) as [-> | [-> | ->]]; simpl; auto.
Qed.

Lemma isExtension_not_longer c base ext :
  isExtension ext = true -> isExtension (String c (base +:+ ext)) = false.
Proof.
  intros Hext. destruct (isExtension (String c (base +:+ ext))) eqn:E;
    [|reflexivity]. exfalso.
  pose proof (isExtension_length _ Hext) as Hl1.
  pose proof (isExtension_length _ E) as Hl2.
  cbn [String.length] in Hl2. rewrite append_length in Hl2.
  assert (Hbase : base = "")
    by (destruct base; [reflexivity|cbn [String.length] in Hl2; lia]).
  subst base. change ("" +:+ ext) with ext in *.
  assert (Hlen : String.length ext = 4) by (cbn [String.length] in Hl2; lia).
  assert (Hlow : toLowerCase (String c ext) = ".docx").
  { destruct (isExtension_cases _ E) as [H | [H | H]]; [exfalso|exact H|exfalso];
      apply (f_equal String.length) in H;
      rewrite toLowerCase_length in H; cbn [String.length] in H; lia. }
  change (toLowerCase (String c ext))
    with (String (lowerChar c) (toLowerCase ext)) in Hlow.
  injection Hlow as _ Hlow.
  destruct (isExtension_cases _ Hext) as [H' | [H' | H']];
    rewrite H' in Hlow; discriminate Hlow.
Qed.

Lemma stripExtension_app base ext :
  isExtension ext = true -> stripExtension (base +:+ ext) = base.
Proof.
  intros Hext. induction base as [|c base IH].
  - change ("" +:+ ext) with ext. destruct ext as [|x ext]; [reflexivity|].
    rewrite stripExtension_cons, Hext. reflexivity.
  - rewrite append_cons, stripExtension_cons.
    rewrite (isExtension_not_longer c base ext Hext), IH. reflexivity.
Qed.

Lemma underscoresToSpaces_noChar s :
  noChar "_" (underscoresToSpaces s) = true.
Proof.
  unfold noChar, underscoresToSpaces.
  induction s as [|c s IH]; [reflexivity|]. simpl. rewrite IH.
  destruct (Ascii.eqb c "_") eqn:E; [reflexivity|]. rewrite E. reflexivity.
Qed.

(** X8. The file-name title of a name that ends in .pdf, .docx or .txt,
    in any letter case, is the name before that extension with underscores
    as spaces: one extension is cut, not two.  A file-name title never holds
    an underscore, and a name without such an extension keeps all its
    characters. *)
Theorem filename_title_cuts_one_extension :
  (forall base ext,
     isExtension ext = true ->
     filenameTitle (base +:+ ext) = underscoresToSpaces base) /\
  (forall filename, noChar "_" (filenameTitle filename) = true) /\
  (forall filename,
     extensionLength filename = 0 ->
     filenameTitle filename = underscoresToSpaces filename).
Proof.
  split; [|split].
  - intros base ext Hext. unfold filenameTitle.
    rewrite (stripExtension_app base ext Hext). reflexivity.
  - intros filename. apply underscoresToSpaces_noChar.
  - intros filename H. unfold filenameTitle.
    rewrite stripExtension_spec, H, Nat.sub_0_r.
    f_equal. clear. induction filename as [|c s IH]; [reflexivity|].
    simpl. rewrite IH. reflexivity.
Qed.

End TitleMore.

(* ================================================================== *)
(** * Further facts about the AI-backed path *)
(* ================================================================== *)

Section RegionFacts.
Import JS Gemini TextSpec.

Lemma noChar_app c a b : noChar c (a +:+ b) = noChar c a && noChar c b.
Proof. apply allChars_app. Qed.

Lemma noChar_cons c x s :
  noChar c (String x s) = negb (Ascii.eqb x c) && noChar c s.
Proof. reflexivity. Qed.

Lemma uptoLastBrace_none r : uptoLastBrace r = None <-> noChar "}" r = true.
Proof.
  induction r as [|c r IH]; [simpl; tauto|].
  cbn [uptoLastBrace]. rewrite noChar_cons, andb_true_iff, negb_true_iff.
  destruct (uptoLastBrace r) as [p|].
  - split; [discriminate|]. intros [_ H]. apply IH in H. discriminate H.
  - destruct (Ascii.eqb c "}").
    + split; [discriminate|]. intros [H _]. discriminate H.
    + split; [|reflexivity]. intros _. split; [reflexivity|].
      apply IH. reflexivity.
Qed.

Lemma uptoLastBrace_some r p :
  uptoLastBrace r = Some p ->
  exists body post,
    r = body +:+ "}" +:+ post /\ p = body +:+ "}" /\ noChar "}" post = true.
Proof.
  revert p. induction r as [|c r IH]; intros p; [discriminate|].
  cbn [uptoLastBrace].
  destruct (uptoLastBrace r) as [p'|] eqn:E.
  - intros [= <-]. destruct (IH p' eq_refl) as (body & post & -> & -> & Hpost).
    exists (String c body), post. repeat split; assumption.
  - destruct (Ascii.eqb c "}") eqn:Ec; [|discriminate].
    intros [= <-]. apply Ascii.eqb_eq in Ec. subst c.
    exists "", r. repeat split. apply uptoLastBrace_none, E.
Qed.

Lemma matchBraces_some s m :
  matchBraces s = Some m ->
  exists pre body post,
    s = pre +:+ String "{" (body +:+ "}") +:+ post /\
    m = String "{" (body +:+ "}") /\
    noChar "{" pre = true /\ noChar "}" post = true.
Proof.
  induction s as [|c s IH]; [discriminate|]. cbn [matchBraces].
  destruct (Ascii.eqb c "{") eqn:Ec.
  - apply Ascii.eqb_eq in Ec. subst c.
    destruct (uptoLastBrace s) as [p|] eqn:E.
    + intros [= <-].
      apply uptoLastBrace_some in E as (body & post & -> & -> & Hpost).
      exists "", body, post. split; [|repeat split; exact Hpost].
      change ("" +:+ String "{" (body +:+ "}") +:+ post)
        with (String "{" ((body +:+ "}") +:+ post)).
      rewrite append_assoc. reflexivity.
    + intros H. exfalso.
      destruct (IH H) as (pre & body & post & -> & _ & _ & _).
      apply uptoLastBrace_none in E.
      rewrite noChar_app, append_cons, noChar_cons, !noChar_app in E.
      rewrite !andb_true_iff in E. destruct E as (_ & _ & (_ & E) & _).
      discriminate E.
  - intros H. destruct (IH H) as (pre & body & post & -> & -> & Hpre & Hpost).
    exists (String c pre), body, post. repeat split; [|exact Hpost].
    rewrite noChar_cons, Ec, Hpre. reflexivity.
Qed.

Lemma matchBraces_none s :
  matchBraces s = None ->
  ~ exists pre body post, s = pre +:+ String "{" (body +:+ "}") +:+ post.
Proof.
  intros Hnone (pre & body & post & ->).
  induction pre as [|c pre IH].
  - change ("" +:+ String "{" (body +:+ "}") +:+ post)
      with (String "{" ((body +:+ "}") +:+ post)) in Hnone.
    cbn [matchBraces] in Hnone. rewrite Ascii.eqb_refl in Hnone.
    destruct (uptoLastBrace ((body +:+ "}") +:+ post)) eqn:E;
      [discriminate Hnone|].
    apply uptoLastBrace_none in E. rewrite !noChar_app in E.
    rewrite !andb_true_iff in E. destruct E as ((_ & E) & _). discriminate E.
  - rewrite append_cons in Hnone. cbn [matchBraces] in Hnone.
    destruct (Ascii.eqb c "{").
    + destruct (uptoLastBrace (pre +:+ String "{" (body +:+ "}") +:+ post));
        [discriminate Hnone|apply IH, Hnone].
    + apply IH, Hnone.
Qed.

(** X9. The text handed to [JSON.parse] runs from the first opening brace
    of the response to its last closing brace, whatever lies between; when
    no closing brace follows an opening one it is the text of the empty
    object. *)
Theorem json_region_spans_first_to_last_brace responseText :
  (exists pre body post,
     responseText = pre +:+ String "{" (body +:+ "}") +:+ post /\
     noChar "{" pre = true /\ noChar "}" post = true /\
     jsonContent responseText = String "{" (body +:+ "}")) \/
  (jsonContent responseText = "{}" /\
   ~ exists pre body post,
       responseText = pre +:+ String "{" (body +:+ "}") +:+ post).
Proof.
  unfold jsonContent. destruct (matchBraces responseText) as [m|] eqn:E.
  - left.
    destruct (matchBraces_some _ _ E) as (pre & body & post & H & Hm & Hp & Hq).
    exists pre, body, post. auto.
  - right. split; [reflexivity|]. apply matchBraces_none, E.
Qed.

Lemma jsonContent_not_empty responseText :
  isEmpty (jsonContent responseText) = false.
Proof.
  unfold jsonContent. destruct (matchBraces responseText) as [m|] eqn:E;
    [|reflexivity].
  destruct (matchBraces_some _ _ E) as (pre & body & post & _ & Hm & _).
  rewrite Hm. reflexivity.
Qed.

End RegionFacts.

Section SynthesisMore.
Import JS Gemini Dynamic Topics TextSpec.

Variable JSON_parse : string -> Outcome JsValue.
Variable generateContent : string -> Outcome string.
Variable denotesZero : string -> bool.

Lemma safeJsonParse_region responseText :
  safeJsonParse JSON_parse (jsonContent responseText) =
  match JSON_parse (jsonContent responseText) with
  | Returns v => v
  | Throws _ => JsObject []
  end.
Proof.
  unfold safeJsonParse. rewrite jsonContent_not_empty. reflexivity.
Qed.

Lemma lengthIsZero_empty_array topics :
  lengthIsZero denotesZero topics = false -> topics <> JsArray [].
Proof. intros H ->. discriminate H. Qed.

Lemma extractTopics_cases content :
  extractTopics JSON_parse generateContent denotesZero content =
    Returns defaultTopics \/
  exists topics,
    extractTopics JSON_parse generateContent denotesZero content =
      Returns topics /\
    lengthIsZero denotesZero topics = false.
Proof.
  unfold extractTopics.
  destruct (generateContent (topicsPrompt content)) as [r|e]; [|left; reflexivity].
  cbn [bindOutcome tryCatch].
  destruct (topicsProperty (safeJsonParse JSON_parse (jsonContent r)))
    as [found|e]; [|left; reflexivity].
  cbn [bindOutcome].
  destruct (lengthIsZero denotesZero (orEmptyArray denotesZero found)) eqn:E;
    [left; reflexivity|].
  right. eexists. split; [reflexivity|exact E].
Qed.

End SynthesisMore.

Section SynthesisTheorems.
Import JS Gemini Dynamic Topics TextSpec.

(** X10. [generateExam] always resolves.  It resolves to the mock exam
    when the call to the model throws, and to whatever [JSON.parse] makes of
    the brace region when the model answers: that value is returned as it
    is, not checked against the configuration. *)
Theorem generateExam_resolves
  (JSON_parse : string -> Outcome JsValue)
  (generateContent : string -> Outcome string) content config filename :
  (exists v,
     generateExam JSON_parse generateContent content config filename =
     Returns v) /\
  (forall e,
     generateContent (prompt content config) = Throws e ->
     generateExam JSON_parse generateContent content config filename =
     Returns (examToJs (generateMockExam content config
                          (extractCourseTitle content filename)))) /\
  (forall responseText v,
     generateContent (prompt content config) = Returns responseText ->
     JSON_parse (jsonContent responseText) = Returns v ->
     generateExam JSON_parse generateContent content config filename =
     Returns v).
Proof.
  split; [apply generateExam_never_throws|]. split.
  - intros e. apply generateExam_backend_failure.
  - intros r v Hr Hv.
    rewrite (generateExam_response _ _ _ _ _ r Hr).
    rewrite safeJsonParse_region, Hv. reflexivity.
Qed.

(** X11. Both requests to the model read the first 15,000 characters of
    the syllabus only: texts that agree on them give the same prompts. *)
Theorem prompts_read_the_truncated_prefix s1 s2 config :
  substring0 15000 s1 = substring0 15000 s2 ->
  prompt s1 config = prompt s2 config /\ topicsPrompt s1 = topicsPrompt s2.
Proof.
  intros H. unfold prompt, topicsPrompt. rewrite H. split; reflexivity.
Qed.

Lemma prompts_read_the_truncated_prefix_witness :
  prompt TruncationSpec.longLine TruncationSpec.fiveMixed =
  prompt TruncationSpec.longLineExtended TruncationSpec.fiveMixed /\
  topicsPrompt TruncationSpec.longLine =
  topicsPrompt TruncationSpec.longLineExtended.
Proof.
  apply (prompts_read_the_truncated_prefix
           TruncationSpec.longLine TruncationSpec.longLineExtended).
  vm_compute. reflexivity.
Defined.

(** X12. [extractTopics] always resolves, and never to the empty array:
    where the model gives no topic it gives the seven default topics. *)
Theorem extractTopics_never_empty
  (JSON_parse : string -> Outcome JsValue)
  (generateContent : string -> Outcome string)
  (denotesZero : string -> bool) content :
  exists v,
    extractTopics JSON_parse generateContent denotesZero content = Returns v /\
    v <> JsArray [].
Proof.
  destruct (extractTopics_cases JSON_parse generateContent denotesZero content)
    as [H | (topics & H & Hlen)].
  - exists defaultTopics. split; [exact H|discriminate].
  - exists topics. split; [exact H|].
    apply (lengthIsZero_empty_array denotesZero), Hlen.
Qed.

(** X13. [extractTopics] gives the default topics when the call to the
    model throws, when the brace region of the answer is not JSON, and when
    the parsed object has no topics, the empty array or null as its
    topics. *)
Theorem extractTopics_defaults
  (JSON_parse : string -> Outcome JsValue)
  (generateContent : string -> Outcome string)
  (denotesZero : string -> bool) content :
  (forall e,
     generateContent (topicsPrompt content) = Throws e ->
     extractTopics JSON_parse generateContent denotesZero content =
     Returns defaultTopics) /\
  (forall responseText e,
     generateContent (topicsPrompt content) = Returns responseText ->
     JSON_parse (jsonContent responseText) = Throws e ->
     extractTopics JSON_parse generateContent denotesZero content =
     Returns defaultTopics) /\
  (forall responseText properties,
     generateContent (topicsPrompt content) = Returns responseText ->
     JSON_parse (jsonContent responseText) = Returns (JsObject properties) ->
     ownProperty "topics" properties = None \/
     ownProperty "topics" properties = Some (JsArray []) \/
     ownProperty "topics" properties = Some JsNull ->
     extractTopics JSON_parse generateContent denotesZero content =
     Returns defaultTopics).
Proof.
  split; [|split].
  - intros e H. unfold extractTopics. rewrite H. reflexivity.
  - intros r e Hr He. unfold extractTopics. rewrite Hr.
    cbn [bindOutcome]. rewrite safeJsonParse_region, He. reflexivity.
  - intros r properties Hr Hv Htopics. unfold extractTopics. rewrite Hr.
    cbn [bindOutcome]. rewrite safeJsonParse_region, Hv.
    unfold topicsProperty, propertyOf. cbn [bindOutcome].
    destruct Htopics as [-> | [-> | ->]]; reflexivity.
Qed.

(** X14. When the parsed object has a non-empty array as its topics,
    [extractTopics] resolves to that array as it is: the items are not
    checked to be topics, nor their number or importance to be in range. *)
Theorem extractTopics_returns_topics_unchecked
  (JSON_parse : string -> Outcome JsValue)
  (generateContent : string -> Outcome string)
  (denotesZero : string -> bool) content responseText properties item items :
  generateContent (topicsPrompt content) = Returns responseText ->
  JSON_parse (jsonContent responseText) = Returns (JsObject properties) ->
  ownProperty "topics" properties = Some (JsArray (item :: items)) ->
  extractTopics JSON_parse generateContent denotesZero content =
  Returns (JsArray (item :: items)).
Proof.
  intros Hr Hv Htopics. unfold extractTopics. rewrite Hr.
  cbn [bindOutcome]. rewrite safeJsonParse_region, Hv.
  unfold topicsProperty, propertyOf. cbn [bindOutcome].
  rewrite Htopics. reflexivity.
Qed.

Lemma extractTopics_returns_topics_unchecked_witness :
  extractTopics JsonFragment.parse (fun _ => Returns TopicsSpec.oneTopic)
    TopicsSpec.integerIsZero "Week 1: Cells" =
  Returns (JsArray [JsObject [("name", JsString "Cells");
                              ("importance", JsNumber "42")]]).
Proof.
  apply (extractTopics_returns_topics_unchecked JsonFragment.parse
           (fun _ => Returns TopicsSpec.oneTopic) TopicsSpec.integerIsZero
           "Week 1: Cells" TopicsSpec.oneTopic
           [("topics", JsArray [JsObject [("name", JsString "Cells");
                                          ("importance", JsNumber "42")]])]).
  - reflexivity.
  - vm_compute. reflexivity.
  - reflexivity.
Defined.

End SynthesisTheorems.

(* ================================================================== *)
(** * Further facts about the grading routes *)
(* ================================================================== *)

Section RouteMore.
Import JS Routes GradingSpec RouteSpec Storage.

Lemma knownPrefix_known qmap batch :
  allKnown qmap batch -> knownPrefix qmap batch = batch.
Proof.
  induction 1 as [|a batch [q Hq] _ IH]; [reflexivity|].
  simpl. rewrite Hq, IH. reflexivity.
Qed.

Lemma knownPrefix_allKnown qmap batch : allKnown qmap (knownPrefix qmap batch).
Proof.
  induction batch as [|a batch IH]; simpl; [constructor|].
  destruct (qmap !! questionId a) eqn:E; constructor; [eauto|exact IH].
Qed.

(** The loop stores a row for each entry before the first unknown one,
    under consecutive ids, and changes nothing else. *)
Lemma processAnswers_state attempt qmap batch s db :
  snd (processAnswers attempt qmap batch s db) =
  {| exams := exams db;
     questions := questions db;
     examAttempts := examAttempts db;
     answers := answers db ++
                answerRows attempt qmap (knownPrefix qmap batch) (nextAnswerId db);
     nextAttemptId := nextAttemptId db;
     nextAnswerId :=
       nextAnswerId db + Z.of_nat (length (knownPrefix qmap batch)) |}.
Proof.
  revert s db. induction batch as [|a batch IH]; intros s db.
  - destruct db. simpl. rewrite app_nil_r, Z.add_0_r. reflexivity.
  - cbn [processAnswers knownPrefix].
    destruct (qmap !! questionId a) as [question|] eqn:Hq.
    + cbn [createAnswer]. rewrite IH.
      cbn [exams questions examAttempts answers nextAttemptId nextAnswerId
           answerRows length].
      unfold gradedCorrect. rewrite Hq. rewrite <- app_assoc.
      f_equal. lia.
    + destruct db. simpl. rewrite app_nil_r, Z.add_0_r. reflexivity.
Qed.

Lemma answerRows_ids attempt qmap batch n :
  map answer_id (answerRows attempt qmap batch n) =
  map (fun k => (n + Z.of_nat k)%Z) (seq 0 (length batch)).
Proof.
  revert n. induction batch as [|a batch IH]; intros n; [reflexivity|].
  cbn [answerRows map length seq]. rewrite IH. f_equal; [cbn; lia|].
  rewrite <- seq_shift, map_map. apply map_ext. intros k. lia.
Qed.

Lemma answerRows_attempt attempt qmap batch n :
  Forall (fun row => attemptId row = attempt_id attempt)
         (answerRows attempt qmap batch n).
Proof.
  revert n. induction batch as [|a batch IH]; intros n; constructor;
    [reflexivity|apply IH].
Qed.

Lemma answerRows_length attempt qmap batch n :
  length (answerRows attempt qmap batch n) = length batch.
Proof.
  revert n. induction batch as [|a batch IH]; intros n; [reflexivity|].
  simpl. rewrite IH. reflexivity.
Qed.

Lemma answerRows_markedCorrect attempt qmap batch n :
  markedCorrect (answerRows attempt qmap batch n) = correctCount qmap batch.
Proof.
  unfold markedCorrect, correctCount. f_equal.
  revert n. induction batch as [|a batch IH]; intros n; [reflexivity|].
  cbn [answerRows List.filter isCorrect].
  destruct (gradedCorrect qmap a); simpl; rewrite IH; reflexivity.
Qed.

Lemma head_filter_completeRow_other id j newScore now (l : list ExamAttempt) :
  j <> id ->
  head (List.filter (fun a => (attempt_id a =? j)%Z)
          (map (completeRow id newScore now) l)) =
  head (List.filter (fun a => (attempt_id a =? j)%Z) l).
Proof.
  intros Hne. induction l as [|x l IH]; [reflexivity|]. simpl.
  rewrite completeRow_id.
  destruct (attempt_id x =? j)%Z eqn:E; [|exact IH].
  simpl. f_equal. unfold completeRow.
  apply Z.eqb_eq in E.
  destruct (attempt_id x =? id)%Z eqn:E'; [|reflexivity].
  apply Z.eqb_eq in E'. congruence.
Qed.

Lemma map_completeRow_ids id newScore now (l : list ExamAttempt) :
  map attempt_id (map (completeRow id newScore now) l) = map attempt_id l.
Proof.
  rewrite map_map. apply map_ext. intros a. apply completeRow_id.
Qed.

(** The database after a submission: the attempts table as it was or with
    the addressed attempt completed, and rows added to the answers. *)
Lemma submitAnswers_state db id body now :
  exists attempts' added,
    snd (submitAnswers db id body now) =
    {| exams := exams db;
       questions := questions db;
       examAttempts := attempts';
       answers := answers db ++ added;
       nextAttemptId := nextAttemptId db;
       nextAnswerId := nextAnswerId db + Z.of_nat (length added) |} /\
    map answer_id added =
      map (fun k => (nextAnswerId db + Z.of_nat k)%Z) (seq 0 (length added)) /\
    (attempts' = examAttempts db \/
     exists i newScore,
       id = Some i /\
       attempts' = map (completeRow i newScore now) (examAttempts db)).
Proof.
  assert (Hsame : exists attempts' added,
    db =
    {| exams := exams db; questions := questions db;
       examAttempts := attempts'; answers := answers db ++ added;
       nextAttemptId := nextAttemptId db;
       nextAnswerId := nextAnswerId db + Z.of_nat (length added) |} /\
    map answer_id added =
      map (fun k => (nextAnswerId db + Z.of_nat k)%Z) (seq 0 (length added)) /\
    (attempts' = examAttempts db \/
     exists i newScore,
       id = Some i /\
       attempts' = map (completeRow i newScore now) (examAttempts db))).
  { exists (examAttempts db), []. split; [|split; [reflexivity|left; reflexivity]].
    destruct db. simpl. rewrite app_nil_r, Z.add_0_r. reflexivity. }
  unfold submitAnswers.
  destruct id as [i|]; [|exact Hsame].
  destruct (getExamAttempt db i) as [attempt|] eqn:Hget; [|exact Hsame].
  destruct (completedAt attempt); [exact Hsame|].
  destruct body as [message|batch]; [exact Hsame|].
  clear Hsame.
  set (qmap := questionsMap (getQuestionsByExamId db (attempt_examId attempt))).
  pose proof (processAnswers_state attempt qmap batch 0 db) as Hstate.
  destruct (processAnswers attempt qmap batch 0 db) as [[response|s] db1];
    cbn [snd] in Hstate; subst db1.
  - exists (examAttempts db),
      (answerRows attempt qmap (knownPrefix qmap batch) (nextAnswerId db)).
    split; [cbn [snd]; rewrite answerRows_length; reflexivity|].
    split; [rewrite answerRows_ids, answerRows_length; reflexivity|].
    left. reflexivity.
  - unfold completeExamAttempt.
    cbn [exams questions examAttempts answers nextAttemptId nextAnswerId].
    rewrite (getExamAttempt_id db i attempt Hget).
    exists (map (completeRow i s now) (examAttempts db)),
      (answerRows attempt qmap (knownPrefix qmap batch) (nextAnswerId db)).
    split.
    + match goal with
      | |- context [getExamAttempt ?d i] => destruct (getExamAttempt d i)
      end; cbn [snd]; rewrite answerRows_length; reflexivity.
    + split; [rewrite answerRows_ids, answerRows_length; reflexivity|].
      right. eauto.
Qed.

(** X15. A submission, whatever its outcome, leaves the exams and the
    questions alone, keeps every stored answer in place and only appends to
    them, and changes no attempt but the one it addresses. *)
Theorem submitAnswers_frame db id body now :
  exams (snd (submitAnswers db id body now)) = exams db /\
  questions (snd (submitAnswers db id body now)) = questions db /\
  nextAttemptId (snd (submitAnswers db id body now)) = nextAttemptId db /\
  map attempt_id (examAttempts (snd (submitAnswers db id body now))) =
    map attempt_id (examAttempts db) /\
  (exists added,
     answers (snd (submitAnswers db id body now)) = answers db ++ added) /\
  (forall j,
     id <> Some j ->
     getExamAttempt (snd (submitAnswers db id body now)) j =
     getExamAttempt db j).
Proof.
  destruct (submitAnswers_state db id body now)
    as (attempts' & added & -> & _ & Hatt).
  cbn [exams questions examAttempts answers nextAttemptId].
  repeat split.
  - destruct Hatt as [-> | (i & newScore & _ & ->)];
      [reflexivity|apply map_completeRow_ids].
  - exists added. reflexivity.
  - intros j Hj. unfold getExamAttempt. cbn [examAttempts].
    destruct Hatt as [-> | (i & newScore & -> & ->)]; [reflexivity|].
    apply head_filter_completeRow_other. congruence.
Qed.

Lemma NoDup_consecutive (n : Z) (len : nat) :
  NoDup (map (fun k => (n + Z.of_nat k)%Z) (seq 0 len)).
Proof.
  apply NoDup_fmap_2; [|apply NoDup_seq].
  intros a b H. lia.
Qed.

(** X16. Starting an attempt and submitting answers keep the serial ids in
    order: every attempt id and answer id is below the next value of its
    column, and no id is repeated. *)
Theorem serials_stay_fresh db :
  SerialsFresh db ->
  (forall id now, SerialsFresh (snd (startAttempt db id now))) /\
  (forall id body now, SerialsFresh (snd (submitAnswers db id body now))).
Proof.
  intros (Hatt & Hans & Hnd1 & Hnd2). split.
  - intros id now. unfold startAttempt.
    destruct id as [i|]; [|repeat split; assumption].
    destruct (getExam db i) as [exam|]; [|repeat split; assumption].
    cbn [createExamAttempt snd]. unfold SerialsFresh.
    cbn [examAttempts answers nextAttemptId nextAnswerId attempt_id].
    split; [|split; [exact Hans|split; [|exact Hnd2]]].
    + apply Forall_app. split.
      * eapply Forall_impl; [exact Hatt|]. cbn. intros a Ha. lia.
      * constructor; [cbn; lia|constructor].
    + rewrite map_app. apply NoDup_app. split; [exact Hnd1|]. split.
      * intros x Hx Hx'. cbn in Hx'. apply list_elem_of_singleton in Hx'.
        subst x. apply list_elem_of_fmap in Hx as (a & Ha & Hin).
        rewrite Forall_forall in Hatt. specialize (Hatt a Hin). cbn in Hatt. lia.
      * cbn. apply NoDup_singleton.
  - intros id body now.
    destruct (submitAnswers_state db id body now)
      as (attempts' & added & -> & Hids & Hattempts).
    unfold SerialsFresh.
    cbn [examAttempts answers nextAttemptId nextAnswerId].
    assert (Hmap : map attempt_id attempts' = map attempt_id (examAttempts db)).
    { destruct Hattempts as [-> | (i & newScore & _ & ->)];
        [reflexivity|apply map_completeRow_ids]. }
    assert (Hbound : Forall (fun a => (nextAnswerId db <= answer_id a <
                                       nextAnswerId db + Z.of_nat (length added))%Z)
                            added).
    { apply Forall_forall. intros a Ha.
      assert (Hin : answer_id a ∈ map answer_id added)
        by (apply list_elem_of_fmap; eauto).
      rewrite Hids in Hin. apply list_elem_of_fmap in Hin as (k & -> & Hk).
      apply elem_of_seq in Hk. lia. }
    split; [|split; [|split]].
    + apply (proj1 (List.Forall_map attempt_id
                      (fun z => (z < nextAttemptId db)%Z) attempts')).
      rewrite Hmap. apply List.Forall_map. exact Hatt.
    + apply Forall_app. split.
      * eapply Forall_impl; [exact Hans|]. cbn. intros a Ha. lia.
      * eapply Forall_impl; [exact Hbound|]. cbn. intros a Ha. lia.
    + rewrite Hmap. exact Hnd1.
    + rewrite map_app. apply NoDup_app. split; [exact Hnd2|]. split.
      * intros x Hx Hx'. apply list_elem_of_fmap in Hx as (a & -> & Hin).
        apply list_elem_of_fmap in Hx' as (b & Hb & Hin').
        rewrite Forall_forall in Hans. specialize (Hans a Hin).
        rewrite Forall_forall in Hbound. specialize (Hbound b Hin').
        cbn in Hans. lia.
      * rewrite Hids. apply NoDup_consecutive.
Qed.

Lemma serials_stay_fresh_witness :
  SerialsFresh startedDb /\ SerialsFresh gradedDb.
Proof.
  assert (Hfresh : SerialsFresh freshDb).
  { repeat split; constructor. }
  destruct (serials_stay_fresh freshDb Hfresh) as [Hstart _].
  pose proof (Hstart (Some 1%Z) 2000%Z) as Hstarted.
  split; [exact Hstarted|].
  destruct (serials_stay_fresh startedDb Hstarted) as [_ Hsubmit].
  exact (Hsubmit (Some 1%Z)
           (Batch [ {| questionId := 1; submitted := "A" |} ]) 3000%Z).
Defined.

End RouteMore.

Section RouteComposition.
Import JS Routes GradingSpec RouteSpec Storage.

Lemma completeRow_stored id attempt points now :
  attempt_id attempt = id ->
  completeRow id points now attempt = completedWith attempt points now.
Proof.
  intros H. unfold completeRow, completedWith. rewrite H, Z.eqb_refl.
  reflexivity.
Qed.

(** The response and the database after a batch of known entries is
    graded. *)
Lemma submitAnswers_known_state db id attempt batch now :
  getExamAttempt db id = Some attempt ->
  completedAt attempt = None ->
  allKnown (boundQuestions db attempt) batch ->
  let points := correctCount (boundQuestions db attempt) batch in
  let rows :=
    answerRows attempt (boundQuestions db attempt) batch (nextAnswerId db) in
  let db' :=
    {| exams := exams db;
       questions := questions db;
       examAttempts := map (completeRow id points now) (examAttempts db);
       answers := answers db ++ rows;
       nextAttemptId := nextAttemptId db;
       nextAnswerId := nextAnswerId db + Z.of_nat (length batch) |} in
  submitAnswers db (Some id) (Batch batch) now =
  ({| status := 200;
      payload := Graded (completedWith attempt points now)
                        (getAnswersByAttemptId db' id)
                        points (maxScore attempt) |}, db').
Proof.
  intros Hget Hopen Hknown points rows db'.
  pose proof (getExamAttempt_id db id attempt Hget) as Hid.
  unfold submitAnswers. rewrite Hget, Hopen.
  fold (boundQuestions db attempt).
  pose proof (processAnswers_known attempt (boundQuestions db attempt)
                batch 0 db Hknown) as Hfst.
  pose proof (processAnswers_state attempt (boundQuestions db attempt)
                batch 0 db) as Hsnd.
  rewrite (knownPrefix_known _ _ Hknown) in Hsnd.
  destruct (processAnswers attempt (boundQuestions db attempt) batch 0 db)
    as [[response|s] db1]; cbn [fst snd] in Hfst, Hsnd;
    [discriminate Hfst|].
  injection Hfst as ->. subst db1. rewrite Z.add_0_l. fold points rows.
  unfold completeExamAttempt.
  cbn [exams questions examAttempts answers nextAttemptId nextAnswerId].
  rewrite Hid. unfold getExamAttempt at 1. cbn [examAttempts].
  unfold getExamAttempt in Hget.
  rewrite (head_filter_completeRow id points now _ attempt Hget).
  rewrite (completeRow_stored id attempt points now Hid).
  reflexivity.
Qed.

Lemma filter_all {A : Type} (f : A -> bool) (l : list A) :
  Forall (fun x => f x = true) l -> List.filter f l = l.
Proof.
  induction 1 as [|x l Hx _ IH]; [reflexivity|].
  simpl. rewrite Hx, IH. reflexivity.
Qed.

Lemma getAnswersByAttemptId_rows attempt qmap batch n :
  List.filter (fun a => (attemptId a =? attempt_id attempt)%Z)
              (answerRows attempt qmap batch n) =
  answerRows attempt qmap batch n.
Proof.
  apply filter_all. eapply Forall_impl; [apply answerRows_attempt|].
  cbn. intros a ->. apply Z.eqb_refl.
Qed.

(** X17. A batch that is graded closes its attempt.  Before, the results
    of the attempt are refused as not yet completed.  After, the attempt is
    stored as completed at that time with the score, every further
    submission to it is refused and changes nothing, and the results give
    the score, the maxScore and the stored answers of the attempt, those
    of the batch last. *)
Theorem graded_attempt_is_closed db id attempt batch now :
  getExamAttempt db id = Some attempt ->
  completedAt attempt = None ->
  allKnown (boundQuestions db attempt) batch ->
  let points := correctCount (boundQuestions db attempt) batch in
  let db' := snd (submitAnswers db (Some id) (Batch batch) now) in
  getResults db (Some id) = notice 400 "Exam attempt not yet completed" /\
  getExamAttempt db' id = Some (completedWith attempt points now) /\
  (forall body later,
     submitAnswers db' (Some id) body later =
     ({| status := 400; payload := Message "Exam attempt already completed" |},
      db')) /\
  exists entries,
    getResults db' (Some id) =
      success 200 {| results_attempt := completedWith attempt points now;
                     results := entries;
                     results_score := Some points;
                     results_maxScore := maxScore attempt |} /\
    map result_answer entries =
      getAnswersByAttemptId db id ++
      answerRows attempt (boundQuestions db attempt) batch (nextAnswerId db).
Proof.
  intros Hget Hopen Hknown points db'.
  pose proof (getExamAttempt_id db id attempt Hget) as Hid.
  assert (Hstored : getExamAttempt db' id =
                    Some (completedWith attempt points now)).
  { unfold db'.
    rewrite (submitAnswers_known_state db id attempt batch now Hget Hopen Hknown).
    cbn [snd]. unfold getExamAttempt in *. cbn [examAttempts].
    rewrite (head_filter_completeRow id _ now _ attempt Hget).
    rewrite (completeRow_stored id attempt _ now Hid). reflexivity. }
  split; [unfold getResults; rewrite Hget, Hopen; reflexivity|].
  split; [exact Hstored|]. split.
  - intros body later. unfold submitAnswers. rewrite Hstored. reflexivity.
  - unfold getResults. rewrite Hstored. cbn [completedAt completedWith].
    eexists. split; [reflexivity|].
    rewrite map_map. cbn [result_answer]. rewrite map_id.
    cbn [attempt_id]. unfold db'.
    rewrite (submitAnswers_known_state db id attempt batch now Hget Hopen Hknown).
    cbn [snd]. unfold getAnswersByAttemptId. cbn [answers].
    change (attempt_id (completedWith attempt points now))
      with (attempt_id attempt).
    rewrite List.filter_app, getAnswersByAttemptId_rows, Hid. reflexivity.
Qed.

Lemma graded_attempt_is_closed_witness :
  getResults startedDb (Some 1%Z) =
    notice 400 "Exam attempt not yet completed" /\
  getExamAttempt gradedDb 1 =
    Some {| attempt_id := 1; attempt_examId := 1; startedAt := 2000;
            completedAt := Some 3000%Z; score := Some 1%Z; maxScore := 2 |}.
Proof.
  destruct (graded_attempt_is_closed startedDb 1%Z
              {| attempt_id := 1; attempt_examId := 1; startedAt := 2000;
                 completedAt := None; score := None; maxScore := 2 |}
              [ {| questionId := 1; submitted := "A" |} ] 3000%Z
              eq_refl eq_refl)
    as (Hbefore & Hafter & _).
  - repeat constructor. exists (mcQuestion 1 "a"). vm_compute. reflexivity.
  - split; [exact Hbefore|exact Hafter].
Defined.

(** X18. A graded batch is stored entry by entry: the answers table gains
    one row per entry, in the order of the batch and under consecutive ids,
    each with the question, the answer and the mark of its entry, and the
    score is the number of these rows marked correct. *)
Theorem graded_batch_is_stored db id attempt batch now :
  getExamAttempt db id = Some attempt ->
  completedAt attempt = None ->
  allKnown (boundQuestions db attempt) batch ->
  let qmap := boundQuestions db attempt in
  let db' := snd (submitAnswers db (Some id) (Batch batch) now) in
  exists rows,
    answers db' = answers db ++ rows /\
    map answer_questionId rows = map questionId batch /\
    map answer rows = map submitted batch /\
    map isCorrect rows = map (fun a => Some (gradedCorrect qmap a)) batch /\
    map answer_id rows =
      map (fun k => (nextAnswerId db + Z.of_nat k)%Z) (seq 0 (length batch)) /\
    Forall (fun row => attemptId row = id) rows /\
    markedCorrect rows = correctCount qmap batch.
Proof.
  intros Hget Hopen Hknown qmap db'.
  pose proof (getExamAttempt_id db id attempt Hget) as Hid.
  exists (answerRows attempt qmap batch (nextAnswerId db)).
  split.
  { unfold db'.
    rewrite (submitAnswers_known_state db id attempt batch now Hget Hopen Hknown).
    reflexivity. }
  assert (Hfields : forall n,
    map answer_questionId (answerRows attempt qmap batch n) =
      map questionId batch /\
    map answer (answerRows attempt qmap batch n) = map submitted batch /\
    map isCorrect (answerRows attempt qmap batch n) =
      map (fun a => Some (gradedCorrect qmap a)) batch).
  { clear. induction batch as [|a batch IH]; intros n; [repeat split|].
    destruct (IH (n + 1)%Z) as (H1 & H2 & H3).
    cbn [answerRows map answer_questionId answer isCorrect].
    rewrite H1, H2, H3. repeat split. }
  destruct (Hfields (nextAnswerId db)) as (H1 & H2 & H3).
  split; [exact H1|]. split; [exact H2|]. split; [exact H3|].
  split; [apply answerRows_ids|]. split.
  - rewrite <- Hid. apply answerRows_attempt.
  - apply answerRows_markedCorrect.
Qed.

Lemma graded_batch_is_stored_witness :
  exists rows,
    answers gradedDb = answers startedDb ++ rows /\
    map answer rows = ["A"] /\
    markedCorrect rows = 1%Z.
Proof.
  destruct (graded_batch_is_stored startedDb 1%Z
              {| attempt_id := 1; attempt_examId := 1; startedAt := 2000;
                 completedAt := None; score := None; maxScore := 2 |}
              [ {| questionId := 1; submitted := "A" |} ] 3000%Z
              eq_refl eq_refl)
    as (rows & Hrows & _ & Hanswer & _ & _ & _ & Hmarked).
  - repeat constructor. exists (mcQuestion 1 "a"). vm_compute. reflexivity.
  - exists rows. split; [exact Hrows|]. split; [exact Hanswer|exact Hmarked].
Defined.

(** X19. With serial ids in order, starting an attempt on a stored exam
    stores an open, unscored attempt under the next id; looking that id up
    gives the attempt back, every attempt stored before is found as before,
    and the other tables are as they were. *)
Theorem started_attempt_is_found db examId exam now :
  SerialsFresh db ->
  getExam db examId = Some exam ->
  exists attempt,
    startAttempt db (Some examId) now =
      ({| status := 201; payload := AttemptCreated attempt |},
       snd (startAttempt db (Some examId) now)) /\
    attempt_id attempt = nextAttemptId db /\
    completedAt attempt = None /\ score attempt = None /\
    getExamAttempt (snd (startAttempt db (Some examId) now))
                   (attempt_id attempt) = Some attempt /\
    (forall j a,
       getExamAttempt db j = Some a ->
       getExamAttempt (snd (startAttempt db (Some examId) now)) j = Some a) /\
    exams (snd (startAttempt db (Some examId) now)) = exams db /\
    questions (snd (startAttempt db (Some examId) now)) = questions db /\
    answers (snd (startAttempt db (Some examId) now)) = answers db.
Proof.
  intros (Hatt & _) Hexam. unfold startAttempt. rewrite Hexam.
  cbn [createExamAttempt snd]. eexists. split; [reflexivity|].
  cbn [attempt_id completedAt score exams questions answers].
  repeat split.
  - unfold getExamAttempt. cbn [examAttempts].
    rewrite List.filter_app.
    assert (Hnone : List.filter (fun a => (attempt_id a =? nextAttemptId db)%Z)
                                (examAttempts db) = []).
    { clear - Hatt. induction Hatt as [|a l Ha _ IH]; [reflexivity|].
      simpl. destruct (attempt_id a =? nextAttemptId db)%Z eqn:E; [|exact IH].
      apply Z.eqb_eq in E. lia. }
    rewrite Hnone. cbn. rewrite Z.eqb_refl. reflexivity.
  - intros j a Hj. unfold getExamAttempt in *. cbn [examAttempts].
    rewrite List.filter_app.
    destruct (List.filter (fun a => (attempt_id a =? j)%Z) (examAttempts db));
      [discriminate Hj|exact Hj].
Qed.

Lemma started_attempt_is_found_witness :
  getExamAttempt startedDb 1 =
  Some {| attempt_id := 1; attempt_examId := 1; startedAt := 2000;
          completedAt := None; score := None; maxScore := 2 |}.
Proof.
  assert (Hfresh : SerialsFresh freshDb) by (repeat split; constructor).
  destruct (started_attempt_is_found freshDb 1%Z anExam 2000%Z Hfresh eq_refl)
    as (attempt & Hstart & _ & _ & _ & Hfound & _).
  injection Hstart as Hattempt. subst attempt. exact Hfound.
Defined.

End RouteComposition.

(* ================================================================== *)
(** * Deleting a syllabus *)
(* ================================================================== *)

Section DeleteFacts.
Import JS Routes Storage DeleteSpec.

Lemma filter_filter_and {A : Type} (f g : A -> bool) (l : list A) :
  List.filter g (List.filter f l) = List.filter (fun x => f x && g x) l.
Proof.
  induction l as [|x l IH]; [reflexivity|]. simpl.
  destruct (f x); simpl; [destruct (g x)|]; rewrite IH; reflexivity.
Qed.

Lemma memberZ_In x l : memberZ x l = true <-> In x l.
Proof.
  unfold memberZ. rewrite existsb_exists. split.
  - intros (y & Hy & E). apply Z.eqb_eq in E. subst y. exact Hy.
  - intros H. exists x. split; [exact H|apply Z.eqb_refl].
Qed.

Lemma memberZ_ext x l1 l2 :
  (forall y, In y l1 <-> In y l2) -> memberZ x l1 = memberZ x l2.
Proof.
  intros H. destruct (memberZ x l2) eqn:E.
  - apply memberZ_In, H, memberZ_In, E.
  - destruct (memberZ x l1) eqn:E1; [|reflexivity].
    apply memberZ_In, H, memberZ_In in E1. congruence.
Qed.

Lemma insertDesc_In {A : Type} (key : A -> Z) x (l : list A) y :
  In y (insertDesc key x l) <-> y = x \/ In y l.
Proof.
  induction l as [|z l IH]; simpl; [intuition|].
  destruct (key z <=? key x)%Z; simpl; [intuition|].
  rewrite IH. intuition.
Qed.

Lemma orderByDesc_In {A : Type} (key : A -> Z) (l : list A) y :
  In y (orderByDesc key l) <-> In y l.
Proof.
  unfold orderByDesc. induction l as [|x l IH]; simpl; [tauto|].
  rewrite insertDesc_In, IH. intuition.
Qed.

(** The loop over the attempts of an exam deletes the answers of each. *)
Lemma deleteAnswersOf_filter attempts rows :
  deleteAnswersOf attempts rows =
  List.filter (fun r => negb (memberZ (attemptId r) (map attempt_id attempts)))
              rows.
Proof.
  unfold deleteAnswersOf. revert rows.
  induction attempts as [|a attempts IH]; intros rows; simpl.
  - symmetry. apply filter_all. apply Forall_forall. reflexivity.
  - rewrite IH, filter_filter_and. apply List.filter_ext. intros r.
    rewrite negb_orb. reflexivity.
Qed.

Lemma memberZ_split {A : Type} (f : A -> Z) (p q : A -> bool) (l : list A) x :
  memberZ x (map f (List.filter (fun a => p a || q a) l)) =
  memberZ x (map f (List.filter p l)) ||
  memberZ x (map f (List.filter q (List.filter (fun a => negb (p a)) l))).
Proof.
  induction l as [|a l IH]; [reflexivity|]. simpl.
  destruct (p a); simpl.
  - rewrite IH. destruct (x =? f a)%Z; reflexivity.
  - destruct (q a); simpl; rewrite IH;
      destruct (x =? f a)%Z; simpl; try reflexivity.
    rewrite orb_true_r. reflexivity.
Qed.

Lemma withoutExams_nil t : withoutExams t [] = t.
Proof.
  assert (Hnone : forall l : list ExamAttempt,
            List.filter (fun _ => false) l = []).
  { induction l as [|a l IH]; [reflexivity|exact IH]. }
  assert (Hall : forall (A : Type) (l : list A),
            List.filter (fun _ => true) l = l).
  { induction l as [|a l IH]; [reflexivity|]. simpl. rewrite IH. reflexivity. }
  destruct t. unfold withoutExams. cbn [memberZ negb examAttempts questions
    answers exams nextAttemptId nextAnswerId].
  rewrite Hnone. cbn [map memberZ negb]. rewrite !Hall. reflexivity.
Qed.

Lemma withoutExams_step t exam ids :
  withoutExams (deleteExamData t exam) ids =
  withoutExams t (exam_id exam :: ids).
Proof.
  unfold withoutExams, deleteExamData.
  cbn [exams questions examAttempts answers nextAttemptId nextAnswerId].
  f_equal.
  - rewrite filter_filter_and. apply List.filter_ext. intros q.
    simpl. rewrite negb_orb. reflexivity.
  - rewrite filter_filter_and. apply List.filter_ext. intros a.
    simpl. rewrite negb_orb. reflexivity.
  - rewrite deleteAnswersOf_filter, filter_filter_and.
    apply List.filter_ext. intros r. rewrite <- negb_orb. f_equal.
    symmetry.
    apply (memberZ_split attempt_id
             (fun a => (attempt_examId a =? exam_id exam)%Z)
             (fun a => memberZ (attempt_examId a) ids)).
Qed.

(** The loop over the related exams, as one deletion. *)
Lemma foldl_deleteExamData t related :
  foldl deleteExamData t related = withoutExams t (map exam_id related).
Proof.
  revert t. induction related as [|exam related IH]; intros t; simpl.
  - symmetry. apply withoutExams_nil.
  - rewrite IH. apply withoutExams_step.
Qed.

Lemma withoutExams_ext t ids1 ids2 :
  (forall y, In y ids1 <-> In y ids2) ->
  withoutExams t ids1 = withoutExams t ids2.
Proof.
  intros H. unfold withoutExams.
  assert (Hm : forall x, memberZ x ids1 = memberZ x ids2)
    by (intros x; apply memberZ_ext, H).
  f_equal.
  - apply List.filter_ext. intros q. rewrite Hm. reflexivity.
  - apply List.filter_ext. intros a. rewrite Hm. reflexivity.
  - rewrite (List.filter_ext _ (fun a => memberZ (attempt_examId a) ids2));
      [reflexivity|]. intros a. apply Hm.
Qed.

Lemma relatedExams_ids d id :
  forall y,
    In y (map exam_id (getExamsBySyllabusId d id)) <->
    In y (relatedExamIds d id).
Proof.
  intros y. unfold getExamsBySyllabusId, relatedExamIds.
  rewrite !in_map_iff. split; intros (e & He & Hin); exists e;
    (split; [exact He|]); apply orderByDesc_In in Hin || apply orderByDesc_In;
    exact Hin.
Qed.

(** What [deleteSyllabus] leaves: each table without the rows that hang on
    the syllabus. *)
Lemma deleteSyllabus_closed d id :
  snd (deleteSyllabus d id) =
  {| syllabuses :=
       List.filter (fun s => negb (syllabus_id s =? id)%Z) (syllabuses d);
     tables :=
       {| exams :=
            List.filter (fun e => negb (exam_syllabusId e =? id)%Z)
                        (exams (tables d));
          questions :=
            List.filter
              (fun q => negb (memberZ (question_examId q) (relatedExamIds d id)))
              (questions (tables d));
          examAttempts :=
            List.filter
              (fun a => negb (memberZ (attempt_examId a) (relatedExamIds d id)))
              (examAttempts (tables d));
          answers :=
            List.filter
              (fun r => negb (memberZ (attemptId r) (relatedAttemptIds d id)))
              (answers (tables d));
          nextAttemptId := nextAttemptId (tables d);
          nextAnswerId := nextAnswerId (tables d) |};
     nextSyllabusId := nextSyllabusId d;
     nextExamId := nextExamId d;
     nextQuestionId := nextQuestionId d |}.
Proof.
  unfold deleteSyllabus. cbn [snd].
  rewrite foldl_deleteExamData.
  rewrite (withoutExams_ext _ _ (relatedExamIds d id) (relatedExams_ids d id)).
  reflexivity.
Qed.

(** X20. [deleteSyllabus] removes exactly what hangs on the syllabus: the
    syllabus, its exams, the questions and the attempts of those exams and
    the answers of those attempts; every other row stays, in its place.  It
    reports true exactly when the syllabus was stored. *)
Theorem deleteSyllabus_removes_what_hangs_on_it d id :
  let d' := snd (deleteSyllabus d id) in
  syllabuses d' =
    List.filter (fun s => negb (syllabus_id s =? id)%Z) (syllabuses d) /\
  exams (tables d') =
    List.filter (fun e => negb (exam_syllabusId e =? id)%Z) (exams (tables d)) /\
  questions (tables d') =
    List.filter
      (fun q => negb (memberZ (question_examId q) (relatedExamIds d id)))
      (questions (tables d)) /\
  examAttempts (tables d') =
    List.filter
      (fun a => negb (memberZ (attempt_examId a) (relatedExamIds d id)))
      (examAttempts (tables d)) /\
  answers (tables d') =
    List.filter
      (fun r => negb (memberZ (attemptId r) (relatedAttemptIds d id)))
      (answers (tables d)) /\
  (fst (deleteSyllabus d id) = true <-> getSyllabus d id <> None).
Proof.
  intros d'. unfold d'. rewrite deleteSyllabus_closed.
  cbn [syllabuses tables exams questions examAttempts answers].
  repeat split.
  - unfold deleteSyllabus, getSyllabus. cbn [fst].
    destruct (List.filter (fun s => (syllabus_id s =? id)%Z) (syllabuses d));
      [discriminate|]. discriminate.
  - unfold deleteSyllabus, getSyllabus. cbn [fst].
    destruct (List.filter (fun s => (syllabus_id s =? id)%Z) (syllabuses d));
      [contradiction|]. reflexivity.
Qed.

Lemma filter_none {A : Type} (f : A -> bool) (l : list A) :
  Forall (fun x => f x = false) l -> List.filter f l = [].
Proof.
  induction 1 as [|x l Hx _ IH]; [reflexivity|]. simpl. rewrite Hx. exact IH.
Qed.

Lemma filter_after_filter_none {A : Type} (f g : A -> bool) (l : list A) :
  (forall x, f x = true -> g x = true -> False) ->
  List.filter g (List.filter f l) = [].
Proof.
  intros H. apply filter_none, Forall_forall. intros x Hx.
  apply list_elem_of_In, filter_In in Hx as [_ Hf].
  destruct (g x) eqn:Hg; [exfalso; eauto|reflexivity].
Qed.

(** X21. After [deleteSyllabus] the syllabus is not found, it has no exams,
    and of each exam that it had no question, no attempt and no answer to
    such an attempt is left. *)
Theorem deleted_syllabus_leaves_no_dependents d id :
  let d' := snd (deleteSyllabus d id) in
  getSyllabus d' id = None /\
  getExamsBySyllabusId d' id = [] /\
  forall exam,
    In exam (exams (tables d)) -> exam_syllabusId exam = id ->
    getQuestionsByExamId (tables d') (exam_id exam) = [] /\
    List.filter (fun a => (attempt_examId a =? exam_id exam)%Z)
                (examAttempts (tables d')) = [] /\
    forall attempt,
      In attempt (examAttempts (tables d)) ->
      attempt_examId attempt = exam_id exam ->
      getAnswersByAttemptId (tables d') (attempt_id attempt) = [].
Proof.
  intros d'. unfold d'. rewrite deleteSyllabus_closed.
  split; [|split].
  - unfold getSyllabus. cbn [syllabuses].
    rewrite filter_after_filter_none; [reflexivity|].
    intros s H1 H2. rewrite H2 in H1. discriminate H1.
  - unfold getExamsBySyllabusId. cbn [tables exams].
    rewrite filter_after_filter_none; [reflexivity|].
    intros e H1 H2. rewrite H2 in H1. discriminate H1.
  - intros exam Hin Hsyl.
    assert (Hrel : In (exam_id exam) (relatedExamIds d id)).
    { unfold relatedExamIds. apply in_map, filter_In. split; [exact Hin|].
      apply Z.eqb_eq, Hsyl. }
    split; [|split].
    + unfold getQuestionsByExamId. cbn [questions].
      apply filter_after_filter_none. intros q H1 H2.
      apply Z.eqb_eq in H2. rewrite H2 in H1.
      apply memberZ_In in Hrel. rewrite Hrel in H1. discriminate H1.
    + cbn [tables examAttempts].
      apply filter_after_filter_none. intros a H1 H2.
      apply Z.eqb_eq in H2. rewrite H2 in H1.
      apply memberZ_In in Hrel. rewrite Hrel in H1. discriminate H1.
    + intros attempt Hatt Hexam.
      unfold getAnswersByAttemptId. cbn [tables answers].
      apply filter_after_filter_none. intros r H1 H2.
      apply Z.eqb_eq in H2. rewrite H2 in H1.
      assert (Hra : In (attempt_id attempt) (relatedAttemptIds d id)).
      { unfold relatedAttemptIds. apply in_map, filter_In.
        split; [exact Hatt|]. rewrite Hexam. apply memberZ_In, Hrel. }
      apply memberZ_In in Hra. rewrite Hra in H1. discriminate H1.
Qed.

(** X22. [deleteSyllabus] keeps the references whole: if before it every
    exam finds its syllabus, every question and every attempt its exam and
    every answer its attempt, then so afterwards. *)
Theorem deleteSyllabus_keeps_references d id :
  Referential d -> Referential (snd (deleteSyllabus d id)).
Proof.
  intros (Hexams & Hquestions & Hattempts & Hanswers).
  rewrite deleteSyllabus_closed. unfold Referential.
  cbn [syllabuses tables exams questions examAttempts answers].
  assert (Hkept : forall e x,
            In e (exams (tables d)) -> exam_id e = x ->
            memberZ x (relatedExamIds d id) = false ->
            In e (List.filter (fun e => negb (exam_syllabusId e =? id)%Z)
                              (exams (tables d)))).
  { intros e x Hin Hx Hmem. apply filter_In. split; [exact Hin|].
    destruct (exam_syllabusId e =? id)%Z eqn:E; [|reflexivity].
    exfalso. assert (Hrel : In x (relatedExamIds d id)).
    { unfold relatedExamIds. rewrite <- Hx. apply in_map, filter_In. auto. }
    apply memberZ_In in Hrel. congruence. }
  repeat split.
  - intros e He. apply filter_In in He as [Hin Hsyl].
    destruct (Hexams e Hin) as (s & Hs & Hid). exists s. split; [|exact Hid].
    apply filter_In. split; [exact Hs|]. rewrite Hid. exact Hsyl.
  - intros q Hq. apply filter_In in Hq as [Hin Hmem].
    apply negb_true_iff in Hmem.
    destruct (Hquestions q Hin) as (e & He & Hid). exists e.
    split; [|exact Hid]. exact (Hkept e _ He Hid Hmem).
  - intros a Ha. apply filter_In in Ha as [Hin Hmem].
    apply negb_true_iff in Hmem.
    destruct (Hattempts a Hin) as (e & He & Hid). exists e.
    split; [|exact Hid]. exact (Hkept e _ He Hid Hmem).
  - intros r Hr. apply filter_In in Hr as [Hin Hmem].
    apply negb_true_iff in Hmem.
    destruct (Hanswers r Hin) as (a & Ha & Hid). exists a.
    split; [|exact Hid]. apply filter_In. split; [exact Ha|].
    destruct (memberZ (attempt_examId a) (relatedExamIds d id)) eqn:E;
      [|reflexivity].
    exfalso. assert (Hrel : In (attemptId r) (relatedAttemptIds d id)).
    { unfold relatedAttemptIds. rewrite <- Hid. apply in_map, filter_In. auto. }
    apply memberZ_In in Hrel. congruence.
Qed.

Lemma deleteSyllabus_keeps_references_witness :
  Referential (snd (deleteSyllabus twoSyllabuses 1)).
Proof.
  apply (deleteSyllabus_keeps_references twoSyllabuses 1).
  repeat split; intros x Hx; vm_compute in Hx;
    repeat (destruct Hx as [<- | Hx];
            [eexists; split; [left; reflexivity|reflexivity]|]);
    contradiction.
Defined.

(** X23. [DELETE /api/syllabuses/:id] answers 404 for a syllabus that is
    not stored and changes nothing; for a stored one it answers 200, the
    branch for a deletion that removed no row is not reached, and
    afterwards the syllabus and its exams are answered with 404. *)
Theorem deleteSyllabusRoute_answers d id :
  (getSyllabus d id = None ->
   deleteSyllabusRoute d (Some id) = (notice 404 "Syllabus not found", d)) /\
  (getSyllabus d id <> None ->
   fst (deleteSyllabusRoute d (Some id)) =
     notice 200 "Syllabus deleted successfully" /\
   snd (deleteSyllabusRoute d (Some id)) = snd (deleteSyllabus d id) /\
   getSyllabusRoute (snd (deleteSyllabusRoute d (Some id))) (Some id) =
     notice 404 "Syllabus not found" /\
   getExamsRoute (snd (deleteSyllabusRoute d (Some id))) (Some id) =
     notice 404 "Syllabus not found").
Proof.
  split.
  - intros H. unfold deleteSyllabusRoute. rewrite H. reflexivity.
  - intros H.
    assert (Hgone : getSyllabus (snd (deleteSyllabus d id)) id = None).
    { rewrite deleteSyllabus_closed. unfold getSyllabus. cbn [syllabuses].
      rewrite filter_after_filter_none; [reflexivity|].
      intros s H1 H2. rewrite H2 in H1. discriminate H1. }
    assert (Hroute : deleteSyllabusRoute d (Some id) =
                     (notice 200 "Syllabus deleted successfully",
                      snd (deleteSyllabus d id))).
    { unfold deleteSyllabusRoute.
      destruct (getSyllabus d id) as [s|] eqn:E; [|contradiction].
      unfold deleteSyllabus, getSyllabus in *. cbn [fst snd].
      destruct (List.filter (fun s => (syllabus_id s =? id)%Z) (syllabuses d));
        [discriminate E|]. reflexivity. }
    rewrite Hroute. cbn [fst snd]. repeat split.
    + unfold getSyllabusRoute. rewrite Hgone. reflexivity.
    + unfold getExamsRoute. rewrite Hgone. reflexivity.
Qed.

End DeleteFacts.

Section ExamFacts.
Import JS Routes GradingSpec RouteSpec Storage ExamSpec.

Lemma filter_app_none {A : Type} (f : A -> bool) (l r : list A) :
  Forall (fun x => f x = false) l ->
  List.filter f (l ++ r) = List.filter f r.
Proof.
  intros H. rewrite List.filter_app, (filter_none f l H). reflexivity.
Qed.

Lemma savedRows_length examId n generated :
  length (savedRows examId n generated) = length generated.
Proof.
  revert n. induction generated as [|g generated IH]; intros n;
    [reflexivity|]. simpl. rewrite IH. reflexivity.
Qed.

Lemma savedRows_exam examId n generated :
  Forall (fun q => question_examId q = examId) (savedRows examId n generated).
Proof.
  revert n. induction generated as [|g generated IH]; intros n;
    constructor; [reflexivity|apply IH].
Qed.

Lemma savedRows_ids examId n generated :
  map question_id (savedRows examId n generated) =
  map (fun k => (n + Z.of_nat k)%Z) (seq 0 (length generated)).
Proof.
  revert n. induction generated as [|g generated IH]; intros n;
    [reflexivity|].
  cbn [savedRows map length seq question_id questionRow].
  rewrite IH, <- seq_shift, map_map.
  f_equal; [cbn; lia|]. apply map_ext. intros k. lia.
Qed.

Lemma savedRows_app examId n generated more :
  savedRows examId n (generated ++ more) =
  savedRows examId n generated ++
  savedRows examId (n + Z.of_nat (length generated)) more.
Proof.
  revert n. induction generated as [|g generated IH]; intros n.
  - cbn [app length savedRows]. rewrite Z.add_0_r. reflexivity.
  - cbn [app length savedRows]. rewrite IH.
    replace (n + 1 + Z.of_nat (length generated))%Z
      with (n + Z.of_nat (S (length generated)))%Z by lia.
    reflexivity.
Qed.

(** The loop that saves the generated questions, as one insertion. *)
Lemma saveQuestions_closed examId generated d :
  saveQuestions examId generated d =
  {| syllabuses := syllabuses d;
     tables :=
       {| exams := exams (tables d);
          questions :=
            questions (tables d) ++
            savedRows examId (nextQuestionId d) generated;
          examAttempts := examAttempts (tables d);
          answers := answers (tables d);
          nextAttemptId := nextAttemptId (tables d);
          nextAnswerId := nextAnswerId (tables d) |};
     nextSyllabusId := nextSyllabusId d;
     nextExamId := nextExamId d;
     nextQuestionId := nextQuestionId d + Z.of_nat (length generated) |}.
Proof.
  revert d. induction generated as [|g generated IH]; intros d.
  - destruct d as [s [e q a w n1 n2] n3 n4 n5]. unfold saveQuestions.
    cbn. rewrite app_nil_r, Z.add_0_r. reflexivity.
  - unfold saveQuestions in *. cbn [foldl]. rewrite IH.
    cbn [createQuestion snd syllabuses tables exams questions examAttempts
         answers nextAttemptId nextAnswerId nextSyllabusId nextExamId
         nextQuestionId savedRows length].
    rewrite <- app_assoc. cbn [app].
    replace (nextQuestionId d + 1 + Z.of_nat (length generated))%Z
      with (nextQuestionId d + Z.of_nat (S (length generated)))%Z by lia.
    reflexivity.
Qed.

Lemma getExam_id db id exam : getExam db id = Some exam -> exam_id exam = id.
Proof.
  unfold getExam. induction (exams db) as [|e l IH]; simpl.
  - discriminate.
  - destruct (exam_id e =? id)%Z eqn:E; simpl.
    + intros [= <-]. apply Z.eqb_eq. exact E.
    + exact IH.
Qed.

Lemma unused_filter {A : Type} (key : A -> Z) (n : Z) (l : list A) :
  Forall (fun x => key x <> n) l ->
  Forall (fun x => (key x =? n)%Z = false) l.
Proof.
  intros H. eapply Forall_impl; [exact H|]. cbn. intros x Hx.
  apply Z.eqb_neq. exact Hx.
Qed.

(** What the route stores for a generated exam and what it answers, when
    the id of the new exam is not in use. *)
Lemma saveGeneratedExam_closed d syllabus config generated now :
  NextExamUnused d ->
  let exam :=
    fst (createExam d (Gemini.title generated) (syllabus_id syllabus)
                    config now) in
  let rows :=
    savedRows (nextExamId d) (nextQuestionId d) (Gemini.questions generated) in
  saveGeneratedExam d syllabus config generated now =
  (success 201 (exam, rows),
   {| syllabuses := syllabuses d;
      tables :=
        {| exams := exams (tables d) ++ [exam];
           questions := questions (tables d) ++ rows;
           examAttempts := examAttempts (tables d);
           answers := answers (tables d);
           nextAttemptId := nextAttemptId (tables d);
           nextAnswerId := nextAnswerId (tables d) |};
      nextSyllabusId := nextSyllabusId d;
      nextExamId := nextExamId d + 1;
      nextQuestionId :=
        nextQuestionId d + Z.of_nat (length (Gemini.questions generated)) |}).
Proof.
  intros [_ Hquestions] exam rows.
  unfold saveGeneratedExam. cbn [createExam].
  rewrite saveQuestions_closed.
  cbn [syllabuses tables exams questions examAttempts answers nextAttemptId
       nextAnswerId nextSyllabusId nextExamId nextQuestionId exam_id].
  fold exam. fold rows. f_equal. f_equal. f_equal.
  unfold getQuestionsByExamId. cbn [questions].
  rewrite filter_app_none by (apply unused_filter, Hquestions).
  apply filter_all. eapply Forall_impl; [apply savedRows_exam|].
  cbn. intros q ->. apply Z.eqb_refl.
Qed.

(** X24. When the id of the new exam is not in use, the route that saves a
    generated exam answers 201 with the exam and one row per generated
    question, in their order and under consecutive ids.  The exam row
    records the question count of the configuration, whatever the number
    of generated questions is.  The rows are added at the end of their
    tables, the other tables stay, and reading the exam back answers the
    same exam with the same questions. *)
Theorem generated_exam_is_saved d syllabus config generated now :
  NextExamUnused d ->
  let saved := saveGeneratedExam d syllabus config generated now in
  exists exam rows,
    fst saved = success 201 (exam, rows) /\
    exam_id exam = nextExamId d /\
    exam_title exam = Gemini.title generated /\
    exam_syllabusId exam = syllabus_id syllabus /\
    exam_questionCount exam = Gemini.questionCount config /\
    rows = savedRows (exam_id exam) (nextQuestionId d)
                     (Gemini.questions generated) /\
    length rows = length (Gemini.questions generated) /\
    map question_id rows =
      map (fun k => (nextQuestionId d + Z.of_nat k)%Z)
          (seq 0 (length (Gemini.questions generated))) /\
    exams (tables (snd saved)) = exams (tables d) ++ [exam] /\
    questions (tables (snd saved)) = questions (tables d) ++ rows /\
    examAttempts (tables (snd saved)) = examAttempts (tables d) /\
    answers (tables (snd saved)) = answers (tables d) /\
    syllabuses (snd saved) = syllabuses d /\
    getExamRoute (tables (snd saved)) (Some (exam_id exam)) =
      success 200 (exam, rows).
Proof.
  intros Hunused saved. unfold saved.
  rewrite (saveGeneratedExam_closed d syllabus config generated now Hunused).
  cbn [fst snd]. do 2 eexists. split; [reflexivity|].
  cbn [createExam fst exam_id exam_title exam_syllabusId exam_questionCount
       tables exams questions examAttempts answers syllabuses].
  repeat split.
  - apply savedRows_length.
  - apply savedRows_ids.
  - destruct Hunused as [Hexams Hquestions].
    unfold getExamRoute, getExam. cbn [exams].
    rewrite filter_app_none by (apply unused_filter, Hexams).
    cbn [List.filter exam_id]. rewrite Z.eqb_refl. cbn [head exam_id].
    unfold getQuestionsByExamId. cbn [questions].
    rewrite filter_app_none by (apply unused_filter, Hquestions).
    rewrite filter_all; [reflexivity|].
    eapply Forall_impl; [apply savedRows_exam|].
    cbn. intros q ->. apply Z.eqb_refl.
Qed.

Lemma generated_exam_is_saved_witness :
  exists exam rows,
    fst (saveGeneratedExam DeleteSpec.twoSyllabuses DeleteSpec.biology
           threeEasy
           (Gemini.generateMockExam "Course: Biology" threeEasy "Biology")
           4000) = success 201 (exam, rows) /\
    exam_id exam = 2%Z /\
    map question_id rows = [3; 4; 5]%Z.
Proof.
  assert (Hunused : NextExamUnused DeleteSpec.twoSyllabuses).
  { split; repeat constructor; vm_compute; discriminate. }
  destruct (generated_exam_is_saved DeleteSpec.twoSyllabuses
              DeleteSpec.biology threeEasy
              (Gemini.generateMockExam "Course: Biology" threeEasy "Biology")
              4000%Z Hunused)
    as (exam & rows & Hsaved & Hid & _ & _ & _ & _ & _ & Hids & _).
  exists exam, rows. split; [exact Hsaved|]. split; [exact Hid|exact Hids].
Defined.

Lemma insertDesc_length {A : Type} (key : A -> Z) (x : A) (l : list A) :
  length (insertDesc key x l) = S (length l).
Proof.
  induction l as [|y l IH]; [reflexivity|]. simpl.
  destruct (key y <=? key x)%Z; simpl; [reflexivity|]. rewrite IH.
  reflexivity.
Qed.

Lemma orderByDesc_length {A : Type} (key : A -> Z) (l : list A) :
  length (orderByDesc key l) = length l.
Proof.
  induction l as [|x l IH]; [reflexivity|]. unfold orderByDesc in *.
  cbn [foldr]. rewrite insertDesc_length, IH. reflexivity.
Qed.

Lemma getSyllabus_id d id s : getSyllabus d id = Some s -> syllabus_id s = id.
Proof.
  unfold getSyllabus. induction (syllabuses d) as [|x l IH]; simpl.
  - discriminate.
  - destruct (syllabus_id x =? id)%Z eqn:E; simpl.
    + intros [= <-]. apply Z.eqb_eq. exact E.
    + exact IH.
Qed.

(** X25. When the id of the new syllabus is not in use, an upload whose
    text was read answers 201 with the new row without its content;
    reading the syllabus back by the answered id gives the row with the
    text that was read and the names of the file; the listing has it; the
    syllabuses stored before are found as before and the other tables are
    as they were. *)
Theorem uploaded_syllabus_is_found d file content now :
  NextSyllabusUnused d ->
  let uploaded := uploadSyllabus d (Some file) (Returns content) now in
  exists s,
    fst uploaded = success 201 (withoutContent s) /\
    syllabus_id s = nextSyllabusId d /\
    syllabus_content s = content /\
    filename s = file_filename file /\
    originalName s = file_originalname file /\
    contentType s = file_mimetype file /\
    getSyllabusRoute (snd uploaded) (Some (syllabus_id s)) = success 200 s /\
    (exists listed,
       listSyllabuses (snd uploaded) = success 200 listed /\
       In (withoutContent s) listed /\
       length listed = S (length (syllabuses d))) /\
    (forall j old,
       getSyllabus d j = Some old -> getSyllabus (snd uploaded) j = Some old) /\
    tables (snd uploaded) = tables d.
Proof.
  intros Hunused uploaded. unfold uploaded, uploadSyllabus.
  cbn [createSyllabus fst snd]. eexists. split; [reflexivity|].
  cbn [syllabus_id syllabus_content filename originalName contentType tables].
  repeat split.
  - unfold getSyllabusRoute, getSyllabus. cbn [syllabuses].
    rewrite filter_app_none by (apply unused_filter, Hunused).
    cbn [List.filter syllabus_id]. rewrite Z.eqb_refl. reflexivity.
  - unfold listSyllabuses, getAllSyllabuses. cbn [syllabuses].
    eexists. split; [reflexivity|]. split.
    + apply in_map, orderByDesc_In, in_or_app. right. left. reflexivity.
    + rewrite length_map, orderByDesc_length, length_app. cbn. lia.
  - intros j old Hold. unfold getSyllabus in *. cbn [syllabuses].
    rewrite List.filter_app.
    destruct (List.filter (fun s => (syllabus_id s =? j)%Z) (syllabuses d));
      [discriminate Hold|exact Hold].
Qed.

Lemma uploaded_syllabus_is_found_witness :
  exists s,
    fst (uploadSyllabus DeleteSpec.twoSyllabuses (Some chemistryFile)
           (Returns "Course: Chemistry") 700) =
      success 201 (withoutContent s) /\
    syllabus_id s = 3%Z /\
    syllabus_content s = "Course: Chemistry".
Proof.
  assert (Hunused : NextSyllabusUnused DeleteSpec.twoSyllabuses).
  { repeat constructor; vm_compute; discriminate. }
  destruct (uploaded_syllabus_is_found DeleteSpec.twoSyllabuses chemistryFile
              "Course: Chemistry" 700%Z Hunused)
    as (s & Hup & Hid & Hcontent & _).
  exists s. split; [exact Hup|]. split; [exact Hid|exact Hcontent].
Defined.

Lemma questionsMap_snoc l q :
  questionsMap (l ++ [q]) = <[question_id q := q]> (questionsMap l).
Proof. unfold questionsMap. rewrite foldl_app. reflexivity. Qed.

(** With distinct ids, the map finds each question under its id. *)
Lemma questionsMap_lookup l :
  NoDup (map question_id l) ->
  forall q, In q l -> questionsMap l !! question_id q = Some q.
Proof.
  induction l as [|x l IH] using rev_ind; intros Hnodup q Hin;
    [contradiction|].
  rewrite questionsMap_snoc.
  rewrite map_app in Hnodup. apply NoDup_app in Hnodup as (Hl & Hx & _).
  apply in_app_or in Hin as [Hin|[<-|[]]].
  - assert (Hne : question_id x <> question_id q).
    { intros Heq. apply (Hx (question_id q)).
      - apply list_elem_of_In, in_map, Hin.
      - rewrite <- Heq. cbn. left. }
    rewrite lookup_insert_ne by exact Hne. apply IH; assumption.
  - apply lookup_insert_eq.
Qed.

Lemma savedRows_NoDup examId n generated :
  NoDup (map question_id (savedRows examId n generated)).
Proof. rewrite savedRows_ids. apply NoDup_consecutive. Qed.

(** The grader accepts the key of the mock exams for each of their
    questions. *)
Lemma mockKey_graded lines config i id examId :
  isAnswerCorrect (questionRow id examId (Gemini.mockQuestion lines config i))
                  (mockKey (Gemini.type config)) = true.
Proof.
  destruct (Gemini.type config) eqn:Hty.
  - rewrite isAnswerCorrect_multiple_choice.
    + unfold Gemini.mockQuestion. rewrite Hty. reflexivity.
    + cbn [questionType questionRow]. rewrite mockQuestion_type, Hty.
      reflexivity.
  - rewrite isAnswerCorrect_short_answer.
    + change (trim (toLowerCase (mockKey Gemini.ShortAnswer))) with "".
      rewrite includes_empty, orb_true_r. reflexivity.
    + cbn [questionType questionRow]. rewrite mockQuestion_type, Hty.
      reflexivity.
Qed.

Lemma savedRows_graded examId lines config indices n :
  Forall (fun q => isAnswerCorrect q (mockKey (Gemini.type config)) = true)
         (savedRows examId n (map (Gemini.mockQuestion lines config) indices)).
Proof.
  revert n. induction indices as [|i indices IH]; intros n; constructor;
    [apply mockKey_graded|apply IH].
Qed.

(** A batch that gives each question an answer that the grader accepts
    names known questions only and scores one point per question. *)
Lemma answerAll_full qmap rows text :
  (forall q, In q rows -> qmap !! question_id q = Some q) ->
  Forall (fun q => isAnswerCorrect q text = true) rows ->
  allKnown qmap (answerAll rows text) /\
  correctCount qmap (answerAll rows text) = Z.of_nat (length rows).
Proof.
  intros Hfind Hgraded. induction Hgraded as [|q rows Hq _ IH].
  - split; [constructor|reflexivity].
  - destruct IH as [Hknown Hcount].
    { intros x Hx. apply Hfind. right. exact Hx. }
    assert (Hlook : qmap !! question_id q = Some q)
      by (apply Hfind; left; reflexivity).
    split.
    + constructor; [|exact Hknown]. cbn. rewrite Hlook. eauto.
    + cbn [answerAll map] in *. rewrite correctCount_cons.
      unfold gradedCorrect at 1. cbn [questionId submitted].
      rewrite Hlook, Hq. cbn [length]. unfold answerAll in Hcount. lia.
Qed.

(** The mock exam of a configuration in integers, saved, started and
    answered with the key of the mock exams. *)
Lemma saved_mock_exam_full_marks
  d syllabus config content courseTitle now later last :
  NextExamUnused d ->
  NextAttemptUnused (tables d) ->
  (0 <= Gemini.questionCount config)%Z ->
  let generated := Gemini.generateMockExam content config courseTitle in
  let saved := saveGeneratedExam d syllabus config generated now in
  exists exam rows,
    fst saved = success 201 (exam, rows) /\
    Z.of_nat (length rows) = Gemini.questionCount config /\
    let started :=
      startAttempt (tables (snd saved)) (Some (exam_id exam)) later in
    exists attempt,
      fst started = {| status := 201; payload := AttemptCreated attempt |} /\
      maxScore attempt = Gemini.questionCount config /\
      exists final stored,
        fst (submitAnswers (snd started) (Some (attempt_id attempt))
               (Batch (answerAll rows (mockKey (Gemini.type config)))) last) =
          {| status := 200;
             payload := Graded final stored (Gemini.questionCount config)
                               (Gemini.questionCount config) |} /\
        score final = Some (Gemini.questionCount config) /\
        completedAt final = Some last.
Proof.
  intros Hunused Hattempts Hcount generated saved. unfold saved.
  rewrite (saveGeneratedExam_closed d syllabus config generated now Hunused).
  cbn [fst snd tables]. do 2 eexists. split; [reflexivity|].
  set (examId := nextExamId d).
  set (rows := savedRows examId (nextQuestionId d) (Gemini.questions generated)).
  assert (Hlength : Z.of_nat (length rows) = Gemini.questionCount config).
  { unfold rows. rewrite savedRows_length. unfold generated.
    cbn [Gemini.generateMockExam Gemini.questions].
    rewrite length_map. unfold Gemini.loopIndices. rewrite length_seq. lia. }
  split; [exact Hlength|].
  cbn [createExam fst exam_id]. fold examId.
  set (exam := {| exam_id := examId;
                  exam_title := Gemini.title generated;
                  exam_syllabusId := syllabus_id syllabus;
                  exam_type := Gemini.typeName (Gemini.type config);
                  exam_difficulty :=
                    Gemini.difficultyName (Gemini.difficulty config);
                  exam_questionCount := Gemini.questionCount config;
                  exam_timeLimit := Gemini.timeLimit config;
                  exam_topics := Some (Gemini.topics config);
                  exam_createdAt := now |}).
  set (t1 := {| exams := exams (tables d) ++ [exam];
                questions := questions (tables d) ++ rows;
                examAttempts := examAttempts (tables d);
                answers := answers (tables d);
                nextAttemptId := nextAttemptId (tables d);
                nextAnswerId := nextAnswerId (tables d) |}).
  destruct Hunused as [Hexams Hquestions].
  assert (Hstored : getQuestionsByExamId t1 examId = rows).
  { unfold getQuestionsByExamId. cbn [t1 questions].
    rewrite filter_app_none by (apply unused_filter, Hquestions).
    apply filter_all. eapply Forall_impl; [apply savedRows_exam|].
    cbn. intros q ->. apply Z.eqb_refl. }
  assert (Hexam : getExam t1 examId = Some exam).
  { unfold getExam. cbn [t1 exams].
    rewrite filter_app_none by (apply unused_filter, Hexams).
    cbn [List.filter exam exam_id]. rewrite Z.eqb_refl. reflexivity. }
  unfold startAttempt. rewrite Hexam.
  cbn [exam exam_id]. fold exam. rewrite Hstored.
  cbn [createExamAttempt fst snd]. eexists. split; [reflexivity|].
  cbn [maxScore attempt_id]. split; [exact Hlength|].
  set (attempt := {| attempt_id := nextAttemptId t1;
                     attempt_examId := examId;
                     startedAt := later;
                     completedAt := None;
                     score := None;
                     maxScore := Z.of_nat (length rows) |}).
  set (t2 := {| exams := exams t1;
                questions := questions t1;
                examAttempts := examAttempts t1 ++ [attempt];
                answers := answers t1;
                nextAttemptId := nextAttemptId t1 + 1;
                nextAnswerId := nextAnswerId t1 |}).
  assert (Hfound : getExamAttempt t2 (nextAttemptId t1) = Some attempt).
  { unfold getExamAttempt. cbn [t2 t1 examAttempts nextAttemptId].
    rewrite filter_app_none by (apply unused_filter, Hattempts).
    cbn [List.filter attempt attempt_id nextAttemptId t1].
    rewrite Z.eqb_refl. reflexivity. }
  assert (Hbound : boundQuestions t2 attempt = questionsMap rows).
  { unfold boundQuestions. cbn [attempt attempt_examId].
    change (getQuestionsByExamId t2 examId)
      with (getQuestionsByExamId t1 examId).
    rewrite Hstored. reflexivity. }
  destruct (answerAll_full (questionsMap rows) rows
              (mockKey (Gemini.type config)))
    as [Hknown Hfull].
  { apply questionsMap_lookup. apply savedRows_NoDup. }
  { apply savedRows_graded. }
  rewrite <- Hbound in Hknown, Hfull.
  rewrite (submitAnswers_known_state t2 (nextAttemptId t1) attempt
             (answerAll rows (mockKey (Gemini.type config))) last
             Hfound eq_refl Hknown).
  cbn [fst]. change (maxScore attempt) with (Z.of_nat (length rows)).
  rewrite Hfull, Hlength.
  do 2 eexists. split; [reflexivity|]. split; reflexivity.
Qed.

End ExamFacts.

Section UploaderFacts.
Import JS Client ClientSpec TextSpec.

Lemma split_nosep sep s : noChar sep s = true -> split sep s = [s].
Proof.
  induction s as [|c r IH]; [reflexivity|].
  rewrite noChar_cons, andb_true_iff, negb_true_iff. intros [Hc Hr].
  cbn [split]. rewrite Hc, (IH Hr). reflexivity.
Qed.

Lemma split_length sep s : 1 <= length (split sep s).
Proof.
  induction s as [|c r IH]; [cbn; lia|]. cbn [split].
  destruct (Ascii.eqb c sep); [cbn; lia|].
  destruct (split sep r); [cbn; lia|exact IH].
Qed.

Lemma split_length_app sep b e :
  2 <= length (split sep (b +:+ String sep e)).
Proof.
  induction b as [|c b IH].
  - change ("" +:+ String sep e) with (String sep e). cbn [split].
    rewrite Ascii.eqb_refl. cbn [length].
    pose proof (split_length sep e). lia.
  - rewrite append_cons. cbn [split].
    destruct (Ascii.eqb c sep); [cbn [length]; lia|].
    destruct (split sep (b +:+ String sep e)); [cbn in IH; lia|exact IH].
Qed.

Lemma last_cons_Some {A : Type} (x e : A) (l : list A) :
  last l = Some e -> last (x :: l) = Some e.
Proof. destruct l; [discriminate|]. intros H. exact H. Qed.

Lemma last_split_app sep b e :
  noChar sep e = true -> last (split sep (b +:+ String sep e)) = Some e.
Proof.
  intros He. induction b as [|c b IH].
  - change ("" +:+ String sep e) with (String sep e). cbn [split].
    rewrite Ascii.eqb_refl, (split_nosep sep e He). reflexivity.
  - rewrite append_cons. cbn [split].
    destruct (Ascii.eqb c sep); [apply last_cons_Some, IH|].
    pose proof (split_length_app sep b e) as Hlen.
    destruct (split sep (b +:+ String sep e)) as [|l [|l' ls]];
      [discriminate IH|cbn in Hlen; lia|exact IH].
Qed.

(** A text has no separator, or it is cut at its last one. *)
Lemma last_separator sep s :
  noChar sep s = true \/
  exists b e, s = b +:+ String sep e /\ noChar sep e = true.
Proof.
  induction s as [|c r IH]; [left; reflexivity|].
  destruct IH as [Hr | (b & e & -> & He)].
  - destruct (Ascii.eqb c sep) eqn:Hc.
    + right. exists "", r. apply Ascii.eqb_eq in Hc. subst c.
      split; [reflexivity|exact Hr].
    + left. rewrite noChar_cons, Hc, Hr. reflexivity.
  - right. exists (String c b), e. split; [reflexivity|exact He].
Qed.

Lemma fileExtension_bare name :
  noChar "." name = true -> fileExtension name = toLowerCase name.
Proof.
  intros H. unfold fileExtension. rewrite (split_nosep _ _ H). reflexivity.
Qed.

Lemma fileExtension_app base ext :
  noChar "." ext = true ->
  fileExtension (base +:+ String "." ext) = toLowerCase ext.
Proof.
  intros H. unfold fileExtension. rewrite (last_split_app _ _ _ H).
  reflexivity.
Qed.

Lemma arrayIncludes_In a x : arrayIncludes a x = true <-> In x a.
Proof.
  unfold arrayIncludes. rewrite existsb_exists. split.
  - intros (y & Hy & Heq). apply String.eqb_eq in Heq. subst y. exact Hy.
  - intros H. exists x. split; [exact H|apply String.eqb_refl].
Qed.

Lemma accepted_isExtension ext :
  In (toLowerCase ext) ["pdf"; "docx"; "txt"] ->
  isExtension (String "." ext) = true.
Proof.
  intros H. unfold isExtension.
  change (toLowerCase (String "." ext)) with (String "." (toLowerCase ext)).
  destruct H as [<- | [<- | [<- | []]]]; reflexivity.
Qed.

(** X27. With its default settings the uploader hands a file on exactly
    when the file has at most 10 megabytes and the text after the last
    full stop of its name, the whole name when it has none, is pdf, docx
    or txt in any letter case.  A name that is handed on is such a bare
    word without a full stop, or it ends in an extension that the title
    of the server cuts off. *)
Theorem uploader_accepts_by_last_extension name size :
  (validateAndProcessFile defaultAccept defaultMaxSize name size
     = FileSelected <->
   (size <= 10 * 1024 * 1024)%Z /\
   exists base ext,
     (name = ext \/ name = base +:+ "." +:+ ext) /\
     noChar "." ext = true /\
     In (toLowerCase ext) ["pdf"; "docx"; "txt"]) /\
  (validateAndProcessFile defaultAccept defaultMaxSize name size
     = FileSelected ->
   noChar "." name = true \/
   exists base ext,
     name = base +:+ ext /\ isExtension ext = true /\
     Gemini.filenameTitle name = underscoresToSpaces base).
Proof.
  assert (Hverdict :
    validateAndProcessFile defaultAccept defaultMaxSize name size
      = FileSelected <->
    In (fileExtension name) ["pdf"; "docx"; "txt"] /\
    (size <= 10 * 1024 * 1024)%Z).
  { unfold validateAndProcessFile.
    change (acceptedTypes defaultAccept) with ["pdf"; "docx"; "txt"].
    rewrite <- arrayIncludes_In.
    destruct (arrayIncludes ["pdf"; "docx"; "txt"] (fileExtension name));
      cbn [negb]; [|split; [discriminate|intros [H _]; discriminate H]].
    unfold defaultMaxSize.
    destruct (10 * (1024 * 1024) <? size)%Z eqn:E.
    - apply Z.ltb_lt in E. split; [discriminate|]. intros [_ H]. lia.
    - apply Z.ltb_ge in E. split; [|reflexivity]. intros _.
      split; [reflexivity|lia]. }
  split.
  - rewrite Hverdict. split.
    + intros [Hin Hsize]. split; [exact Hsize|].
      destruct (last_separator "." name) as [Hbare | (b & e & Hname & He)].
      * exists "", name. rewrite (fileExtension_bare name Hbare) in Hin.
        split; [left; reflexivity|]. split; [exact Hbare|exact Hin].
      * exists b, e. subst name. rewrite (fileExtension_app b e He) in Hin.
        split; [right; reflexivity|]. split; [exact He|exact Hin].
    + intros (Hsize & base & ext & Hname & Hext & Hin).
      split; [|exact Hsize].
      destruct Hname as [-> | ->].
      * rewrite (fileExtension_bare ext Hext). exact Hin.
      * change ("." +:+ ext) with (String "." ext).
        rewrite (fileExtension_app base ext Hext). exact Hin.
  - intros Hselected. apply Hverdict in Hselected as [Hin _].
    destruct (last_separator "." name) as [Hbare | (b & e & Hname & He)];
      [left; exact Hbare|].
    right. exists b, (String "." e). subst name.
    rewrite (fileExtension_app b e He) in Hin.
    pose proof (accepted_isExtension e Hin) as Hext.
    split; [reflexivity|]. split; [exact Hext|].
    unfold Gemini.filenameTitle. rewrite (stripExtension_app b _ Hext).
    reflexivity.
Qed.

End UploaderFacts.

Section ExamPageFacts.
Import JS Client ClientSpec TextSpec Routes.

Lemma string_of_uint_no_colon d :
  noChar ":" (NilEmpty.string_of_uint d) = true.
Proof. induction d; [reflexivity|exact IHd..]. Qed.

Lemma numberToString_no_colon n :
  (0 <= n)%Z -> noChar ":" (numberToString n) = true.
Proof.
  intros H. unfold numberToString. destruct n as [|p|p]; [reflexivity| |lia].
  apply string_of_uint_no_colon.
Qed.

Lemma split_pair sep a b :
  noChar sep a = true -> noChar sep b = true ->
  split sep (a +:+ String sep b) = [a; b].
Proof.
  intros Ha Hb. induction a as [|c a IH].
  - change ("" +:+ String sep b) with (String sep b). cbn [split].
    rewrite Ascii.eqb_refl, (split_nosep sep b Hb). reflexivity.
  - rewrite noChar_cons, andb_true_iff, negb_true_iff in Ha.
    destruct Ha as [Hc Ha]. rewrite append_cons. cbn [split].
    rewrite Hc, (IH Ha). reflexivity.
Qed.

(** The seconds of the display, for each of the sixty values. *)
Lemma padded_seconds r :
  (0 <= r < 60)%Z ->
  isTwoDigits (padStart 2 "0" (numberToString r)) = true /\
  noChar ":" (padStart 2 "0" (numberToString r)) = true /\
  option_map Z.of_int
    (NilEmpty.int_of_string (padStart 2 "0" (numberToString r))) = Some r.
Proof.
  intros Hr.
  assert (H : exists n, n < 60 /\ r = Z.of_nat n).
  { exists (Z.to_nat r). split; lia. }
  destruct H as (n & Hn & ->). clear Hr.
  do 60 (destruct n as [|n]; [repeat split|]). lia.
Qed.

(** X28. For a number of seconds that is not negative, [formatTime] shows
    the whole minutes, a colon and the remaining seconds in exactly two
    digits; reading the display back as minutes and seconds gives the
    number, so different times are never shown alike. *)
Theorem formatTime_shows_the_time seconds :
  (0 <= seconds)%Z ->
  exists ss,
    formatTime seconds = numberToString (seconds / 60) +:+ ":" +:+ ss /\
    isTwoDigits ss = true /\
    option_map Z.of_int (NilEmpty.int_of_string ss) = Some (seconds mod 60)%Z /\
    shownSeconds (formatTime seconds) = Some seconds.
Proof.
  intros Hs. unfold formatTime.
  rewrite (Z.rem_mod_nonneg seconds 60) by lia.
  assert (Hr : (0 <= seconds mod 60 < 60)%Z) by (apply Z.mod_pos_bound; lia).
  destruct (padded_seconds _ Hr) as (Htwo & Hcolon & Hread).
  eexists. split; [reflexivity|]. split; [exact Htwo|]. split; [exact Hread|].
  unfold shownSeconds.
  change (numberToString (seconds / 60) +:+ ":" +:+
          padStart 2 "0" (numberToString (seconds mod 60)))
    with (numberToString (seconds / 60) +:+
          String ":" (padStart 2 "0" (numberToString (seconds mod 60)))).
  rewrite split_pair;
    [|apply numberToString_no_colon, Z.div_pos; lia|exact Hcolon].
  unfold numberToString at 1. rewrite NilEmpty.isi.
  destruct (NilEmpty.int_of_string
              (padStart 2 "0" (numberToString (seconds mod 60))))
    as [b|]; [|discriminate Hread].
  injection Hread as Hb. rewrite Hb, DecimalZ.of_to. f_equal.
  pose proof (Z.div_mod seconds 60). lia.
Qed.

Lemma formatTime_shows_the_time_witness :
  shownSeconds (formatTime 125) = Some 125%Z.
Proof.
  destruct (formatTime_shows_the_time 125%Z) as (ss & _ & _ & _ & H);
    [lia|exact H].
Defined.

Lemma mapSet_keys m k v x :
  In x (map fst (mapSet m k v)) <-> x = k \/ In x (map fst m).
Proof.
  induction m as [|[k0 v0] m IH]; cbn [mapSet map fst In].
  - intuition.
  - destruct (k0 =? k)%Z eqn:E; cbn [map fst In].
    + apply Z.eqb_eq in E. subst k0. intuition.
    + rewrite IH. intuition.
Qed.

Lemma mapSet_NoDup m k v :
  NoDup (map fst m) -> NoDup (map fst (mapSet m k v)).
Proof.
  induction m as [|[k0 v0] m IH]; cbn [mapSet map fst]; intros Hm.
  - repeat constructor. intros H. inversion H.
  - apply NoDup_cons in Hm as [Hk0 Hm].
    destruct (k0 =? k)%Z eqn:E; cbn [map fst].
    + apply NoDup_cons. split; assumption.
    + apply NoDup_cons. split; [|apply IH, Hm].
      rewrite list_elem_of_In, mapSet_keys. intros [-> | Hin].
      * rewrite Z.eqb_refl in E. discriminate E.
      * apply Hk0, list_elem_of_In, Hin.
Qed.

Lemma mapGet_mapSet m k v q :
  mapGet (mapSet m k v) q = if (q =? k)%Z then Some v else mapGet m q.
Proof.
  induction m as [|[k0 v0] m IH]; cbn [mapSet mapGet].
  - rewrite (Z.eqb_sym k q). reflexivity.
  - destruct (k0 =? k)%Z eqn:E; cbn [mapGet].
    + apply Z.eqb_eq in E. subst k0. rewrite (Z.eqb_sym k q).
      destruct (q =? k)%Z; reflexivity.
    + rewrite IH. destruct (k0 =? q)%Z eqn:E2; [|reflexivity].
      destruct (q =? k)%Z eqn:E3; [|reflexivity].
      apply Z.eqb_eq in E2, E3. apply Z.eqb_neq in E. lia.
Qed.

Lemma mapGet_In m q a :
  NoDup (map fst m) -> (In (q, a) m <-> mapGet m q = Some a).
Proof.
  induction m as [|[k0 v0] m IH]; cbn [map fst mapGet In]; intros Hm.
  - split; [contradiction|discriminate].
  - apply NoDup_cons in Hm as [Hk0 Hm].
    destruct (k0 =? q)%Z eqn:E.
    + apply Z.eqb_eq in E. subst k0. split.
      * intros [[= ->] | Hin]; [reflexivity|].
        exfalso. apply Hk0, list_elem_of_In.
        change q with (fst (q, a)). apply in_map, Hin.
      * intros [= ->]. left. reflexivity.
    + rewrite <- (IH Hm). split.
      * intros [[= -> _] | Hin]; [|exact Hin].
        rewrite Z.eqb_refl in E. discriminate E.
      * intros Hin. right. exact Hin.
Qed.

Lemma afterEvents_snoc events e :
  afterEvents (events ++ [e]) =
  mapSet (afterEvents events) (eventQuestion e) (eventAnswer e).
Proof.
  unfold afterEvents. rewrite foldl_app. destruct e; reflexivity.
Qed.

Lemma afterEvents_NoDup events : NoDup (map fst (afterEvents events)).
Proof.
  induction events as [|e events IH] using rev_ind; [constructor|].
  rewrite afterEvents_snoc. apply mapSet_NoDup, IH.
Qed.

Lemma afterEvents_get events q :
  mapGet (afterEvents events) q = lastAnswer events q.
Proof.
  induction events as [|e events IH] using rev_ind; [reflexivity|].
  rewrite afterEvents_snoc, mapGet_mapSet, IH.
  unfold lastAnswer. rewrite rev_unit. cbn [List.find].
  rewrite (Z.eqb_sym (eventQuestion e) q).
  destruct (q =? eventQuestion e)%Z; reflexivity.
Qed.

(** X29. Whatever the candidate chooses and types, and in whatever order,
    the batch that the exam page posts names no question twice, and it has
    an entry for a question exactly when the question was answered, with
    the answer given last. *)
Theorem page_batch_names_each_question_once events :
  NoDup (map questionId (answersArray (afterEvents events))) /\
  forall q a,
    In {| questionId := q; submitted := a |}
       (answersArray (afterEvents events)) <->
    lastAnswer events q = Some a.
Proof.
  split.
  - unfold answersArray. rewrite map_map. cbn [questionId].
    apply afterEvents_NoDup.
  - intros q a. rewrite <- afterEvents_get.
    rewrite <- (mapGet_In _ q a (afterEvents_NoDup events)).
    unfold answersArray. rewrite in_map_iff. split.
    + intros ([k v] & [= -> ->] & Hin). exact Hin.
    + intros Hin. exists (q, a). split; [reflexivity|exact Hin].
Qed.

End ExamPageFacts.

Section SimplePageFacts.
Import JS Client ClientSpec Routes Storage.

Lemma isCounted_multiple_choice q answer :
  isCounted q answer = true ->
  Gemini.questionType q = "multiple-choice" /\
  answer = Some (Gemini.correctAnswer q).
Proof.
  unfold isCounted. rewrite andb_true_iff. intros [Hty Ha].
  apply String.eqb_eq in Hty. split; [exact Hty|].
  destruct answer as [a|]; [|discriminate Ha].
  apply String.eqb_eq in Ha. subst a. reflexivity.
Qed.

Lemma countFrom_bound index questions answers n :
  countFrom index questions answers n <= n + multipleChoiceCount questions.
Proof.
  revert index n. induction questions as [|q questions IH]; intros index n.
  - cbn. lia.
  - cbn [countFrom]. unfold multipleChoiceCount in *. cbn [List.filter].
    destruct (isCounted q (answers !! index)) eqn:E.
    + apply isCounted_multiple_choice in E as [Hty _].
      rewrite Hty, String.eqb_refl. cbn [length].
      etransitivity; [apply IH|]. lia.
    + etransitivity; [apply IH|].
      destruct (Gemini.questionType q =? "multiple-choice")%string;
        cbn [length]; lia.
Qed.

(** X30. The simple exam page counts multiple-choice answers only: its
    count is at most the number of multiple-choice questions and is 0 for
    an exam of short-answer questions, whatever was typed.  What it counts
    the grader of the server accepts too, but not the other way round: the
    key of a short-answer question itself is accepted by the grader and
    not counted by the page. *)
Theorem simple_page_counts_multiple_choice_only questions answers :
  correctAnswersOf questions answers <= multipleChoiceCount questions /\
  (Forall (fun q => Gemini.questionType q = "short-answer") questions ->
   correctAnswersOf questions answers = 0) /\
  (forall q a id examId,
     isCounted q (Some a) = true ->
     isAnswerCorrect (questionRow id examId q) a = true) /\
  (forall q id examId,
     Gemini.questionType q = "short-answer" ->
     isAnswerCorrect (questionRow id examId q) (Gemini.correctAnswer q) = true /\
     isCounted q (Some (Gemini.correctAnswer q)) = false).
Proof.
  assert (Hbound : correctAnswersOf questions answers
                   <= multipleChoiceCount questions)
    by apply (countFrom_bound 0 questions answers 0).
  split; [exact Hbound|]. split; [|split].
  - intros Hshort.
    assert (Hnone : multipleChoiceCount questions = 0).
    { unfold multipleChoiceCount. clear Hbound.
      induction Hshort as [|q l Hq _ IH]; [reflexivity|].
      cbn [List.filter]. rewrite Hq. exact IH. }
    lia.
  - intros q a id examId Hcounted.
    apply isCounted_multiple_choice in Hcounted as [Hty [= ->]].
    rewrite isAnswerCorrect_multiple_choice by exact Hty.
    apply String.eqb_refl.
  - intros q id examId Hty. split.
    + rewrite isAnswerCorrect_short_answer by exact Hty.
      cbn [correctAnswer questionRow]. rewrite String.eqb_refl. reflexivity.
    + unfold isCounted. rewrite Hty. reflexivity.
Qed.

End SimplePageFacts.

(* ================================================================== *)
(** * The built-ins of the language: trimming and letter case *)
(* ================================================================== *)

Section NativeText.
Import JS TextRule.
Context (B : Runtime.Builtins).

Lemma isAsciiText_app a b :
  Runtime.isAsciiText (a +:+ b) =
  Runtime.isAsciiText a && Runtime.isAsciiText b.
Proof.
  induction a as [|x a IH]; [reflexivity|].
  rewrite append_cons. cbn [Runtime.isAsciiText]. rewrite IH, andb_assoc.
  reflexivity.
Qed.

Lemma isSpace_asciiWhiteSpace c : isSpace c = asciiWhiteSpace c.
Proof. destruct c as [[] [] [] [] [] [] [] []]; reflexivity. Qed.

Lemma lowerChar_code c :
  N_of_ascii (lowerChar c) = lowerCode (N_of_ascii c).
Proof. destruct c as [[] [] [] [] [] [] [] []]; reflexivity. Qed.

Lemma lowerChar_ascii c :
  Runtime.isAscii c = true -> Runtime.isAscii (lowerChar c) = true.
Proof. destruct c as [[] [] [] [] [] [] [] []]; intros H; exact H || reflexivity. Qed.

Lemma upperChar_ascii c :
  Runtime.isAscii c = true -> Runtime.isAscii (upperChar c) = true.
Proof. destruct c as [[] [] [] [] [] [] [] []]; intros H; exact H || reflexivity. Qed.

Lemma toLowerCase_ascii_text s :
  Runtime.isAsciiText s = true -> Runtime.isAsciiText (toLowerCase s) = true.
Proof.
  induction s as [|c s IH]; [reflexivity|].
  cbn [Runtime.isAsciiText]. rewrite andb_true_iff. intros [Hc Hs].
  change (toLowerCase (String c s)) with (String (lowerChar c) (toLowerCase s)).
  cbn [Runtime.isAsciiText]. rewrite (lowerChar_ascii c Hc), (IH Hs).
  reflexivity.
Qed.

Lemma toUpperCase_ascii_text s :
  Runtime.isAsciiText s = true -> Runtime.isAsciiText (toUpperCase s) = true.
Proof.
  induction s as [|c s IH]; [reflexivity|].
  cbn [Runtime.isAsciiText]. rewrite andb_true_iff. intros [Hc Hs].
  change (toUpperCase (String c s)) with (String (upperChar c) (toUpperCase s)).
  cbn [Runtime.isAsciiText]. rewrite (upperChar_ascii c Hc), (IH Hs).
  reflexivity.
Qed.

Lemma code_inj c d : N_of_ascii c = N_of_ascii d -> c = d.
Proof.
  intros H. rewrite <- (ascii_N_embedding c), <- (ascii_N_embedding d), H.
  reflexivity.
Qed.

(** [lowered] describes the ASCII lower case. *)
Lemma lowered_iff s t : lowered s t = true <-> t = toLowerCase s.
Proof.
  revert t. induction s as [|c s IH]; intros [|d t]; cbn [lowered];
    try (split; [discriminate|]);
    try (split; [reflexivity|reflexivity]).
  - intros H. discriminate H.
  - intros H. discriminate H.
  - change (toLowerCase (String c s))
      with (String (lowerChar c) (toLowerCase s)).
    rewrite andb_true_iff, N.eqb_eq, IH, <- lowerChar_code. split.
    + intros [Hd ->]. apply code_inj in Hd. subst d. reflexivity.
    + intros [= -> ->]. split; reflexivity.
Qed.

(** [sameLetters] describes the equality of the ASCII lower cases. *)
Lemma sameLetters_iff s t :
  sameLetters s t = true <-> toLowerCase s = toLowerCase t.
Proof.
  revert t. induction s as [|c s IH]; intros [|d t]; cbn [sameLetters];
    try (split; [discriminate|]);
    try (split; [reflexivity|reflexivity]).
  - intros H. discriminate H.
  - intros H. discriminate H.
  - change (toLowerCase (String c s))
      with (String (lowerChar c) (toLowerCase s)).
    change (toLowerCase (String d t))
      with (String (lowerChar d) (toLowerCase t)).
    rewrite andb_true_iff, N.eqb_eq, IH, <- !lowerChar_code. split.
    + intros [Hd ->]. apply code_inj in Hd. rewrite Hd. reflexivity.
    + intros [= -> ->]. split; reflexivity.
Qed.

(** *** Trimming *)

Lemma native_trimStart_shape s :
  exists l,
    s = l +:+ Native.trimStart B s /\ allChars (Runtime.isWhiteSpace B) l = true /\
    firstIs (Runtime.isWhiteSpace B) (Native.trimStart B s) = false.
Proof.
  induction s as [|c s (l & Hs & Hl & Hf)].
  - exists "". repeat split.
  - cbn [Native.trimStart]. destruct ((Runtime.isWhiteSpace B) c) eqn:Hc.
    + exists (String c l). rewrite append_cons, <- Hs.
      split; [reflexivity|]. split; [|exact Hf].
      cbn [allChars]. rewrite Hc, Hl. reflexivity.
    + exists "". split; [reflexivity|]. split; [reflexivity|exact Hc].
Qed.

Lemma native_trimEnd_shape s :
  exists r,
    s = Native.trimEnd B s +:+ r /\ allChars (Runtime.isWhiteSpace B) r = true /\
    lastIs (Runtime.isWhiteSpace B) (Native.trimEnd B s) = false.
Proof.
  induction s as [|c s (r & Hs & Hr & Hlast)].
  - exists "". repeat split.
  - cbn [Native.trimEnd].
    destruct ((Runtime.isWhiteSpace B) c) eqn:Hc; cbn [andb].
    + destruct (Native.trimEnd B s) as [|d t] eqn:E; cbn [isEmpty].
      * exists (String c r). split; [|split; [|reflexivity]].
        -- change ("" +:+ String c r) with (String c ("" +:+ r)).
           rewrite <- Hs. reflexivity.
        -- cbn [allChars]. rewrite Hc, Hr. reflexivity.
      * exists r. rewrite append_cons, <- Hs.
        split; [reflexivity|]. split; [exact Hr|exact Hlast].
    + exists r. rewrite append_cons, <- Hs.
      split; [reflexivity|]. split; [exact Hr|].
      destruct (Native.trimEnd B s) as [|d t]; [exact Hc|exact Hlast].
Qed.

Lemma native_trimEnd_first s :
  firstIs (Runtime.isWhiteSpace B) s = false -> firstIs (Runtime.isWhiteSpace B) (Native.trimEnd B s) = false.
Proof.
  destruct s as [|c s]; [reflexivity|]. cbn [firstIs Native.trimEnd].
  intros Hc. rewrite Hc. exact Hc.
Qed.

Lemma native_trim_Trimmed s : Trimmed (Runtime.isWhiteSpace B) s (Native.trim B s).
Proof.
  unfold Native.trim.
  destruct (native_trimStart_shape s) as (l & Hs & Hl & Hfirst).
  destruct (native_trimEnd_shape (Native.trimStart B s))
    as (r & Ht & Hr & Hlast).
  exists l, r. split; [|split; [exact Hl|split; [exact Hr|split]]].
  - rewrite <- Ht. exact Hs.
  - apply native_trimEnd_first, Hfirst.
  - exact Hlast.
Qed.

Lemma native_trimStart_blank l s :
  allChars (Runtime.isWhiteSpace B) l = true ->
  Native.trimStart B (l +:+ s) = Native.trimStart B s.
Proof.
  induction l as [|c l IH]; [reflexivity|].
  cbn [allChars]. rewrite andb_true_iff. intros [Hc Hl].
  rewrite append_cons. cbn [Native.trimStart]. rewrite Hc. apply IH, Hl.
Qed.

Lemma native_trimStart_fixed s :
  firstIs (Runtime.isWhiteSpace B) s = false -> Native.trimStart B s = s.
Proof.
  destruct s as [|c s]; [reflexivity|]. cbn [firstIs Native.trimStart].
  intros ->. reflexivity.
Qed.

Lemma native_trimEnd_blank r :
  allChars (Runtime.isWhiteSpace B) r = true -> Native.trimEnd B r = "".
Proof.
  induction r as [|c r IH]; [reflexivity|].
  cbn [allChars]. rewrite andb_true_iff. intros [Hc Hr].
  cbn [Native.trimEnd]. rewrite Hc, (IH Hr). reflexivity.
Qed.

Lemma native_trimEnd_fixed_blank t r :
  lastIs (Runtime.isWhiteSpace B) t = false -> allChars (Runtime.isWhiteSpace B) r = true ->
  Native.trimEnd B (t +:+ r) = t.
Proof.
  intros Ht Hr. induction t as [|c t IH].
  - apply native_trimEnd_blank, Hr.
  - rewrite append_cons. cbn [Native.trimEnd].
    destruct t as [|d t].
    + change ("" +:+ r) with r. rewrite (native_trimEnd_blank r Hr).
      cbn [lastIs] in Ht. rewrite Ht. reflexivity.
    + rewrite IH by exact Ht. cbn [isEmpty]. rewrite andb_false_r.
      reflexivity.
Qed.

(** What is trimmed is what [trim] returns. *)
Lemma Trimmed_iff s t : Trimmed (Runtime.isWhiteSpace B) s t <-> t = Native.trim B s.
Proof.
  split; [|intros ->; apply native_trim_Trimmed].
  intros (l & r & -> & Hl & Hr & Hfirst & Hlast).
  unfold Native.trim. rewrite (native_trimStart_blank l _ Hl).
  destruct t as [|c t].
  - change ("" +:+ r) with r.
    assert (Hnone : Native.trimStart B r = "").
    { clear - Hr. induction r as [|c r IH]; [reflexivity|].
      cbn [allChars] in Hr. apply andb_true_iff in Hr as [Hc Hr].
      cbn [Native.trimStart]. rewrite Hc. apply IH, Hr. }
    rewrite Hnone. reflexivity.
  - rewrite native_trimStart_fixed by (rewrite append_cons; exact Hfirst).
    symmetry. apply native_trimEnd_fixed_blank; assumption.
Qed.

(** On ASCII text the white space of the language is that of ASCII. *)
Lemma ws_ascii c :
  Runtime.isAscii c = true -> (Runtime.isWhiteSpace B) c = asciiWhiteSpace c.
Proof.
  intros H. rewrite (Runtime.isWhiteSpace_ascii B c H).
  apply isSpace_asciiWhiteSpace.
Qed.

Lemma allChars_ascii s :
  Runtime.isAsciiText s = true -> allChars (Runtime.isWhiteSpace B) s = allChars asciiWhiteSpace s.
Proof.
  induction s as [|c s IH]; [reflexivity|].
  cbn [Runtime.isAsciiText allChars]. rewrite andb_true_iff.
  intros [Hc Hs]. rewrite (ws_ascii c Hc), (IH Hs). reflexivity.
Qed.

Lemma firstIs_ascii s :
  Runtime.isAsciiText s = true -> firstIs (Runtime.isWhiteSpace B) s = firstIs asciiWhiteSpace s.
Proof.
  destruct s as [|c s]; [reflexivity|].
  cbn [Runtime.isAsciiText firstIs]. rewrite andb_true_iff.
  intros [Hc _]. apply ws_ascii, Hc.
Qed.

Lemma lastIs_ascii s :
  Runtime.isAsciiText s = true -> lastIs (Runtime.isWhiteSpace B) s = lastIs asciiWhiteSpace s.
Proof.
  induction s as [|c s IH]; [reflexivity|].
  cbn [Runtime.isAsciiText]. rewrite andb_true_iff. intros [Hc Hs].
  destruct s as [|d s]; [apply ws_ascii, Hc|].
  cbn [lastIs]. apply IH, Hs.
Qed.

Lemma Trimmed_ascii s t :
  Runtime.isAsciiText s = true ->
  (Trimmed (Runtime.isWhiteSpace B) s t <-> Trimmed asciiWhiteSpace s t).
Proof.
  intros Hs.
  assert (Hparts : forall l r,
            s = l +:+ t +:+ r ->
            Runtime.isAsciiText l = true /\ Runtime.isAsciiText t = true /\
            Runtime.isAsciiText r = true).
  { intros l r E. rewrite E, !isAsciiText_app, !andb_true_iff in Hs. tauto. }
  split; intros (l & r & E & Hl & Hr & Hfirst & Hlast);
    destruct (Hparts l r E) as (Al & At & Ar); exists l, r;
    (split; [exact E|]).
  - rewrite <- (allChars_ascii l Al), <- (allChars_ascii r Ar),
      <- (firstIs_ascii t At), <- (lastIs_ascii t At). tauto.
  - rewrite (allChars_ascii l Al), (allChars_ascii r Ar),
      (firstIs_ascii t At), (lastIs_ascii t At). tauto.
Qed.

(** On ASCII text the trim of the language is the ASCII trim. *)
Lemma native_trimStart_ascii s :
  Runtime.isAsciiText s = true -> Native.trimStart B s = trimStart s.
Proof.
  induction s as [|c s IH]; [reflexivity|].
  cbn [Runtime.isAsciiText]. rewrite andb_true_iff. intros [Hc Hs].
  cbn [Native.trimStart trimStart].
  rewrite (Runtime.isWhiteSpace_ascii B c Hc), (IH Hs). reflexivity.
Qed.

Lemma native_trimEnd_ascii s :
  Runtime.isAsciiText s = true -> Native.trimEnd B s = trimEnd s.
Proof.
  induction s as [|c s IH]; [reflexivity|].
  cbn [Runtime.isAsciiText]. rewrite andb_true_iff. intros [Hc Hs].
  cbn [Native.trimEnd trimEnd].
  rewrite (Runtime.isWhiteSpace_ascii B c Hc), (IH Hs). reflexivity.
Qed.

Lemma trimStart_ascii_text s :
  Runtime.isAsciiText s = true -> Runtime.isAsciiText (trimStart s) = true.
Proof.
  induction s as [|c s IH]; [reflexivity|]. intros H.
  cbn [trimStart]. destruct (isSpace c); [|exact H].
  cbn [Runtime.isAsciiText] in H. apply andb_true_iff in H as [_ H].
  apply IH, H.
Qed.

Lemma native_trim_ascii s :
  Runtime.isAsciiText s = true -> Native.trim B s = trim s.
Proof.
  intros H. unfold Native.trim, trim.
  rewrite (native_trimStart_ascii s H).
  apply native_trimEnd_ascii, trimStart_ascii_text, H.
Qed.

(** The cleaning of ASCII text, by the built-ins and by its
    description. *)
Lemma Cleaned_ascii s t :
  Runtime.isAsciiText s = true ->
  (GradingRule.Cleaned B s t <-> GradingRule.CleanedAscii s t).
Proof.
  intros Hs. unfold GradingRule.Cleaned, GradingRule.CleanedAscii.
  rewrite (Runtime.toLowerCase_ascii B s Hs).
  rewrite (Trimmed_ascii _ t (toLowerCase_ascii_text s Hs)). split.
  - intros H. exists (toLowerCase s). split; [apply lowered_iff; reflexivity|exact H].
  - intros (low & Hlow & H). apply lowered_iff in Hlow. subst low. exact H.
Qed.

End NativeText.

(* ================================================================== *)
(** * The grader over the built-ins of the language *)
(* ================================================================== *)

Section NativeGrading.
Import JS Routes TextRule GradingRule.

Lemma native_multiple_choice B q a :
  questionType q = "multiple-choice" ->
  Native.isAnswerCorrect B q a =
  String.eqb (Runtime.toLowerCase B a)
             (Runtime.toLowerCase B (correctAnswer q)).
Proof. intros Hty. unfold Native.isAnswerCorrect. rewrite Hty. reflexivity. Qed.

Lemma native_short_answer B q a :
  questionType q = "short-answer" ->
  Native.isAnswerCorrect B q a = true <->
  Matches (Native.trim B (Runtime.toLowerCase B a))
          (Native.trim B (Runtime.toLowerCase B (correctAnswer q))).
Proof.
  intros Hty. unfold Native.isAnswerCorrect, Matches. rewrite Hty.
  replace (("short-answer" =? "multiple-choice")%string) with false
    by reflexivity.
  rewrite (String.eqb_refl "short-answer").
  rewrite !orb_true_iff, String.eqb_eq, !includes_iff. tauto.
Qed.

(** The earlier grader is the grader over the ASCII built-ins. *)
Lemma native_trim_asciiBuiltins s :
  Native.trim Runtime.asciiBuiltins s = trim s.
Proof. reflexivity. Qed.

Lemma isAnswerCorrect_asciiBuiltins q a :
  Native.isAnswerCorrect Runtime.asciiBuiltins q a = isAnswerCorrect q a.
Proof. reflexivity. Qed.

(** C3. For every implementation of the built-ins, a short-answer
    question grades an answer as correct exactly when, with both strings in
    lower case and trimmed, the answer equals the key, or occurs in the
    key, or contains the key.  For ASCII strings the cleaned string is the
    one with the letters A to Z replaced by a to z and without the tabs,
    line feeds, vertical tabs, form feeds, carriage returns and spaces at
    its two ends. *)
Theorem short_answer_grading
  (B : Runtime.Builtins) (q : Question) (a : string) :
  questionType q = "short-answer" ->
  (Native.isAnswerCorrect B q a = true <->
   exists cleanAnswer cleanCorrect,
     Cleaned B a cleanAnswer /\ Cleaned B (correctAnswer q) cleanCorrect /\
     Matches cleanAnswer cleanCorrect) /\
  (Runtime.isAsciiText a = true ->
   Runtime.isAsciiText (correctAnswer q) = true ->
   (Native.isAnswerCorrect B q a = true <->
    exists cleanAnswer cleanCorrect,
      CleanedAscii a cleanAnswer /\
      CleanedAscii (correctAnswer q) cleanCorrect /\
      Matches cleanAnswer cleanCorrect)).
Proof.
  intros Hty.
  assert (Hrule :
    Native.isAnswerCorrect B q a = true <->
    exists cleanAnswer cleanCorrect,
      Cleaned B a cleanAnswer /\ Cleaned B (correctAnswer q) cleanCorrect /\
      Matches cleanAnswer cleanCorrect).
  { rewrite (native_short_answer B q a Hty). unfold Cleaned. split.
    - intros H. do 2 eexists.
      split; [apply native_trim_Trimmed|].
      split; [apply native_trim_Trimmed|exact H].
    - intros (ca & ck & Ha & Hk & H).
      apply Trimmed_iff in Ha, Hk. subst ca ck. exact H. }
  split; [exact Hrule|].
  intros Ha Hk. rewrite Hrule. split.
  - intros (ca & ck & Hca & Hck & H). exists ca, ck.
    split; [apply (Cleaned_ascii B a ca Ha), Hca|].
    split; [apply (Cleaned_ascii B _ ck Hk), Hck|exact H].
  - intros (ca & ck & Hca & Hck & H). exists ca, ck.
    split; [apply (Cleaned_ascii B a ca Ha), Hca|].
    split; [apply (Cleaned_ascii B _ ck Hk), Hck|exact H].
Qed.

Lemma short_answer_grading_witness :
  Native.isAnswerCorrect Runtime.asciiBuiltins paddedKey
    "  the CHLOROPLAST" = true.
Proof.
  destruct (short_answer_grading Runtime.asciiBuiltins paddedKey
              "  the CHLOROPLAST" eq_refl) as [_ Hascii].
  apply (Hascii eq_refl eq_refl).
  exists "the chloroplast", "chloroplast". split; [|split].
  - exists "  the chloroplast". split; [reflexivity|].
    exists "  ", "". repeat split.
  - exists " chloroplast ". split; [reflexivity|].
    exists " ", " ". repeat split.
  - right. right. exists "the ", "". reflexivity.
Defined.

(** C4, amended. For every implementation of the built-ins, a
    multiple-choice question grades an answer as correct exactly when the
    answer and the key have the same lower case; for ASCII strings, exactly
    when they are equal up to the case of their letters.  The empty answer
    is incorrect when the key is not empty, and an answer that is the id
    of none of the options is incorrect when the key is the id of one of
    them, ids compared in any letter case. *)
Theorem multiple_choice_grading
  (B : Runtime.Builtins) (q : Question) (a : string) :
  questionType q = "multiple-choice" ->
  (Native.isAnswerCorrect B q a = true <->
   Runtime.toLowerCase B a = Runtime.toLowerCase B (correctAnswer q)) /\
  (Runtime.isAsciiText a = true ->
   Runtime.isAsciiText (correctAnswer q) = true ->
   (Native.isAnswerCorrect B q a = true <->
    sameLetters a (correctAnswer q) = true)) /\
  (correctAnswer q <> "" -> Native.isAnswerCorrect B q "" = false) /\
  (keyAmongOptions B q -> unknownOptionId B q a ->
   Native.isAnswerCorrect B q a = false).
Proof.
  intros Hty. split; [|split; [|split]].
  - rewrite (native_multiple_choice B q a Hty). apply String.eqb_eq.
  - intros Ha Hk. rewrite (native_multiple_choice B q a Hty), String.eqb_eq.
    rewrite (Runtime.toLowerCase_ascii B a Ha),
      (Runtime.toLowerCase_ascii B _ Hk).
    symmetry. apply sameLetters_iff.
  - intros Hkey. rewrite (native_multiple_choice B q "" Hty).
    apply String.eqb_neq. intros Heq. apply Hkey.
    apply (Runtime.toLowerCase_empty B). rewrite <- Heq.
    apply (Runtime.toLowerCase_ascii B "" eq_refl).
  - intros (opts & o & Hopts & Hin & Hid) Hunknown.
    rewrite (native_multiple_choice B q a Hty).
    apply String.eqb_neq. intros Heq.
    apply (Hunknown opts o Hopts Hin). congruence.
Qed.

Lemma multiple_choice_grading_witness :
  Native.isAnswerCorrect Runtime.asciiBuiltins
    (GradingSpec.mcQuestion 1 "a") "A" = true /\
  Native.isAnswerCorrect Runtime.asciiBuiltins
    (GradingSpec.mcQuestion 1 "a") "" = false /\
  Native.isAnswerCorrect Runtime.asciiBuiltins
    (GradingSpec.mcQuestion 1 "a") "z" = false.
Proof.
  split; [|split].
  - destruct (multiple_choice_grading Runtime.asciiBuiltins
                (GradingSpec.mcQuestion 1 "a") "A" eq_refl)
      as (_ & Hascii & _).
    apply (Hascii eq_refl eq_refl). reflexivity.
  - destruct (multiple_choice_grading Runtime.asciiBuiltins
                (GradingSpec.mcQuestion 1 "a") "" eq_refl)
      as (_ & _ & Hempty & _).
    apply Hempty. discriminate.
  - destruct (multiple_choice_grading Runtime.asciiBuiltins
                (GradingSpec.mcQuestion 1 "a") "z" eq_refl)
      as (_ & _ & _ & Hunknown).
    apply Hunknown.
    + exists GradingSpec.fourOptions,
        {| Gemini.id := "a"; Gemini.text := "first" |}.
      split; [reflexivity|]. split; [left; reflexivity|reflexivity].
    + intros opts o Hopts Hin. injection Hopts as <-.
      simpl in Hin. destruct Hin as [<-|[<-|[<-|[<-|[]]]]]; discriminate.
Defined.

End NativeGrading.

Section NativeGradingMore.
Import JS Routes TextRule GradingRule.

(** X1. Submitting the key itself is graded correct for both question
    types, whatever the key is.  A short-answer question grades as correct
    every ASCII answer that contains the key, whatever stands before and
    after it; beyond ASCII this fails, since the lower case of a letter
    can depend on the letter after it. *)
Theorem answer_containing_the_key_is_correct
  (B : Runtime.Builtins) (q : Question) :
  (questionType q = "multiple-choice" \/ questionType q = "short-answer" ->
   Native.isAnswerCorrect B q (correctAnswer q) = true) /\
  (questionType q = "short-answer" ->
   forall before after,
     Runtime.isAsciiText (before +:+ correctAnswer q +:+ after) = true ->
     Native.isAnswerCorrect B q (before +:+ correctAnswer q +:+ after) = true).
Proof.
  split.
  - intros [Hty|Hty].
    + rewrite (native_multiple_choice B q _ Hty). apply String.eqb_refl.
    + apply (native_short_answer B q _ Hty). left. reflexivity.
  - intros Hty before after Hascii.
    apply (native_short_answer B q _ Hty). right. right.
    pose proof Hascii as Hparts.
    rewrite !isAsciiText_app, !andb_true_iff in Hparts.
    destruct Hparts as (_ & Hkey & _).
    rewrite (Runtime.toLowerCase_ascii B _ Hascii),
      (Runtime.toLowerCase_ascii B _ Hkey).
    rewrite !(native_trim_ascii B) by (apply toLowerCase_ascii_text; assumption).
    apply Substring_trim. rewrite !toLowerCase_app.
    apply Substring_app, trim_Substring.
Qed.

(** X2. The grade does not depend on the letter case of an ASCII answer:
    the answer in upper case gets the grade of the answer, whatever the
    key is.  Beyond ASCII this fails, since the upper case of a letter can
    be two letters. *)
Theorem grading_ignores_letter_case
  (B : Runtime.Builtins) (q : Question) (a : string) :
  Runtime.isAsciiText a = true ->
  Native.isAnswerCorrect B q (Runtime.toUpperCase B a) =
  Native.isAnswerCorrect B q a.
Proof.
  intros Ha.
  assert (Hlow : Runtime.toLowerCase B (Runtime.toUpperCase B a) =
                 Runtime.toLowerCase B a).
  { rewrite (Runtime.toUpperCase_ascii B a Ha).
    rewrite (Runtime.toLowerCase_ascii B _ (toUpperCase_ascii_text a Ha)).
    rewrite (Runtime.toLowerCase_ascii B a Ha).
    apply toLowerCase_toUpperCase. }
  unfold Native.isAnswerCorrect. rewrite Hlow. reflexivity.
Qed.

Lemma grading_ignores_letter_case_witness :
  Native.isAnswerCorrect Runtime.asciiBuiltins GradingSpec.saQuestion
    "PHOTOSYNTHESIS" = true.
Proof.
  change "PHOTOSYNTHESIS"
    with (Runtime.toUpperCase Runtime.asciiBuiltins "photosynthesis").
  rewrite (grading_ignores_letter_case Runtime.asciiBuiltins
             GradingSpec.saQuestion "photosynthesis" eq_refl).
  reflexivity.
Defined.

End NativeGradingMore.

(* ================================================================== *)
(** * The title over the built-ins of the language *)
(* ================================================================== *)

Section NativeTitle.
Import JS TextRule TitleRule.
Context (B : Runtime.Builtins).

Local Abbreviation ws := (Runtime.isWhiteSpace B).
Local Abbreviation tc := (titleChar (Runtime.isWhiteSpace B)).

Lemma titleChar_isTitleChar c : tc c = Native.isTitleChar B c.
Proof.
  unfold titleChar, Native.isTitleChar. generalize (ws c). intros b.
  destruct c as [[] [] [] [] [] [] [] []]; destruct b; reflexivity.
Qed.

Lemma ws_titleChar c : ws c = true -> tc c = true.
Proof. intros H. unfold titleChar. rewrite H. apply orb_true_r. Qed.

Lemma colon_not_ws : ws ":" = false.
Proof. apply (Runtime.isWhiteSpace_ascii B ":" eq_refl). Qed.

Lemma colon_not_titleChar : tc ":" = false.
Proof. unfold titleChar. rewrite colon_not_ws. reflexivity. Qed.

(** *** The label *)

Lemma dropLabel_sameLetters label s r :
  dropLabel label s = Some r <->
  exists found, s = found +:+ r /\ sameLetters found label = true.
Proof.
  revert s. induction label as [|a label IH]; intros s.
  - cbn [dropLabel]. split.
    + intros [= ->]. exists "". split; reflexivity.
    + intros (found & -> & H). destruct found; [reflexivity|discriminate H].
  - destruct s as [|b s]; cbn [dropLabel].
    + split; [discriminate|].
      intros (found & E & H). destruct found as [|x found]; [discriminate H|].
      discriminate E.
    + destruct (Ascii.eqb (lowerChar a) (lowerChar b)) eqn:Hab.
      * apply Ascii.eqb_eq in Hab. rewrite IH. split.
        -- intros (found & -> & H). exists (String b found).
           split; [reflexivity|]. cbn [sameLetters].
           rewrite <- !lowerChar_code, Hab, N.eqb_refl. exact H.
        -- intros (found & E & H). destruct found as [|x found];
             [discriminate H|].
           rewrite append_cons in E. injection E as -> ->.
           cbn [sameLetters] in H. apply andb_true_iff in H as [_ H].
           exists found. split; [reflexivity|exact H].
      * split; [discriminate|].
        intros (found & E & H). destruct found as [|x found];
          [discriminate H|].
        rewrite append_cons in E. injection E as -> ->.
        cbn [sameLetters] in H. apply andb_true_iff in H as [H _].
        apply N.eqb_eq in H. rewrite <- !lowerChar_code in H.
        apply code_inj in H. rewrite H, Ascii.eqb_refl in Hab.
        discriminate Hab.
Qed.

(** *** The capture *)

Lemma takeWhile_app cap rest :
  allChars (Native.isTitleChar B) cap = true ->
  firstIs (Native.isTitleChar B) rest = false ->
  takeWhile (Native.isTitleChar B) (cap +:+ rest) = cap.
Proof.
  intros Hcap Hrest. induction cap as [|c cap IH].
  - change ("" +:+ rest) with rest. destruct rest as [|x rest]; [reflexivity|].
    cbn [firstIs] in Hrest. cbn [takeWhile]. rewrite Hrest. reflexivity.
  - cbn [allChars] in Hcap. apply andb_true_iff in Hcap as [Hc Hcap].
    rewrite append_cons. cbn [takeWhile]. rewrite Hc, (IH Hcap). reflexivity.
Qed.

Lemma takeWhile_split s :
  exists rest,
    s = takeWhile (Native.isTitleChar B) s +:+ rest /\
    allChars (Native.isTitleChar B) (takeWhile (Native.isTitleChar B) s)
      = true /\
    firstIs (Native.isTitleChar B) rest = false.
Proof.
  induction s as [|c s (rest & Hs & Hall & Hrest)].
  - exists "". repeat split.
  - cbn [takeWhile]. destruct (Native.isTitleChar B c) eqn:Hc.
    + exists rest. rewrite append_cons, <- Hs.
      split; [reflexivity|]. split; [|exact Hrest].
      cbn [allChars]. rewrite Hc, Hall. reflexivity.
    + exists (String c s). split; [reflexivity|]. split; [reflexivity|].
      exact Hc.
Qed.

Lemma allChars_titleChar s :
  allChars tc s = allChars (Native.isTitleChar B) s.
Proof.
  induction s as [|c s IH]; [reflexivity|].
  cbn [allChars]. rewrite titleChar_isTitleChar, IH. reflexivity.
Qed.

Lemma firstIs_titleChar s :
  firstIs tc s = firstIs (Native.isTitleChar B) s.
Proof. destruct s; [reflexivity|apply titleChar_isTitleChar]. Qed.

Lemma captureRun_iff s cap :
  Native.captureRun B s = Some cap <->
  exists rest,
    s = cap +:+ rest /\ cap <> "" /\ allChars tc cap = true /\
    firstIs tc rest = false.
Proof.
  unfold Native.captureRun. split.
  - destruct (takeWhile_split s) as (rest & Hs & Hall & Hrest).
    destruct (takeWhile (Native.isTitleChar B) s) as [|c run] eqn:E;
      [discriminate|].
    cbn [isEmpty]. intros [= <-]. exists rest.
    split; [exact Hs|]. split; [discriminate|].
    rewrite allChars_titleChar, firstIs_titleChar. split; assumption.
  - intros (rest & -> & Hne & Hall & Hrest).
    rewrite allChars_titleChar in Hall. rewrite firstIs_titleChar in Hrest.
    rewrite (takeWhile_app cap rest Hall Hrest).
    destruct cap; [contradiction|reflexivity].
Qed.

Lemma captureRun_none s :
  Native.captureRun B s = None <-> firstIs tc s = false.
Proof.
  unfold Native.captureRun. rewrite firstIs_titleChar.
  destruct s as [|c s]; [split; reflexivity|].
  cbn [takeWhile firstIs]. destruct (Native.isTitleChar B c);
    cbn [isEmpty]; split; (discriminate || reflexivity).
Qed.

Lemma spacesThenCapture_none s :
  Native.spacesThenCapture B s = None <-> firstIs tc s = false.
Proof.
  induction s as [|c s IH]; [split; reflexivity|].
  cbn [Native.spacesThenCapture firstIs].
  destruct (ws c) eqn:Hc.
  - rewrite (ws_titleChar c Hc).
    assert (Hrun : Native.captureRun B (String c s) <> None).
    { intros H. apply captureRun_none in H. cbn [firstIs] in H.
      rewrite (ws_titleChar c Hc) in H. discriminate H. }
    destruct (Native.spacesThenCapture B s); [split; discriminate|].
    split; [intros H; contradiction|discriminate].
  - apply (captureRun_none (String c s)).
Qed.

Lemma spacesThenCapture_iff s cap :
  Native.spacesThenCapture B s = Some cap <-> CaptureAt ws s cap.
Proof.
  split.
  - revert cap. induction s as [|c s IH]; intros cap.
    + cbn [Native.spacesThenCapture]. intros H.
      apply captureRun_iff in H as (rest & Hs & Hne & _).
      destruct cap; [contradiction|discriminate Hs].
    + cbn [Native.spacesThenCapture]. destruct (ws c) eqn:Hc.
      * destruct (Native.spacesThenCapture B s) as [cap'|] eqn:E.
        -- intros [= <-].
           destruct (IH cap' eq_refl)
             as (spaces & rest & -> & Hsp & Hne & Hall & Hrest & Hstart).
           exists (String c spaces), rest. rewrite append_cons.
           split; [reflexivity|]. split.
           { cbn [allChars]. rewrite Hc, Hsp. reflexivity. }
           repeat split; assumption.
        -- intros H. apply spacesThenCapture_none in E.
           apply captureRun_iff in H as (rest & Hs & Hne & Hall & Hrest).
           destruct cap as [|x cap]; [contradiction|].
           rewrite append_cons in Hs. injection Hs as <- ->.
           destruct cap as [|y cap].
           ++ exists "", rest. split; [reflexivity|].
              split; [reflexivity|]. split; [discriminate|].
              split; [exact Hall|]. split; [exact Hrest|].
              right. reflexivity.
           ++ rewrite append_cons in E. cbn [firstIs] in E.
              cbn [allChars] in Hall.
              apply andb_true_iff in Hall as [_ Hall].
              apply andb_true_iff in Hall as [Hy _].
              rewrite Hy in E. discriminate E.
      * intros H.
        apply captureRun_iff in H as (rest & Hs & Hne & Hall & Hrest).
        exists "", rest. split; [exact Hs|]. split; [reflexivity|].
        split; [exact Hne|]. split; [exact Hall|]. split; [exact Hrest|].
        left. destruct cap as [|x cap]; [reflexivity|].
        rewrite append_cons in Hs. injection Hs as <- _. exact Hc.
  - intros (spaces & rest & -> & Hsp & Hne & Hall & Hrest & Hstart).
    induction spaces as [|c spaces IH].
    + change ("" +:+ cap +:+ rest) with (cap +:+ rest).
      assert (Hrun : Native.captureRun B (cap +:+ rest) = Some cap).
      { apply captureRun_iff. exists rest. repeat split; assumption. }
      destruct cap as [|x cap]; [contradiction|].
      rewrite append_cons in *. cbn [Native.spacesThenCapture].
      destruct (ws x) eqn:Hx; [|exact Hrun].
      destruct Hstart as [Hstart|Hlen];
        [cbn [firstIs] in Hstart; congruence|].
      destruct cap as [|y cap]; [|discriminate Hlen].
      change ("" +:+ rest) with rest in *.
      assert (Hnone : Native.spacesThenCapture B rest = None)
        by (apply spacesThenCapture_none, Hrest).
      rewrite Hnone. exact Hrun.
    + cbn [allChars] in Hsp. apply andb_true_iff in Hsp as [Hc Hsp].
      rewrite append_cons. cbn [Native.spacesThenCapture].
      rewrite Hc, (IH Hsp). reflexivity.
Qed.

Lemma CaptureAt_first s cap :
  CaptureAt ws s cap -> firstIs tc s = true.
Proof.
  intros (spaces & rest & -> & Hsp & Hne & Hall & _).
  destruct spaces as [|c spaces].
  - destruct cap as [|x cap]; [contradiction|].
    cbn [allChars] in Hall. apply andb_true_iff in Hall as [Hx _]. exact Hx.
  - cbn [allChars] in Hsp. apply andb_true_iff in Hsp as [Hc _].
    apply ws_titleChar, Hc.
Qed.

Lemma colonThenCapture_iff s cap :
  Native.colonThenCapture B s = Some cap <->
  exists colon after,
    s = colon +:+ after /\ (colon = ":" \/ colon = "") /\
    CaptureAt ws after cap.
Proof.
  assert (Hcolon : forall r, ~ CaptureAt ws (String ":" r) cap).
  { intros r H. apply CaptureAt_first in H. cbn [firstIs] in H.
    rewrite colon_not_titleChar in H. discriminate H. }
  split.
  - intros H.
    assert (Hplain : Native.spacesThenCapture B s = Some cap ->
                     exists colon after,
                       s = colon +:+ after /\ (colon = ":" \/ colon = "") /\
                       CaptureAt ws after cap).
    { intros E. exists "", s. split; [reflexivity|].
      split; [right; reflexivity|]. apply spacesThenCapture_iff, E. }
    destruct s as [|c r]; [apply Hplain, H|].
    destruct (Ascii.eqb_spec c ":") as [->|Hc].
    + cbn [Native.colonThenCapture] in H.
      destruct (Native.spacesThenCapture B r) as [cap'|] eqn:E.
      * injection H as <-. exists ":", r. split; [reflexivity|].
        split; [left; reflexivity|]. apply spacesThenCapture_iff, E.
      * apply Hplain, H.
    + apply Hplain. revert H. unfold Native.colonThenCapture.
      destruct c as [[] [] [] [] [] [] [] []]; try (intros H; exact H).
      contradiction Hc. reflexivity.
  - intros (colon & after & -> & [-> | ->] & Hcap).
    + change (":" +:+ after) with (String ":" after).
      cbn [Native.colonThenCapture].
      apply spacesThenCapture_iff in Hcap. rewrite Hcap. reflexivity.
    + change ("" +:+ after) with after.
      destruct after as [|c r].
      * apply spacesThenCapture_iff, Hcap.
      * destruct (Ascii.eqb_spec c ":") as [->|Hc];
          [contradiction (Hcolon r Hcap)|].
        apply spacesThenCapture_iff in Hcap. rewrite <- Hcap.
        unfold Native.colonThenCapture.
        destruct c as [[] [] [] [] [] [] [] []]; try reflexivity.
        contradiction Hc. reflexivity.
Qed.

Lemma matchLabelHere_iff label s cap :
  Native.matchLabelHere B label s = Some cap <-> MatchAt ws label s cap.
Proof.
  unfold Native.matchLabelHere, MatchAt. split.
  - destruct (dropLabel label s) as [r|] eqn:E; [|discriminate].
    apply dropLabel_sameLetters in E as (found & -> & Hfound).
    intros H. apply colonThenCapture_iff in H
      as (colon & after & -> & Hcolon & Hcap).
    exists found, colon, after. repeat split; assumption.
  - intros (found & colon & after & -> & Hfound & Hcolon & Hcap).
    assert (E : dropLabel label (found +:+ colon +:+ after) =
                Some (colon +:+ after)).
    { apply dropLabel_sameLetters. exists found. split; [reflexivity|].
      exact Hfound. }
    rewrite E. apply colonThenCapture_iff.
    exists colon, after. repeat split; assumption.
Qed.

(** *** The leftmost match *)

Lemma native_matchLabel_none label text :
  Native.matchLabel B label text = None <-> NoMatch ws label text.
Proof.
  unfold NoMatch. induction text as [|c text IH].
  - cbn [Native.matchLabel]. split.
    + destruct (Native.matchLabelHere B label "") eqn:E; [discriminate|].
      intros _ before s cap Hs Hm.
      destruct before; [|discriminate Hs].
      change ("" +:+ s) with s in Hs. subst s.
      apply matchLabelHere_iff in Hm. congruence.
    + intros H. destruct (Native.matchLabelHere B label "") eqn:E;
        [|reflexivity].
      apply matchLabelHere_iff in E. contradiction (H "" "" s eq_refl E).
  - cbn [Native.matchLabel]. split.
    + destruct (Native.matchLabelHere B label (String c text)) eqn:E;
        [discriminate|].
      intros Hrest before s cap Hs Hm.
      destruct before as [|x before].
      * change ("" +:+ s) with s in Hs. subst s.
        apply matchLabelHere_iff in Hm. congruence.
      * rewrite append_cons in Hs. injection Hs as -> ->.
        exact (proj1 IH Hrest before s cap eq_refl Hm).
    + intros H.
      destruct (Native.matchLabelHere B label (String c text)) eqn:E.
      * apply matchLabelHere_iff in E.
        contradiction (H "" (String c text) s eq_refl E).
      * apply IH. intros before s cap Hs Hm.
        apply (H (String c before) s cap); [|exact Hm].
        rewrite append_cons, Hs. reflexivity.
Qed.

Lemma matchLabel_leftmost label text cap :
  Native.matchLabel B label text = Some cap ->
  LeftmostMatch ws label text cap.
Proof.
  unfold LeftmostMatch. induction text as [|c text IH].
  - cbn [Native.matchLabel].
    destruct (Native.matchLabelHere B label "") eqn:E; [|discriminate].
    intros [= ->]. exists "", "". split; [reflexivity|].
    split; [apply matchLabelHere_iff, E|].
    intros before' s' cap' _ Hlen. cbn in Hlen. lia.
  - cbn [Native.matchLabel].
    destruct (Native.matchLabelHere B label (String c text)) eqn:E.
    + intros [= ->]. exists "", (String c text). split; [reflexivity|].
      split; [apply matchLabelHere_iff, E|].
      intros before' s' cap' _ Hlen. cbn in Hlen. lia.
    + intros H. destruct (IH H) as (before & s & -> & Hm & Hleft).
      exists (String c before), s. split; [reflexivity|].
      split; [exact Hm|].
      intros before' s' cap' Hs Hlen Hm'.
      destruct before' as [|x before'].
      * change ("" +:+ s') with s' in Hs. subst s'.
        apply matchLabelHere_iff in Hm'. congruence.
      * rewrite !append_cons in Hs. injection Hs as -> Hs.
        apply (Hleft before' s' cap' Hs); [|exact Hm'].
        cbn [String.length] in Hlen. lia.
Qed.

Lemma append_same_length a b c d :
  a +:+ b = c +:+ d -> String.length a = String.length c -> b = d.
Proof.
  revert c. induction a as [|x a IH]; intros [|y c] E Hlen;
    try discriminate Hlen.
  - exact E.
  - rewrite !append_cons in E. injection E as _ E.
    apply (IH c E). cbn [String.length] in Hlen. lia.
Qed.

(** The leftmost match has one capture, the one that [matchLabel]
    returns. *)
Lemma matchLabel_iff label text cap :
  Native.matchLabel B label text = Some cap <->
  LeftmostMatch ws label text cap.
Proof.
  split; [apply matchLabel_leftmost|].
  intros (before & s & Hs & Hm & Hleft).
  destruct (Native.matchLabel B label text) as [cap'|] eqn:E.
  - apply matchLabel_leftmost in E as (before' & s' & Hs' & Hm' & Hleft').
    assert (Hlen : String.length before = String.length before').
    { destruct (Nat.lt_trichotomy (String.length before)
                                  (String.length before'))
        as [Hlt|[Heq|Hgt]]; [|exact Heq|].
      - contradiction (Hleft' before s cap Hs Hlt Hm).
      - contradiction (Hleft before' s' cap' Hs' Hgt Hm'). }
    assert (s = s').
    { apply (append_same_length before s before' s'); [congruence|exact Hlen]. }
    subst s'. apply matchLabelHere_iff in Hm, Hm'. congruence.
  - apply native_matchLabel_none in E. contradiction (E before s cap Hs Hm).
Qed.

Lemma LeftmostMatch_not_NoMatch label text cap :
  LeftmostMatch ws label text cap -> NoMatch ws label text -> False.
Proof.
  intros (before & s & Hs & Hm & _) Hnone. exact (Hnone before s cap Hs Hm).
Qed.

(** *** The lines and the file name *)

Lemma glued_cons sep c l ls :
  glued sep (String c l :: ls) = String c (glued sep (l :: ls)).
Proof. destruct ls; reflexivity. Qed.

Lemma split_Lines content : Lines content (split newline content).
Proof.
  unfold Lines. induction content as [|c r (Hne & Hall & Hr)].
  - split; [discriminate|]. split; [|reflexivity].
    constructor; [reflexivity|constructor].
  - cbn [split]. destruct (Ascii.eqb_spec c newline) as [->|Hc].
    + split; [discriminate|]. split.
      * constructor; [reflexivity|exact Hall].
      * destruct (split newline r) as [|l ls]; [contradiction|].
        change (String newline r =
                String newline (glued (String newline "") (l :: ls))).
        f_equal. exact Hr.
    + destruct (split newline r) as [|l ls]; [contradiction|].
      split; [discriminate|]. split.
      * inversion Hall as [|? ? Hl Hls]; subst.
        constructor; [|exact Hls].
        unfold TextSpec.noChar in *. cbn [allChars]. rewrite Hl.
        destruct (Ascii.eqb_spec c "010"); [contradiction|reflexivity].
      * rewrite glued_cons. f_equal. exact Hr.
Qed.

Lemma split_app_sep sep l rest :
  TextSpec.noChar sep l = true ->
  split sep (l +:+ String sep rest) = l :: split sep rest.
Proof.
  intros Hl. induction l as [|c l IH].
  - change ("" +:+ String sep rest) with (String sep rest).
    cbn [split]. rewrite Ascii.eqb_refl. reflexivity.
  - rewrite noChar_cons, andb_true_iff, negb_true_iff in Hl.
    destruct Hl as [Hc Hl]. rewrite append_cons. cbn [split].
    rewrite Hc, (IH Hl). reflexivity.
Qed.

Lemma Lines_iff content lines :
  Lines content lines <-> lines = split newline content.
Proof.
  split; [|intros ->; apply split_Lines].
  intros (Hne & Hall & ->). symmetry.
  induction Hall as [|l rest Hl Hrest IH]; [contradiction|].
  destruct rest as [|l2 rest].
  - apply split_nosep, Hl.
  - change (glued (String "010" "") (l :: l2 :: rest))
      with (l +:+ String newline (glued (String newline "") (l2 :: rest))).
    rewrite (split_app_sep newline l _ Hl). f_equal.
    apply IH. discriminate.
Qed.

Lemma join_glued sep pieces : join sep pieces = glued sep pieces.
Proof. reflexivity. Qed.

Lemma spaced_iff s t : spaced s t = true <-> t = underscoresToSpaces s.
Proof.
  revert t. induction s as [|c s IH]; intros [|d t]; cbn [spaced];
    try (split; [discriminate|]);
    try (split; [reflexivity|reflexivity]).
  - intros H. discriminate H.
  - intros H. discriminate H.
  - change (underscoresToSpaces (String c s))
      with (String (if Ascii.eqb c "_" then " "%char else c)
                   (underscoresToSpaces s)).
    rewrite andb_true_iff, IH. split.
    + intros [Hd ->]. f_equal.
      destruct (Ascii.eqb c "_"); apply Ascii.eqb_eq in Hd; exact Hd.
    + intros [= -> ->]. split; [|reflexivity].
      destruct (Ascii.eqb c "_"); apply Ascii.eqb_refl.
Qed.

Lemma extensionWord_isExtension ext : extensionWord ext = isExtension ext.
Proof.
  unfold extensionWord, isExtension.
  assert (H : forall w, sameLetters ext w = String.eqb (toLowerCase ext)
                                                      (toLowerCase w)).
  { intros w. destruct (String.eqb_spec (toLowerCase ext) (toLowerCase w))
      as [E|E].
    - apply sameLetters_iff, E.
    - destruct (sameLetters ext w) eqn:S; [|reflexivity].
      apply sameLetters_iff in S. contradiction. }
  rewrite !H. reflexivity.
Qed.

Lemma stripExtension_split filename :
  exists ext,
    filename = stripExtension filename +:+ ext /\
    (isExtension ext = true \/
     ext = "" /\ forall b e, filename = b +:+ e -> isExtension e = false).
Proof.
  induction filename as [|c r (ext & Hr & Hext)].
  - exists "". split; [reflexivity|]. right. split; [reflexivity|].
    intros b e E. destruct b; [|discriminate E].
    change ("" +:+ e) with e in E. subst e. reflexivity.
  - rewrite stripExtension_cons.
    destruct (isExtension (String c r)) eqn:E.
    + exists (String c r). split; [reflexivity|]. left. exact E.
    + exists ext. rewrite append_cons, <- Hr. split; [reflexivity|].
      destruct Hext as [Hext|[-> Hnone]]; [left; exact Hext|].
      right. split; [reflexivity|]. intros b e Hs.
      destruct b as [|x b].
      * change ("" +:+ e) with e in Hs. subst e. exact E.
      * rewrite append_cons in Hs. injection Hs as _ Hs.
        exact (Hnone b e Hs).
Qed.

Lemma stripExtension_none filename :
  (forall b e, filename = b +:+ e -> isExtension e = false) ->
  stripExtension filename = filename.
Proof.
  intros Hnone. destruct (stripExtension_split filename) as (ext & Hs & Hext).
  destruct Hext as [Hext|[-> _]].
  - rewrite (Hnone _ _ Hs) in Hext. discriminate Hext.
  - rewrite append_empty_r in Hs. symmetry. exact Hs.
Qed.

(** The title from the file name is [filenameTitle]. *)
Lemma FileTitle_iff filename title :
  FileTitle filename title <-> title = Gemini.filenameTitle filename.
Proof.
  unfold FileTitle, Gemini.filenameTitle. split.
  - intros (base & ext & -> & Hspaced & Hext).
    apply spaced_iff in Hspaced. subst title. f_equal.
    destruct Hext as [Hext|[-> Hnone]].
    + rewrite extensionWord_isExtension in Hext.
      symmetry. apply stripExtension_app, Hext.
    + rewrite append_empty_r in *. symmetry. apply stripExtension_none.
      intros b e E. rewrite <- extensionWord_isExtension. exact (Hnone b e E).
  - intros ->. destruct (stripExtension_split filename) as (ext & Hs & Hext).
    exists (stripExtension filename), ext. split; [exact Hs|].
    split; [apply spaced_iff; reflexivity|].
    destruct Hext as [Hext|[-> Hnone]].
    + left. rewrite extensionWord_isExtension. exact Hext.
    + right. split; [reflexivity|]. intros b e E.
      rewrite extensionWord_isExtension. exact (Hnone b e E).
Qed.

(** The chain of the three patterns is [courseMatch]. *)
Lemma courseMatch_iff content result :
  Decides ws (glued " " (firstn 10 (split newline content))) result <->
  result = Native.courseMatch B content.
Proof.
  unfold Decides, Native.courseMatch.
  change (Gemini.firstLines content)
    with (glued " " (firstn 10 (split newline content))).
  generalize (glued " " (firstn 10 (split newline content))). intros text.
  destruct (Native.matchLabel B "course" text) as [c1|] eqn:E1;
    [|destruct (Native.matchLabel B "title" text) as [c2|] eqn:E2;
      [|destruct (Native.matchLabel B "syllabus" text) as [c3|] eqn:E3]].
  - pose proof (matchLabel_leftmost _ _ _ E1) as L1.
    destruct result as [cap|]; split.
    + intros [H|[[H _]|[H _]]].
      * apply matchLabel_iff in H. congruence.
      * contradiction (LeftmostMatch_not_NoMatch _ _ _ L1 H).
      * contradiction (LeftmostMatch_not_NoMatch _ _ _ L1 H).
    + intros [= ->]. left. exact L1.
    + intros [H _]. contradiction (LeftmostMatch_not_NoMatch _ _ _ L1 H).
    + discriminate.
  - pose proof (proj1 (native_matchLabel_none _ _) E1) as N1.
    pose proof (matchLabel_leftmost _ _ _ E2) as L2.
    destruct result as [cap|]; split.
    + intros [H|[[_ H]|[_ [H _]]]].
      * contradiction (LeftmostMatch_not_NoMatch _ _ _ H N1).
      * apply matchLabel_iff in H. congruence.
      * contradiction (LeftmostMatch_not_NoMatch _ _ _ L2 H).
    + intros [= ->]. right. left. split; assumption.
    + intros [_ [H _]]. contradiction (LeftmostMatch_not_NoMatch _ _ _ L2 H).
    + discriminate.
  - pose proof (proj1 (native_matchLabel_none _ _) E1) as N1.
    pose proof (proj1 (native_matchLabel_none _ _) E2) as N2.
    pose proof (matchLabel_leftmost _ _ _ E3) as L3.
    destruct result as [cap|]; split.
    + intros [H|[[_ H]|[_ [_ H]]]].
      * contradiction (LeftmostMatch_not_NoMatch _ _ _ H N1).
      * contradiction (LeftmostMatch_not_NoMatch _ _ _ H N2).
      * apply matchLabel_iff in H. congruence.
    + intros [= ->]. right. right. repeat split; assumption.
    + intros [_ [_ H]]. contradiction (LeftmostMatch_not_NoMatch _ _ _ L3 H).
    + discriminate.
  - pose proof (proj1 (native_matchLabel_none _ _) E1) as N1.
    pose proof (proj1 (native_matchLabel_none _ _) E2) as N2.
    pose proof (proj1 (native_matchLabel_none _ _) E3) as N3.
    destruct result as [cap|]; split.
    + intros [H|[[_ H]|[_ [_ H]]]].
      * contradiction (LeftmostMatch_not_NoMatch _ _ _ H N1).
      * contradiction (LeftmostMatch_not_NoMatch _ _ _ H N2).
      * contradiction (LeftmostMatch_not_NoMatch _ _ _ H N3).
    + discriminate.
    + reflexivity.
    + intros _. repeat split; assumption.
Qed.

(** C8, amended. For every implementation of the built-ins, the title is
    the one that the rule gives and no other.  The rule reads the first ten
    lines, joined by spaces.  The first of the patterns course, title and
    syllabus that matches at all decides, by its leftmost match: the label
    in any letter case, a colon or none, white space as long as it can be,
    and the capture, the longest run of letters, digits and white space
    there.  The title is that capture without the white space at its ends,
    unless nothing is left of it; then, and when no pattern matches, the
    title is the file name cut before a final .pdf, .docx or .txt, with
    its underscores turned into spaces. *)
Theorem course_title_rule content filename title :
  TitleOf ws content filename title <->
  title = Native.extractCourseTitle B content filename.
Proof.
  unfold TitleOf, Native.extractCourseTitle. split.
  - intros (lines & result & Hlines & Hdecides & Htitle).
    apply Lines_iff in Hlines. subst lines.
    apply courseMatch_iff in Hdecides. subst result.
    destruct (Native.courseMatch B content) as [cap|].
    + destruct Htitle as (t & Ht & Htitle). apply Trimmed_iff in Ht. subst t.
      destruct (Native.trim B cap); [apply FileTitle_iff|]; exact Htitle.
    + apply FileTitle_iff, Htitle.
  - intros ->. exists (split newline content), (Native.courseMatch B content).
    split; [apply split_Lines|].
    split; [apply courseMatch_iff; reflexivity|].
    destruct (Native.courseMatch B content) as [cap|].
    + exists (Native.trim B cap). split; [apply native_trim_Trimmed|].
      destruct (Native.trim B cap); [apply FileTitle_iff|]; reflexivity.
    + apply FileTitle_iff. reflexivity.
Qed.

End NativeTitle.

Section AsciiInstance.
Import JS.

(** The earlier title is the title over the ASCII built-ins. *)
Lemma matchLabel_asciiBuiltins label s :
  Native.matchLabel Runtime.asciiBuiltins label s = matchLabel label s.
Proof. reflexivity. Qed.

Lemma extractCourseTitle_asciiBuiltins content filename :
  Native.extractCourseTitle Runtime.asciiBuiltins content filename =
  Gemini.extractCourseTitle content filename.
Proof. reflexivity. Qed.

End AsciiInstance.

(* ================================================================== *)
(** * The mock exam for every count that the schema admits *)
(* ================================================================== *)

Section SchemaMock.
Import QArith_base Qround.
Import JS Gemini.

Lemma lessThan_iff (i : nat) (bound : Q) :
  Schema.lessThan i bound = true <-> inject_Z (Z.of_nat i) < bound.
Proof.
  unfold Schema.lessThan. rewrite negb_true_iff. split.
  - intros H. apply Qnot_le_lt. intros Hle.
    apply Qle_bool_iff in Hle. congruence.
  - intros H. destruct (Qle_bool bound (inject_Z (Z.of_nat i))) eqn:E;
      [|reflexivity].
    apply Qle_bool_iff in E. contradiction (Qlt_not_le _ _ H E).
Qed.

Lemma below_ceiling (i : nat) (bound : Q) :
  inject_Z (Z.of_nat i) < bound <->
  (i < Z.to_nat (Qceiling bound))%nat.
Proof.
  split.
  - intros H.
    assert (Hlt : inject_Z (Z.of_nat i) < inject_Z (Qceiling bound))
      by (eapply Qlt_le_trans; [exact H|apply Qle_ceiling]).
    rewrite <- Zlt_Qlt in Hlt. lia.
  - intros H.
    assert (Hle : (Z.of_nat i <= Qceiling bound - 1)%Z) by lia.
    rewrite Zle_Qle in Hle.
    eapply Qle_lt_trans; [exact Hle|apply Qceiling_lt].
Qed.

(** The loop stops by its test, not by the number of its rounds. *)
Lemma loopFrom_seq (steps i : nat) (bound : Q) :
  (i + steps <= Z.to_nat (Qceiling bound))%nat ->
  Schema.loopFrom steps i bound = seq i steps.
Proof.
  revert i. induction steps as [|steps IH]; intros i Hle; [reflexivity|].
  cbn [Schema.loopFrom seq].
  assert (Hlt : Schema.lessThan i bound = true)
    by (apply lessThan_iff, below_ceiling; lia).
  rewrite Hlt, IH by lia. reflexivity.
Qed.

Lemma loopIndices_seq (bound : Q) :
  Schema.loopIndices bound = seq 0 (Z.to_nat (Qceiling bound)).
Proof. unfold Schema.loopIndices. apply loopFrom_seq. lia. Qed.

Lemma schema_mockQuestion_type lines config i :
  questionType (Schema.mockQuestion lines config i) =
  typeName (Schema.type config).
Proof. unfold Schema.mockQuestion. destruct (Schema.type config); reflexivity. Qed.

Lemma schema_mockQuestion_difficulty lines config i :
  questionDifficulty (Schema.mockQuestion lines config i) =
  mockDifficulty (Schema.difficulty config) i.
Proof. unfold Schema.mockQuestion. destruct (Schema.type config); reflexivity. Qed.

Lemma schema_generateMockExam_lookup content config courseTitle i q :
  questions (Schema.generateMockExam content config courseTitle) !! i
    = Some q ->
  q = Schema.mockQuestion (relevantLines content) config i.
Proof.
  cbn [Schema.generateMockExam questions]. rewrite loopIndices_seq.
  rewrite list_lookup_fmap. intros H.
  apply fmap_Some in H as [k [Hk ->]].
  apply lookup_seq in Hk as [-> _]. reflexivity.
Qed.

(** C6, as stated, fails: the schema admits a count of five and a half,
    and the mock exam for it has six questions. *)
Lemma fractional_count_gives_another_number :
  Schema.examConfigSchema Schema.fiveAndAHalf = true /\
  length (questions (Schema.generateMockExam TruncationSpec.twentyLines
                       Schema.fiveAndAHalf "Biology")) = 6%nat /\
  ~ inject_Z (Z.of_nat 6) == Schema.questionCount Schema.fiveAndAHalf.
Proof.
  split; [reflexivity|]. split; [vm_compute; reflexivity|].
  intros H. vm_compute in H. discriminate H.
Qed.

(** C6, amended. For every count, whole or not, the mock exam has a
    question at position [i] exactly when [i] is below the count: when the
    count is a whole number that is not negative the exam has exactly that
    many questions, and when it lies between two whole numbers it has the
    greater one.  Each question has the configured type; each
    multiple-choice question has key "a", and its option "a", the first, is
    the "primary framework" sentence about its topic; the difficulty at
    position [i] is easy, medium or hard by [i mod 3] when the configured
    difficulty is mixed, and the configured difficulty otherwise. *)
Theorem mock_exam_shape content (config : Schema.ExamConfig) courseTitle :
  let exam := Schema.generateMockExam content config courseTitle in
  (forall i : nat,
     (i < length (questions exam))%nat <->
     inject_Z (Z.of_nat i) < Schema.questionCount config) /\
  (forall n : nat,
     Schema.questionCount config == inject_Z (Z.of_nat n) ->
     length (questions exam) = n) /\
  (forall n : nat,
     inject_Z (Z.of_nat n) < Schema.questionCount config ->
     Schema.questionCount config < inject_Z (Z.of_nat (S n)) ->
     length (questions exam) = S n) /\
  forall i q,
    questions exam !! i = Some q ->
    questionType q = Schema.typeWord (Schema.type config) /\
    (forall m,
       q = MC m ->
       mc_correctAnswer m = "a" /\
       head (mc_options m) =
         Some {| id := "a";
                 text := "The primary framework for understanding " +:+
                         mc_topic m |} /\
       forall o, In o (mc_options m) -> id o = "a" ->
         text o = "The primary framework for understanding " +:+ mc_topic m) /\
    questionDifficulty q =
      Schema.difficultyWord (Schema.difficulty config) i.
Proof.
  intros exam.
  assert (Hlen : length (questions exam) =
                 Z.to_nat (Qceiling (Schema.questionCount config))).
  { unfold exam. cbn [Schema.generateMockExam questions].
    rewrite loopIndices_seq, length_map, length_seq. reflexivity. }
  split; [|split; [|split]].
  - intros i. rewrite Hlen. symmetry. apply below_ceiling.
  - intros n Hn. rewrite Hlen, (Qceiling_comp _ _ Hn), Qceiling_Z. lia.
  - intros n Hlow Hhigh. rewrite Hlen.
    apply below_ceiling in Hlow.
    assert (Hnot : ~ (S n < Z.to_nat (Qceiling (Schema.questionCount config)))%nat).
    { intros H. apply below_ceiling in H.
      exact (Qlt_irrefl _ (Qlt_trans _ _ _ H Hhigh)). }
    lia.
  - intros i q Hq.
    apply schema_generateMockExam_lookup in Hq. subst q.
    split; [|split].
    + rewrite schema_mockQuestion_type.
      destruct (Schema.type config); reflexivity.
    + intros m Hm. unfold Schema.mockQuestion in Hm.
      destruct (Schema.type config); [|discriminate Hm].
      injection Hm as <-. cbn [mc_correctAnswer mc_options mc_topic head].
      split; [reflexivity|]. split; [reflexivity|].
      intros o Hin Hid.
      destruct Hin as [<-|[<-|[<-|[<-|[]]]]];
        cbn [id] in Hid; try discriminate Hid; reflexivity.
    + rewrite schema_mockQuestion_difficulty.
      destruct (Schema.difficulty config); try reflexivity.
      cbn [mockDifficulty Schema.difficultyWord].
      pose proof (Nat.mod_upper_bound i 3) as Hmod.
      destruct (i mod 3)%nat as [|[|[|k]]]; try reflexivity. lia.
Qed.

(** With whole numbers the mock exam is the one of the configuration in
    integers. *)
Lemma generateMockExam_whole content config whole courseTitle :
  Schema.Whole config whole ->
  Schema.generateMockExam content config courseTitle =
  generateMockExam content whole courseTitle.
Proof.
  intros (Hty & Hcount & Hdiff & _).
  unfold Schema.generateMockExam, generateMockExam.
  rewrite loopIndices_seq, (Qceiling_comp _ _ Hcount), Qceiling_Z, Hdiff.
  unfold loopIndices. f_equal. apply map_ext. intros i.
  unfold Schema.mockQuestion, mockQuestion. rewrite Hty, Hdiff. reflexivity.
Qed.

Lemma schema_bounds config whole :
  Schema.examConfigSchema config = true ->
  Schema.Whole config whole ->
  (5 <= questionCount whole <= 50)%Z.
Proof.
  unfold Schema.examConfigSchema. rewrite andb_true_iff, !Qle_bool_iff.
  intros [Hlow Hhigh] (_ & Hcount & _).
  rewrite Hcount in Hlow, Hhigh.
  change 5 with (inject_Z 5) in Hlow. change 50 with (inject_Z 50) in Hhigh.
  rewrite <- Zle_Qle in Hlow, Hhigh. lia.
Qed.

End SchemaMock.

Section SchemaRoutes.
Import JS Routes GradingSpec RouteSpec Storage ExamSpec.

(** X26. A saved mock exam can be answered in full without reading it.
    For a configuration that the schema admits and whose numbers are
    whole, so that the exams table can hold them, and when the ids of the
    new exam and of the new attempt are not in use: saving the mock exam
    stores as many questions as configured, from 5 to 50; an attempt
    started on it has that number as its maxScore; and the batch that
    answers each question with the first option in upper case (multiple
    choice) or with nothing (short answer) is graded 200 with the score
    equal to the maxScore. *)
Theorem mock_exam_full_marks
  d syllabus (config : Schema.ExamConfig) (whole : Gemini.ExamConfig)
  content courseTitle now later last :
  Schema.examConfigSchema config = true ->
  Schema.Whole config whole ->
  NextExamUnused d ->
  NextAttemptUnused (tables d) ->
  let generated := Schema.generateMockExam content config courseTitle in
  let saved := saveGeneratedExam d syllabus whole generated now in
  exists exam rows,
    fst saved = success 201 (exam, rows) /\
    Z.of_nat (length rows) = Gemini.questionCount whole /\
    (5 <= Z.of_nat (length rows) <= 50)%Z /\
    let started :=
      startAttempt (tables (snd saved)) (Some (exam_id exam)) later in
    exists attempt,
      fst started = {| status := 201; payload := AttemptCreated attempt |} /\
      maxScore attempt = Gemini.questionCount whole /\
      exists final stored,
        fst (submitAnswers (snd started) (Some (attempt_id attempt))
               (Batch (answerAll rows (mockKey (Gemini.type whole)))) last) =
          {| status := 200;
             payload := Graded final stored (Gemini.questionCount whole)
                               (Gemini.questionCount whole) |} /\
        score final = Some (Gemini.questionCount whole) /\
        completedAt final = Some last.
Proof.
  intros Hschema Hwhole Hunused Hattempts generated saved.
  pose proof (schema_bounds config whole Hschema Hwhole) as Hbounds.
  assert (Hcount : (0 <= Gemini.questionCount whole)%Z) by lia.
  unfold saved, generated.
  rewrite (generateMockExam_whole content config whole courseTitle Hwhole).
  destruct (saved_mock_exam_full_marks d syllabus whole content courseTitle
              now later last Hunused Hattempts Hcount)
    as (exam & rows & Hsaved & Hlength & Hrest).
  exists exam, rows. split; [exact Hsaved|]. split; [exact Hlength|].
  split; [rewrite Hlength; exact Hbounds|exact Hrest].
Qed.

Lemma mock_exam_full_marks_witness :
  exists exam rows,
    fst (saveGeneratedExam DeleteSpec.twoSyllabuses DeleteSpec.biology
           Schema.fiveEasyWhole
           (Schema.generateMockExam "Course: Biology" Schema.fiveEasy
              "Biology")
           4000) = success 201 (exam, rows) /\
    Z.of_nat (length rows) = 5%Z.
Proof.
  assert (Hwhole : Schema.Whole Schema.fiveEasy Schema.fiveEasyWhole).
  { repeat split; reflexivity. }
  assert (Hunused : NextExamUnused DeleteSpec.twoSyllabuses).
  { split; repeat constructor; vm_compute; discriminate. }
  assert (Hattempts : NextAttemptUnused (tables DeleteSpec.twoSyllabuses)).
  { repeat constructor; vm_compute; discriminate. }
  destruct (mock_exam_full_marks DeleteSpec.twoSyllabuses DeleteSpec.biology
              Schema.fiveEasy Schema.fiveEasyWhole
              "Course: Biology" "Biology" 4000%Z 5000%Z 6000%Z
              eq_refl Hwhole Hunused Hattempts)
    as (exam & rows & Hsaved & Hlength & _).
  exists exam, rows. split; [exact Hsaved|exact Hlength].
Defined.

End SchemaRoutes.
